(** * A shallow embedding of the sudoku solver of [main.py]

    The program keeps every [Cell] as a heap object that is mutated in
    place, and a [Board] is a bundle of references to 81 such objects.
    The disambiguation step builds a second board next to the first one,
    so the embedding keeps an explicit object store: a heap is the list
    of all [Cell] objects allocated so far, a reference is an index into
    it, and every method is a state-and-exception computation over the
    heap.  The three [while True] loops of [basic_checks] are written
    with an iteration budget; the budget computed from the board is shown
    to be always sufficient. *)

From Stdlib Require Import ZArith Lia Ascii String DecimalString.
From stdpp Require Import base tactics option list list_numbers strings.

Open Scope Z_scope.

(** ** Python built-ins used by the program *)

Module Py.

(** The exceptions the program can meet. *)
Inductive exn := IndexError | ValueError | KeyError | TypeError.

#[global] Instance exn_eq_dec : EqDecision exn.
Proof. solve_decision. Defined.

(** [range(lo, hi)] *)
Definition range (lo hi : Z) : list Z := seqZ lo (hi - lo).

(** [itertools.product(xs, ys)]: the left factor varies slowest. *)
Definition prod {A B : Type} (xs : list A) (ys : list B) : list (A * B) :=
  x ← xs; (λ y, (x, y)) <$> ys.

(** [v in l] on a list. *)
Definition contains `{EqDecision A} (v : A) (l : list A) : bool :=
  bool_decide (v ∈ l).

(** [l.remove(v)]: drops the first occurrence of [v]; [None] stands for
    the [ValueError] raised when [v] does not occur. *)
Fixpoint list_remove `{EqDecision A} (v : A) (l : list A) : option (list A) :=
  match l with
  | [] => None
  | x :: l' => if decide (x = v) then Some l' else (x ::.) <$> list_remove v l'
  end.

(** [list(set(l))]: one copy of every element.  The iteration order of a
    Python set of objects is unspecified; the order chosen here is
    irrelevant for every use in the program (see [remove_value_perm]). *)
Definition list_set `{EqDecision A} (l : list A) : list A := remove_dups l.

(** [str(n)] for an integer. *)
Definition str (n : Z) : string := NilZero.string_of_int (Z.to_int n).

(** [int(ch)] for a one-character string; [None] stands for [ValueError]. *)
Definition int (ch : ascii) : option Z :=
  let n := Ascii.nat_of_ascii ch in
  if bool_decide (48 ≤ n ≤ 57)%nat then Some (Z.of_nat n - 48) else None.

(** [math.ceil(n / 3)]; the quotient is exact enough on the arguments
    1..9 met in the program for the float result to be the integer
    ceiling. *)
Definition ceil_div3 (n : Z) : Z := (n + 2) `div` 3.

(** [d[k]] on a dict kept in insertion order; [None] stands for [KeyError]. *)
Fixpoint dict_get `{EqDecision K} {V} (d : list (K * V)) (k : K) : option V :=
  match d with
  | [] => None
  | (k', v) :: d' => if decide (k' = k) then Some v else dict_get d' k
  end.

(** [d.values()] *)
Definition values {K V} (d : list (K * V)) : list V := snd <$> d.

End Py.

(** ** Objects and the store *)

Abbreviation loc := nat.

Module Obj.

(** The attributes of a [Cell] object.  [r], [c] and [box] are [None]
    until [Board.__init__] fills them in. *)
Record t := mk {
  cell : list Z;
  r : option Z;
  c : option Z;
  box : option Z;
  unchecked : bool
}.

#[global] Instance t_eq_dec : EqDecision t.
Proof. solve_decision. Defined.

(** The attribute values set by [Cell.__init__]. *)
Definition fresh : t := mk (Py.range 1 10) None None None true.

#[global] Instance t_inhabited : Inhabited t := populate fresh.

Definition set_cell (l : list Z) (x : t) : t :=
  mk l (r x) (c x) (box x) (unchecked x).
Definition set_r (v : Z) (x : t) : t :=
  mk (cell x) (Some v) (c x) (box x) (unchecked x).
Definition set_c (v : Z) (x : t) : t :=
  mk (cell x) (r x) (Some v) (box x) (unchecked x).
Definition set_box (v : Z) (x : t) : t :=
  mk (cell x) (r x) (c x) (Some v) (unchecked x).
Definition set_unchecked (u : bool) (x : t) : t :=
  mk (cell x) (r x) (c x) (box x) u.

End Obj.

Abbreviation Heap := (list Obj.t).

(** ** The computation monad: heap state and Python exceptions *)

Inductive outcome (A : Type) :=
  | Ok (a : A)
  | Raise (e : Py.exn).
Arguments Ok {A} a.
Arguments Raise {A} e.

#[global] Instance outcome_eq_dec `{EqDecision A} : EqDecision (outcome A).
Proof. solve_decision. Defined.

Definition M (A : Type) : Type := Heap → outcome A * Heap.

Definition ret {A} (a : A) : M A := λ h, (Ok a, h).

Definition bind {A B} (m : M A) (k : A → M B) : M B :=
  λ h, match m h with
       | (Ok a, h') => k a h'
       | (Raise e, h') => (Raise e, h')
       end.

Definition raise {A} (e : Py.exn) : M A := λ h, (Raise e, h).

(** [try: body / except e: handler] *)
Definition try_except {A} (body : M A) (e : Py.exn) (handler : M A) : M A :=
  λ h, match body h with
       | (Raise e', h') => if decide (e' = e) then handler h' else (Raise e', h')
       | res => res
       end.

Notation "x <- m ;; k" := (bind m (λ x, k))
  (at level 100, m at next level, right associativity, only parsing).
Notation "m ;;; k" := (bind m (λ _, k))
  (at level 100, right associativity, only parsing).

(** A value that is computed from the current heap without changing it. *)
Definition gets {A} (f : Heap → A) : M A := λ h, (Ok (f h), h).

(** Reading and updating the attributes of the object at a reference. *)
Definition rd (a : loc) : M Obj.t := gets (λ h, h !!! a).
Definition wr (a : loc) (f : Obj.t → Obj.t) : M unit :=
  λ h, (Ok tt, alter f a h).

(** An optional result whose [None] stands for the exception [e]. *)
Definition or_raise {A} (e : Py.exn) (o : option A) : M A :=
  match o with Some a => ret a | None => raise e end.

(** [for x in xs: body x] *)
Fixpoint for_each {X} (xs : list X) (body : X → M unit) : M unit :=
  match xs with
  | [] => ret tt
  | x :: xs' => body x ;;; for_each xs' body
  end.

(** [[f x for x in xs]] where [f] may have effects. *)
Fixpoint map_m {X Y} (f : X → M Y) (xs : list X) : M (list Y) :=
  match xs with
  | [] => ret []
  | x :: xs' => y <- f x ;; ys <- map_m f xs' ;; ret (y :: ys)
  end.

(** ** class Cell *)

Module Cell.

(** [Cell()] allocates a fresh object. *)
Definition init : M loc := λ h, (Ok (length h), h ++ [Obj.fresh]).

(** [self.filled] *)
Definition filled_of (x : Obj.t) : bool := bool_decide (length (Obj.cell x) = 1%nat).
Definition filled (self : loc) : M bool := x <- rd self ;; ret (filled_of x).

(** [self.cell.remove(val)] *)
Definition remove (self : loc) (val : Z) : M unit :=
  x <- rd self ;;
  l <- or_raise Py.ValueError (Py.list_remove val (Obj.cell x)) ;;
  wr self (Obj.set_cell l).

(** [len(self)] *)
Definition len (self : loc) : M nat := x <- rd self ;; ret (length (Obj.cell x)).

(** [self.cell[i]] *)
Definition item (self : loc) (i : nat) : M Z :=
  x <- rd self ;; or_raise Py.IndexError (Obj.cell x !! i).

(** The fields of a cell shown by [repr(cell)], that is
    [f'r{self.r}c{self.c}: {self.cell}']. *)
Definition repr_of (x : Obj.t) : option Z * option Z * list Z :=
  (Obj.r x, Obj.c x, Obj.cell x).

End Cell.

(** ** class Board *)

Module Board.

(** The attributes of a [Board] object.  They are assigned once by
    [__init__] and hold references only.  [board] is the data frame,
    kept as its nine rows (labels 1..9) of nine columns (labels 1..9);
    [rows], [cols] and [boxes] are the dicts from 1..9 to a group. *)
Record t := mk {
  board : list (list loc);
  cells : list loc;
  rows : list (Z * list loc);
  cols : list (Z * list loc);
  boxes : list (Z * list loc)
}.

(** [df.at[r, c]]: label lookup; [None] stands for [KeyError]. *)
Definition df_at (df : list (list loc)) (key : Z * Z) : option loc :=
  if bool_decide (1 ≤ key.1 ∧ 1 ≤ key.2)
  then row ← df !! Z.to_nat (key.1 - 1); row !! Z.to_nat (key.2 - 1)
  else None.

(** [pd.DataFrame(columns, index=range(1,10))]: the rows of the frame
    whose column [x] is the [x]-th list. *)
Definition data_frame (columns : list (list loc)) : list (list loc) :=
  (λ i, (λ col, col !!! i) <$> columns) <$> seq 0 9.

Definition boxes_dict : list (Z * Z * Z) :=
  [(1,1,1); (1,2,2); (1,3,3); (2,1,4); (2,2,5); (2,3,6); (3,1,7); (3,2,8); (3,3,9)].

(** [self[key]] *)
Definition getitem (self : t) (key : Z * Z) : M loc :=
  or_raise Py.KeyError (df_at (board self) key).

(** [{n : [cell for cell in cells if cell.attr == n] for n in range(1,10)}] *)
Definition group_by (attr : Obj.t → option Z) (cells : list loc) : M (list (Z * list loc)) :=
  gets (λ h, (λ n, (n, filter (λ cell, attr (h !!! cell) = Some n) cells)) <$> Py.range 1 10).

(** [Board()] *)
Definition init : M t :=
  columns <- map_m (λ _ : Z, map_m (λ _ : Z, Cell.init) (Py.range 0 9)) (Py.range 1 10) ;;
  let df := data_frame columns in
  let cells := concat df in
  for_each (Py.prod (Py.range 1 10) (Py.range 1 10)) (λ key,
    cell <- or_raise Py.KeyError (df_at df key) ;;
    wr cell (Obj.set_r key.1) ;;;
    wr cell (Obj.set_c key.2) ;;;
    x <- rd cell ;;
    r <- or_raise Py.TypeError (Obj.r x) ;;
    c <- or_raise Py.TypeError (Obj.c x) ;;
    b <- or_raise Py.KeyError (Py.dict_get boxes_dict (Py.ceil_div3 r, Py.ceil_div3 c)) ;;
    wr cell (Obj.set_box b)) ;;;
  rows <- group_by Obj.r cells ;;
  cols <- group_by Obj.c cells ;;
  boxes <- group_by Obj.box cells ;;
  ret (mk df cells rows cols boxes).

(** [self.hits(cell)] *)
Definition hits (self : t) (cell : loc) : M (list loc) :=
  x <- rd cell ;;
  in_row <- or_raise Py.KeyError (r ← Obj.r x; Py.dict_get (rows self) r) ;;
  in_col <- or_raise Py.KeyError (c ← Obj.c x; Py.dict_get (cols self) c) ;;
  in_box <- or_raise Py.KeyError (b ← Obj.box x; Py.dict_get (boxes self) b) ;;
  or_raise Py.ValueError (Py.list_remove cell (Py.list_set (in_row ++ in_col ++ in_box))).

(** [self.filled_cells] *)
Definition filled_cells (self : t) : M (list loc) :=
  gets (λ h, filter (λ cell, Cell.filled_of (h !!! cell)) (cells self)).

(** The body of the inner loop of [simple_check]:
    [if cell.cell[0] in hit.cell: hit.cell.remove(cell.cell[0])] *)
Definition remove_value (cell hit : loc) : M unit :=
  v <- Cell.item cell 0 ;;
  x <- rd hit ;;
  if Py.contains v (Obj.cell x)
  then v' <- Cell.item cell 0 ;; Cell.remove hit v'
  else ret tt.

(** The body of the outer loop of [simple_check] for one solved cell. *)
Definition propagate (self : t) (cell : loc) : M unit :=
  x <- rd cell ;;
  if Obj.unchecked x then
    hs <- hits self cell ;;
    for_each hs (remove_value cell) ;;;
    wr cell (Obj.set_unchecked false)
  else ret tt.

(** [self.simple_check()] *)
Definition simple_check (self : t) : M unit :=
  filled <- filled_cells self ;;
  for_each filled (propagate self).

(** The body of the loop of [group_check] for one group and one digit. *)
Definition unique_candidate (group : list loc) (n : Z) : M unit :=
  x <- gets (λ h, filter (λ cell, n ∈ Obj.cell (h !!! cell)) group) ;;
  if bool_decide (length x = 1%nat)
  then x0 <- or_raise Py.IndexError (x !! 0%nat) ;; wr x0 (Obj.set_cell [n])
  else ret tt.

(** [self.group_check()] *)
Definition group_check (self : t) : M unit :=
  for_each [rows self; cols self; boxes self] (λ lis,
    for_each (Py.prod (Py.values lis) (Py.range 1 10)) (λ '(group, n),
      unique_candidate group n)).

(** [self.solved()]: the comparison of two lists of objects is by identity. *)
Definition solved (self : t) : M bool :=
  filled <- filled_cells self ;;
  ret (bool_decide (filled = cells self)).

(** [self[key] = value] *)
Definition setitem (self : t) (key : Z * Z) (value : list Z) : M unit :=
  cell <- getitem self key ;;
  wr cell (Obj.set_cell value).

(** One character of [setup_string]. *)
Definition digit_of (x : Obj.t) : string :=
  if Cell.filled_of x
  then match Obj.cell x with v :: _ => Py.str v | [] => "0" end
  else "0".

(** [self.setup_string] *)
Definition setup_string_of (self : t) (h : Heap) : string :=
  String.concat "" ((λ cell, digit_of (h !!! cell)) <$> cells self).
Definition setup_string (self : t) : M string := gets (setup_string_of self).

(** The body of the loop of [setup]:
    [if int(fill): cell.cell = [int(fill)]] *)
Definition fill_cell (fill : ascii) (cell : loc) : M unit :=
  n <- or_raise Py.ValueError (Py.int fill) ;;
  if bool_decide (n ≠ 0)
  then n' <- or_raise Py.ValueError (Py.int fill) ;; wr cell (Obj.set_cell [n'])
  else ret tt.

(** [self.setup(text)] *)
Definition setup (self : t) (text : string) : M unit :=
  targets <- map_m (getitem self) (Py.prod (Py.range 1 10) (Py.range 1 10)) ;;
  for_each (zip (list_ascii_of_string text) targets) (λ '(fill, cell),
    fill_cell fill cell).

(** [str(self.cells)], up to the injective rendering of the fields that
    [Cell.__repr__] prints. *)
Definition str_cells_of (self : t) (h : Heap) : list (option Z * option Z * list Z) :=
  (λ cell, Cell.repr_of (h !!! cell)) <$> cells self.
Definition str_cells (self : t) : M (list (option Z * option Z * list Z)) :=
  gets (str_cells_of self).

End Board.

(** ** The solver functions *)

(** The sum of the lengths of the candidate lists of a board. *)
Definition total (b : Board.t) (h : Heap) : nat :=
  sum_list ((λ cell, length (Obj.cell (h !!! cell))) <$> Board.cells b).

(** [while True: prev = str(board.cells); pass_(); if prev == str(board.cells): break],
    with at most [fuel] iterations; [None] when the budget is used up. *)
Fixpoint until_stable (fuel : nat) (b : Board.t) (pass : Heap → option (outcome unit * Heap))
    (h : Heap) : option (outcome unit * Heap) :=
  match fuel with
  | O => None
  | S fuel' =>
      let prev := Board.str_cells_of b h in
      match pass h with
      | None => None
      | Some (Raise e, h') => Some (Raise e, h')
      | Some (Ok _, h') =>
          if bool_decide (prev = Board.str_cells_of b h')
          then Some (Ok tt, h')
          else until_stable fuel' b pass h'
      end
  end.

(** One turn of the outer loop of [basic_checks]: the two inner loops. *)
Definition basic_cycle (fuel : nat) (b : Board.t) (h : Heap) : option (outcome unit * Heap) :=
  match until_stable fuel b (λ h, Some (Board.simple_check b h)) h with
  | Some (Ok _, h') => until_stable fuel b (λ h, Some (Board.group_check b h)) h'
  | res => res
  end.

(** [basic_checks(board)] with every loop bounded by [fuel] iterations. *)
Definition basic_checks_fuel (fuel : nat) (b : Board.t) : Heap → option (outcome unit * Heap) :=
  until_stable fuel b (basic_cycle fuel b).

(** [basic_checks(board)].  The budget [S (total b h)] is enough for every
    loop ([basic_checks_fuel_enough]), so the last case is never taken. *)
Definition basic_checks (b : Board.t) : M unit :=
  λ h, match basic_checks_fuel (S (total b h)) b h with
       | Some res => res
       | None => (Ok tt, h)
       end.

(** [b = Board(); b.setup(text)]: a grid constructed from a string. *)
Definition from_string (text : string) : M Board.t :=
  new <- Board.init ;;
  Board.setup new text ;;;
  ret new.

(** The first three lines of the [try] block of [simple_brute_check]: the
    scratch board as it is when the trial value is about to be assigned. *)
Definition scratch (board : Board.t) : M Board.t :=
  new <- Board.init ;;
  text <- Board.setup_string board ;;
  Board.setup new text ;;;
  basic_checks new ;;;
  ret new.

(** The [try] block of [simple_brute_check] for one cell. *)
Definition trial_body (board : Board.t) (cell : loc) : M unit :=
  new <- scratch board ;;
  v <- Cell.item cell 0 ;;
  x <- rd cell ;;
  r <- or_raise Py.KeyError (Obj.r x) ;;
  c <- or_raise Py.KeyError (Obj.c x) ;;
  Board.setitem new (r, c) [v] ;;;
  basic_checks new.

(** The [except IndexError] block of [simple_brute_check]. *)
Definition trial_handler (cell : loc) : M unit :=
  v <- Cell.item cell 1 ;;
  wr cell (Obj.set_cell [v]).

(** One turn of the loop of [simple_brute_check]. *)
Definition trial (board : Board.t) (cell : loc) : M unit :=
  try_except (trial_body board cell) Py.IndexError (trial_handler cell).

(** [simple_brute_check(board)] *)
Definition simple_brute_check (board : Board.t) : M unit :=
  almost <- gets (λ h, filter (λ cell, length (Obj.cell (h !!! cell)) = 2%nat)
                              (Board.cells board)) ;;
  for_each almost (trial board).

(** How a turn of the loop of [solve] ends. *)
Inductive verdict := Solved | Stuck | Again.

(** One turn of the loop of [solve]. *)
Definition solve_cycle (board : Board.t) : M verdict :=
  prev <- Board.str_cells board ;;
  basic_checks board ;;;
  done <- Board.solved board ;;
  if done : bool then ret Solved
  else
    simple_brute_check board ;;;
    cur <- Board.str_cells board ;;
    if bool_decide (prev = cur) then ret Stuck else ret Again.

(** [solve()], with at most [fuel] turns of its loop. *)
Fixpoint solve (fuel : nat) (board : Board.t) (h : Heap) : option (outcome verdict * Heap) :=
  match fuel with
  | O => None
  | S fuel' =>
      match solve_cycle board h with
      | (Ok Again, h') => solve fuel' board h'
      | res => Some res
      end
  end.

(** The script: [board = Board(); board.setup(input('board: ')); solve()]. *)
Definition main (fuel : nat) (text : string) : option (outcome verdict * Heap * option Board.t) :=
  match Board.init [] with
  | (Ok board, h) =>
      match Board.setup board text h with
      | (Ok _, h') => (λ res, (res, Some board)) <$> solve fuel board h'
      | (Raise e, h') => Some (Raise e, h', Some board)
      end
  | (Raise e, h) => Some (Raise e, h, None)
  end.

(** * Vocabulary of the verification *)

(** [pres R m h]: running [m] from [h] ends in a heap related to [h],
    whether [m] returns or raises. *)
Definition pres (R : relation Heap) {A} (m : M A) (h : Heap) : Prop := R h (m h).2.

(** A computation that only reads the heap. *)
Definition read_only {A} (m : M A) : Prop := ∀ h, (m h).2 = h.

(** [cell_le x y]: the attributes [y] can be reached from [x]: same
    coordinates, a candidate list that is a sublist of the former one, and
    a propagation flag that is never raised again. *)
Definition cell_le (x y : Obj.t) : Prop :=
  Obj.r y = Obj.r x ∧ Obj.c y = Obj.c x ∧ Obj.box y = Obj.box x ∧
  Obj.cell y `sublist_of` Obj.cell x ∧
  (Obj.unchecked x = false → Obj.unchecked y = false).

(** [shrinks h h']: no object was allocated and every object moved down. *)
Definition shrinks (h h' : Heap) : Prop :=
  length h' = length h ∧ ∀ a, cell_le (h !!! a) (h' !!! a).

(** [frame S h h']: the heaps differ at most at the references in [S]. *)
Definition frame (S : loc → Prop) (h h' : Heap) : Prop :=
  length h' = length h ∧ ∀ a, ¬ S a → h' !!! a = h !!! a.

(** Every reference held by a board. *)
Definition refs (b : Board.t) : list loc :=
  Board.cells b ++ concat (Board.board b) ++
  concat (Py.values (Board.rows b) ++ Py.values (Board.cols b) ++ Py.values (Board.boxes b)).

(** An outcome with its value relocated by [g]. *)
Definition outcome_map {A B} (g : A → B) (o : outcome A) : outcome B :=
  match o with Ok a => Ok (g a) | Raise e => Raise e end.

(** [sim_at n g m m0 l]: behind any [n] older objects, [m] does what [m0]
    does on the heap [l] alone, with its result relocated by [g]. *)
Definition sim_at (n : nat) {A B} (g : A → B) (m : M B) (m0 : M A) (l : Heap) : Prop :=
  ∀ h, length h = n → m (h ++ l) = (outcome_map g (m0 l).1, h ++ (m0 l).2).

(** Moving references up by [n]. *)
Abbreviation shift n := (fmap (M:=list) (Nat.add n)).

Abbreviation shift_rows n := (fmap (M:=list) (shift n)).

(** A dict of groups with its references moved up by [n]. *)
Definition shift_groups (n : nat) (d : list (Z * list loc)) : list (Z * list loc) :=
  (λ kv : Z * list loc, (kv.1, shift n kv.2)) <$> d.

(** The board whose references are those of [b] moved up by [n]. *)
Definition shift_board (n : nat) (b : Board.t) : Board.t :=
  Board.mk (shift_rows n (Board.board b))
           (shift n (Board.cells b))
           (shift_groups n (Board.rows b))
           (shift_groups n (Board.cols b))
           (shift_groups n (Board.boxes b)).

(** The board made by [Board()] on the empty heap: the board of the script. *)
Definition board0 : Board.t :=
  Eval vm_compute in
    match (Board.init []).1 with Ok b => b | Raise _ => Board.mk [] [] [] [] [] end.

(** The heap that [Board()] makes of the empty heap. *)
Definition cells0 : Heap := Eval vm_compute in (Board.init []).2.

(** [kept n h h']: the first [n] objects of the heap are as they were. *)
Definition kept (n : nat) (h h' : Heap) : Prop :=
  (n ≤ length h)%nat →
  (n ≤ length h')%nat ∧ ∀ a, (a < n)%nat → h' !!! a = h !!! a.

(** The grid of the script after [board.setup(text)] and one
    [basic_checks(board)]: the state in which [solve] first calls
    [simple_brute_check]. *)
Definition propagated (text : string) : Heap :=
  ((Board.setup board0 text ;;; basic_checks board0) cells0).2.

(** A puzzle on which the first disambiguation pass finds a contradiction. *)
Definition puzzle_guess : string :=
  "000003017015009008060000000100007000009000200000500004000000020500600340340200000".

(** A puzzle on which the solver ends stuck after an inconclusive trial. *)
Definition puzzle_stuck : string :=
  "800000000003600000070090200050007000000045700000100030001000068008500010090000400".

(** [assigned x y]: [y] is [x], or [x] with its candidate list replaced by
    one of its own members. *)
Definition assigned (x y : Obj.t) : Prop :=
  y = x ∨ ∃ n, n ∈ Obj.cell x ∧ y = Obj.set_cell [n] x.

(** [assigns h h']: every object of [h'] is [assigned] from that of [h]. *)
Definition assigns (h h' : Heap) : Prop := ∀ a, assigned (h !!! a) (h' !!! a).

(** Every group of the board is made of cells of the board. *)
Definition groups_in_cells (b : Board.t) : Prop :=
  ∀ g a, g ∈ Py.values (Board.rows b) ++ Py.values (Board.cols b) ++
             Py.values (Board.boxes b) →
         a ∈ g → a ∈ Board.cells b.

(** [rigid b m]: if [m] leaves the printed cells of [b] as they were, it
    leaves the whole heap as it was. *)
Definition rigid (b : Board.t) (m : M unit) : Prop :=
  ∀ h, Board.str_cells_of b (m h).2 = Board.str_cells_of b h → (m h).2 = h.

(** The digit that [setup_string] prints for a cell, as a number. *)
Definition digit_val (x : Obj.t) : Z :=
  if Cell.filled_of x then match Obj.cell x with v :: _ => v | [] => 0 end else 0.

(** The character of a digit. *)
Definition digit_char (z : Z) : ascii := ascii_of_nat (Z.to_nat (z + 48)).

(** A solved cell holds a digit from 1 to 9. *)
Definition digit_cell (x : Obj.t) : Prop := ∀ v, Obj.cell x = [v] → 1 ≤ v ≤ 9.

(** [digit_cell] as a test. *)
Definition digit_cellb (x : Obj.t) : bool :=
  match Obj.cell x with [v] => bool_decide (1 ≤ v ≤ 9) | _ => true end.

(** The grid whose only clue is a 1 in cell (1,1). *)
Definition puzzle_one : string :=
  "100000000000000000000000000000000000000000000000000000000000000000000000000000000".

(** The state of the script when [solve()] is called. *)
Definition loaded (text : string) : Heap := (Board.setup board0 text cells0).2.

(** The row, column and box of a cell. *)
Definition coords (x : Obj.t) : option Z * option Z * option Z :=
  (Obj.r x, Obj.c x, Obj.box x).

(** [on_board0 h]: the cells of the board of the script have the
    coordinates that [Board()] gave them. *)
Definition on_board0 (h : Heap) : Prop :=
  ∀ k, (k < 81)%nat → coords (h !!! k) = coords (cells0 !!! k).

(** The cells hit by cell [k] of the board of the script. *)
Definition hits0 (k : loc) : list loc :=
  match (Board.hits board0 k cells0).1 with Ok l => l | Raise _ => [] end.

(** Two different cells of the board of the script that share a row, a
    column or a box. *)
Definition peers (k1 k2 : loc) : Prop :=
  k1 ≠ k2 ∧
  (Obj.r (cells0 !!! k1) = Obj.r (cells0 !!! k2) ∨
   Obj.c (cells0 !!! k1) = Obj.c (cells0 !!! k2) ∨
   Obj.box (cells0 !!! k1) = Obj.box (cells0 !!! k2)).

(** [flags_except S h h']: the propagation flag changed at most at the
    references in [S]. *)
Definition flags_except (S : loc → Prop) (h h' : Heap) : Prop :=
  ∀ a, ¬ S a → Obj.unchecked (h' !!! a) = Obj.unchecked (h !!! a).

(** An outcome that is a normal return or the contradiction signal. *)
Definition ok_or_index (o : outcome unit) : Prop := o = Ok tt ∨ o = Raise Py.IndexError.

(** The grid whose only clues are two 5s in cells (1,1) and (1,2). *)
Definition puzzle_55 : string :=
  "550000000000000000000000000000000000000000000000000000000000000000000000000000000".

(** What the inner loop of [simple_check] does to one hit cell when the
    source holds [v]. *)
Definition strike (v : Z) (x : Obj.t) : Obj.t :=
  if Py.contains v (Obj.cell x)
  then Obj.set_cell (default [] (Py.list_remove v (Obj.cell x))) x
  else x.

(** A puzzle on which a trial of the first disambiguation pass empties
    cells of its scratch grid without any exception. *)
Definition puzzle_silent : string :=
  "403000500800000002001300000502007010300000009070030000009000000005001000060000200".

(** The grid of [puzzle_silent] when [solve] first calls
    [simple_brute_check]. *)
Definition silent_start : Heap := propagated puzzle_silent.

(** The first two turns of the loop of that call: the trials of the cells
    (1,2) and (2,2). *)
Definition silent_prefix : outcome unit * Heap :=
  for_each [9%nat; 10%nat] (trial board0) silent_start.

(** The state in which the third turn, the trial of cell (2,3), begins. *)
Definition silent_state : Heap := silent_prefix.2.

(** The heap of that trial when the trial value is about to be assigned. *)
Definition silent_scratch : Heap := (scratch board0 silent_state).2.

(** The [try] block of that trial. *)
Definition silent_trial : outcome unit * Heap := trial_body board0 19 silent_state.

(** [on_board n h]: the 81 cells allocated from reference [n] on have the
    coordinates that [Board()] gave them. *)
Definition on_board (n : nat) (h : Heap) : Prop :=
  ∀ k, (k < 81)%nat → coords (h !!! (n + k)%nat) = coords (cells0 !!! k).

(** The offset, in allocation order, of the cell of a board at a key. *)
Definition offset (key : Z * Z) : nat := Z.to_nat (9 * (key.2 - 1) + (key.1 - 1)).

(** The number of the box of a key. *)
Definition box_of (key : Z * Z) : Z := 3 * ((key.1 - 1) `div` 3) + (key.2 - 1) `div` 3 + 1.

(** The characters that [int] accepts among the ASCII characters. *)
Definition is_digit (ch : ascii) : Prop := (48 ≤ nat_of_ascii ch ≤ 57)%nat.

(** The number that [int] makes of a digit character. *)
Definition digit_value (ch : ascii) : Z := Z.of_nat (nat_of_ascii ch) - 48.

(** What [setup] does to a cell that is given the character [fill], or no
    character at all. *)
Definition setup_cell (fill : option ascii) (x : Obj.t) : Obj.t :=
  match fill with
  | Some ch => if decide (digit_value ch = 0) then x else Obj.set_cell [digit_value ch] x
  | None => x
  end.

(** A text cut or filled with zeros to 81 characters. *)
Definition pad81 (cs : list ascii) : list ascii := take 81 (cs ++ replicate 81 "0"%char).

(** The cells hit by each cell of the board of the script, in the order of
    allocation. *)
Definition hits_table : list (list loc) := Eval vm_compute in (hits0 <$> seq 0 81).

(** [grows h h']: objects may have been allocated, and every object of [h]
    moved down. *)
Definition grows (h h' : Heap) : Prop :=
  (length h ≤ length h')%nat ∧ ∀ a, (a < length h)%nat → cell_le (h !!! a) (h' !!! a).

(** Every cell of the board is an object of the heap. *)
Definition allocated (b : Board.t) (h : Heap) : Prop :=
  Forall (λ a, (a < length h)%nat) (Board.cells b).

(** [quiet h h']: as [grows], and no propagation flag of an object of [h]
    has changed. *)
Definition quiet (h h' : Heap) : Prop :=
  (length h ≤ length h')%nat ∧
  ∀ a, (a < length h)%nat →
       cell_le (h !!! a) (h' !!! a) ∧ Obj.unchecked (h' !!! a) = Obj.unchecked (h !!! a).

(** [keeps I h h']: if [I] holds of [h], it holds of [h']. *)
Definition keeps (I : Heap → Prop) : relation Heap := λ h h', I h → I h'.

(** The candidates of cell [k] of the board allocated at [n]. *)
Definition cands (n : nat) (h : Heap) (k : nat) : list Z := Obj.cell (h !!! (n + k)%nat).

(** [eliminated n h]: on the board allocated at [n], every candidate list
    is made of distinct digits of 1..9, and a cell that is marked as
    propagated holds at most one value, which none of its peers holds. *)
Definition eliminated (n : nat) (h : Heap) : Prop :=
  on_board n h ∧
  ∀ k, (k < 81)%nat →
    NoDup (cands n h k) ∧ Forall (λ v, 1 ≤ v ≤ 9) (cands n h k) ∧
    (Obj.unchecked (h !!! (n + k)%nat) = false →
     (length (cands n h k) ≤ 1)%nat ∧
     ∀ v k', (k' < 81)%nat → cands n h k = [v] → peers k k' → v ∉ cands n h k').

(** [untouched n h]: the state of a board allocated at [n] on which no
    cell has been propagated yet. *)
Definition untouched (n : nat) (h : Heap) : Prop :=
  on_board n h ∧
  ∀ k, (k < 81)%nat →
    NoDup (cands n h k) ∧ Forall (λ v, 1 ≤ v ≤ 9) (cands n h k) ∧
    Obj.unchecked (h !!! (n + k)%nat) = true.

(** [valid_grid n h]: the board allocated at [n] is a completed sudoku:
    every cell holds one digit of 1..9 and no two cells of a row, a column
    or a box hold the same digit. *)
Definition valid_grid (n : nat) (h : Heap) : Prop :=
  ∀ k, (k < 81)%nat →
    ∃ v, cands n h k = [v] ∧ 1 ≤ v ≤ 9 ∧
         ∀ k', (k' < 81)%nat → peers k k' → cands n h k' ≠ [v].

(** A completed grid. *)
Definition grid_full : string :=
  "534678912672195348198342567859761423426853791713924856961537284287419635345286179".

(** The heap that the script ends with on [grid_full]. *)
Definition grid_full_end : Heap :=
  Eval vm_compute in match main 1 grid_full with Some (_, h, _) => h | None => [] end.

(** A completed sudoku, as the digit of every cell of a board in the order
    of allocation: digits of 1..9, different in any two cells of a row, a
    column or a box. *)
Definition solution (s : nat → Z) : Prop :=
  ∀ k, (k < 81)%nat →
    1 ≤ s k ≤ 9 ∧ ∀ k', (k' < 81)%nat → peers k k' → s k ≠ s k'.

(** [admits n s h]: every cell of the board allocated at [n] still has the
    digit of [s] among its candidates. *)
Definition admits (n : nat) (s : nat → Z) (h : Heap) : Prop :=
  on_board n h ∧ ∀ k, (k < 81)%nat → s k ∈ cands n h k.

(** [agrees s text]: the solution [s] has the digit of every character of
    [text] other than ['0'] in the cell that [setup] gives that character. *)
Definition agrees (s : nat → Z) (text : string) : Prop :=
  ∀ i ch k, list_ascii_of_string text !! i = Some ch →
            Board.cells board0 !! i = Some k → ch ≠ "0"%char → s k = digit_value ch.

(** The digits of [grid_full], by cell in the order of allocation. *)
Definition solution_full (k : nat) : Z :=
  digit_value (default "0"%char
                 (list_ascii_of_string grid_full !! (9 * (k `mod` 9) + k `div` 9)%nat)).

(** * Verification *)

(** ** Heap relations kept by a computation *)

Section pres.
Context (R : relation Heap) `{!PreOrder R}.

Lemma pres_ret {A} (a : A) h : pres R (ret a) h.
Proof. unfold pres; simpl. reflexivity. Qed.

Lemma pres_raise {A} e h : pres R (@raise A e) h.
Proof. unfold pres; simpl. reflexivity. Qed.

Lemma pres_gets {A} (f : Heap → A) h : pres R (gets f) h.
Proof. unfold pres; simpl. reflexivity. Qed.

Lemma pres_rd a h : pres R (rd a) h.
Proof. apply pres_gets. Qed.

Lemma pres_or_raise {A} e (o : option A) h : pres R (or_raise e o) h.
Proof. destruct o; [apply pres_ret | apply pres_raise]. Qed.

Lemma pres_bind {A B} (m : M A) (k : A → M B) h :
  pres R m h →
  (∀ a, (m h).1 = Ok a → pres R (k a) (m h).2) →
  pres R (bind m k) h.
Proof.
  unfold pres, bind. intros Hm Hk.
  destruct (m h) as [[a|e] h1]; simpl in *; [|done].
  etrans; [exact Hm|]. by apply Hk.
Qed.

Lemma pres_for_each {X} (xs : list X) (body : X → M unit) :
  (∀ x, x ∈ xs → ∀ h, pres R (body x) h) →
  ∀ h, pres R (for_each xs body) h.
Proof.
  induction xs as [|x xs IH]; intros Hbody h; simpl.
  - apply pres_ret.
  - apply pres_bind.
    + apply Hbody. by left.
    + intros _ _. apply IH. intros y Hy. apply Hbody. by right.
Qed.

Lemma pres_map_m {X Y} (f : X → M Y) (xs : list X) :
  (∀ x, x ∈ xs → ∀ h, pres R (f x) h) →
  ∀ h, pres R (map_m f xs) h.
Proof.
  induction xs as [|x xs IH]; intros Hf h; simpl.
  - apply pres_ret.
  - apply pres_bind; [apply Hf; by left|]. intros y _.
    apply pres_bind; [apply IH; intros z Hz; apply Hf; by right|].
    intros ys _. apply pres_ret.
Qed.

Lemma pres_try_except {A} (body handler : M A) e h :
  pres R body h →
  pres R handler (body h).2 →
  pres R (try_except body e handler) h.
Proof.
  unfold pres, try_except. intros Hb Hh.
  destruct (body h) as [[a|e'] h1]; simpl in *; [done|].
  case_decide; [|done]. by etrans.
Qed.

Lemma pres_if {A} (c : bool) (m1 m2 : M A) h :
  (c = true → pres R m1 h) → (c = false → pres R m2 h) →
  pres R (if c then m1 else m2) h.
Proof. destruct c; auto. Qed.
End pres.

Lemma read_only_pres (R : relation Heap) `{!Reflexive R} {A} (m : M A) h :
  read_only m → pres R m h.
Proof. unfold pres. intros ->. reflexivity. Qed.

(** ** The state of a cell only moves down *)

#[local] Instance cell_le_preorder : PreOrder cell_le.
Proof.
  split.
  - intros x. by repeat split.
  - intros x y z (?&?&?&?&?) (?&?&?&?&?). repeat split; try congruence; eauto.
    by etrans.
Qed.

#[local] Instance shrinks_preorder : PreOrder shrinks.
Proof.
  split.
  - intros h. split; [done|]. intros a. reflexivity.
  - intros h1 h2 h3 [? H12] [? H23]. split; [congruence|].
    intros a. etrans; [apply H12 | apply H23].
Qed.

Lemma shrinks_alter (f : Obj.t → Obj.t) a h :
  cell_le (h !!! a) (f (h !!! a)) → shrinks h (alter f a h).
Proof.
  intros Hle. split; [apply length_alter|]. intros a'.
  rewrite list_lookup_total_alter. case_decide as Ha; [|reflexivity].
  destruct Ha as [<- _]. done.
Qed.

Lemma list_remove_sublist `{EqDecision A} (v : A) l l' :
  Py.list_remove v l = Some l' → l' `sublist_of` l ∧ length l = S (length l').
Proof.
  revert l'. induction l as [|x l IH]; intros l'; simpl; [done|].
  case_decide.
  - intros [= <-]. split; [by apply sublist_cons|done].
  - destruct (Py.list_remove v l) as [l0|]; simpl; [|done].
    intros [= <-]. destruct (IH l0 eq_refl) as [? ?].
    split; [by apply sublist_skip | simpl; lia].
Qed.

Lemma list_remove_is_Some `{EqDecision A} (v : A) l :
  v ∈ l → is_Some (Py.list_remove v l).
Proof.
  induction l as [|x l IH]; [by intros ?%elem_of_nil|].
  intros Hin. simpl. case_decide; [by eexists|].
  apply elem_of_cons in Hin as [->|Hin]; [done|].
  destruct (IH Hin) as [l' ->]. by eexists.
Qed.

Lemma list_remove_None `{EqDecision A} (v : A) l :
  v ∉ l → Py.list_remove v l = None.
Proof.
  induction l as [|x l IH]; [done|].
  intros Hin. simpl. apply not_elem_of_cons in Hin as [? ?].
  case_decide; [congruence|]. by rewrite IH.
Qed.

Lemma pres_shrinks_remove self val h : pres shrinks (Cell.remove self val) h.
Proof.
  unfold pres, Cell.remove, bind, rd, gets, or_raise, wr; simpl.
  destruct (Py.list_remove val (Obj.cell (h !!! self))) as [l|] eqn:Hl; simpl;
    [|reflexivity].
  apply shrinks_alter. apply list_remove_sublist in Hl as [? _].
  by repeat split.
Qed.

Lemma read_only_item self i : read_only (Cell.item self i).
Proof.
  intros h. unfold Cell.item, bind, rd, gets, or_raise; simpl.
  by destruct (_ !! i).
Qed.

Lemma read_only_hits b cell : read_only (Board.hits b cell).
Proof.
  intros h. unfold Board.hits, bind, rd, gets, or_raise; simpl.
  repeat (match goal with |- context [match ?o with Some _ => _ | None => _ end] =>
            destruct o; simpl end); done.
Qed.

(** One structural step of a [pres] goal. *)
Ltac pres_step :=
  lazymatch goal with
  | |- pres ?R (bind _ _) _ => apply (pres_bind R); [|intros ? ?]
  | |- pres ?R (ret _) _ => apply (pres_ret R)
  | |- pres ?R (raise _) _ => apply (pres_raise R)
  | |- pres ?R (gets _) _ => apply (pres_gets R)
  | |- pres ?R (rd _) _ => apply (pres_rd R)
  | |- pres ?R (or_raise _ _) _ => apply (pres_or_raise R)
  | |- pres ?R (Cell.item _ _) _ => apply (read_only_pres R), read_only_item
  | |- pres ?R (Board.hits _ _) _ => apply (read_only_pres R), read_only_hits
  | |- pres ?R (if _ then _ else _) _ => apply (pres_if R); intros ?
  end.

Lemma pres_shrinks_wr a f h :
  cell_le (h !!! a) (f (h !!! a)) → pres shrinks (wr a f) h.
Proof. apply shrinks_alter. Qed.

Lemma pres_shrinks_remove_value cell hit h :
  pres shrinks (Board.remove_value cell hit) h.
Proof.
  unfold Board.remove_value. repeat pres_step. apply pres_shrinks_remove.
Qed.

Lemma pres_shrinks_propagate b cell h : pres shrinks (Board.propagate b cell) h.
Proof.
  unfold Board.propagate. repeat pres_step.
  - apply (pres_for_each shrinks). intros hit _ h''.
    apply pres_shrinks_remove_value.
  - apply pres_shrinks_wr. by repeat split.
Qed.

Lemma pres_shrinks_simple_check b h : pres shrinks (Board.simple_check b) h.
Proof.
  unfold Board.simple_check, Board.filled_cells. repeat pres_step.
  apply (pres_for_each shrinks). intros cell _ h'. apply pres_shrinks_propagate.
Qed.

Lemma filter_singleton_elem {A} (P : A → Prop) `{∀ x, Decision (P x)} (l : list A) x0 :
  filter P l !! 0%nat = Some x0 → P x0 ∧ x0 ∈ l.
Proof.
  intros Hx. apply list_elem_of_lookup_2 in Hx. by apply list_elem_of_filter in Hx.
Qed.

Lemma pres_shrinks_unique_candidate group n h :
  pres shrinks (Board.unique_candidate group n) h.
Proof.
  unfold pres, Board.unique_candidate, bind, gets, or_raise, wr; simpl.
  case_bool_decide; simpl; [|reflexivity].
  destruct (filter _ group !! 0%nat) as [x0|] eqn:Hx0; simpl; [|reflexivity].
  apply filter_singleton_elem in Hx0 as [Hn _].
  apply shrinks_alter. repeat split; simpl; try done.
  by apply singleton_sublist_l.
Qed.

Lemma pres_group_check (R : relation Heap) `{!PreOrder R} b :
  (∀ group n h, pres R (Board.unique_candidate group n) h) →
  ∀ h, pres R (Board.group_check b) h.
Proof.
  intros Hu h. unfold Board.group_check.
  apply (pres_for_each R). intros lis _ h'.
  apply (pres_for_each R). intros [group n] _ h''. apply Hu.
Qed.

Lemma pres_shrinks_group_check b h : pres shrinks (Board.group_check b) h.
Proof. apply (pres_group_check shrinks), pres_shrinks_unique_candidate. Qed.

(** ** The candidate count as a measure *)

Lemma sublist_eq_or_shorter {A} (l1 l2 : list A) :
  l1 `sublist_of` l2 → l1 = l2 ∨ (length l1 < length l2)%nat.
Proof.
  induction 1 as [|x l1 l2 Hsub IH|x l1 l2 Hsub IH]; simpl.
  - by left.
  - destruct IH as [->|?]; [by left | right; lia].
  - right. apply sublist_length in Hsub. lia.
Qed.

Lemma cell_le_repr x y :
  cell_le x y →
  (Cell.repr_of y = Cell.repr_of x ∧ length (Obj.cell y) = length (Obj.cell x)) ∨
  (length (Obj.cell y) < length (Obj.cell x))%nat.
Proof.
  intros (Hr & Hc & _ & Hsub & _). unfold Cell.repr_of.
  destruct (sublist_eq_or_shorter _ _ Hsub) as [->|?]; [left|by right].
  by rewrite Hr, Hc.
Qed.

Lemma total_str_cells b h :
  total b h = sum_list ((λ x, length x.2) <$> Board.str_cells_of b h).
Proof.
  unfold total, Board.str_cells_of. by rewrite <-list_fmap_compose.
Qed.

(** A later heap has the same printed cells, or strictly fewer candidates. *)
Lemma shrinks_measure b h h' :
  shrinks h h' →
  (Board.str_cells_of b h' = Board.str_cells_of b h ∧ total b h' = total b h) ∨
  (total b h' < total b h)%nat.
Proof.
  intros [_ Hle]. unfold total, Board.str_cells_of.
  induction (Board.cells b) as [|a l IH]; [by left|].
  rewrite !fmap_cons. cbn [sum_list_with id].
  pose proof (Hle a) as Hsub. apply cell_le_repr in Hsub.
  pose proof (sublist_length _ _ (proj1 (proj2 (proj2 (proj2 (Hle a)))))).
  destruct Hsub as [[Ha1 Ha2]|Ha], IH as [[IH1 IH2]|IH].
  - left. by rewrite Ha1, Ha2, IH1, IH2.
  - right. lia.
  - right. lia.
  - right. lia.
Qed.

Lemma shrinks_total b h h' : shrinks h h' → (total b h' ≤ total b h)%nat.
Proof. intros H. destruct (shrinks_measure b _ _ H) as [[_ ?]|?]; lia. Qed.

Lemma shrinks_changed b h h' :
  shrinks h h' → Board.str_cells_of b h ≠ Board.str_cells_of b h' →
  (total b h' < total b h)%nat.
Proof. intros H ?. destruct (shrinks_measure b _ _ H) as [[? _]|?]; [congruence|done]. Qed.

(** If the printed cells are the same at both ends of a run, they were the
    same in between. *)
Lemma shrinks_sandwich b h0 h1 h2 :
  shrinks h0 h1 → shrinks h1 h2 →
  Board.str_cells_of b h0 = Board.str_cells_of b h2 →
  Board.str_cells_of b h1 = Board.str_cells_of b h0.
Proof.
  intros H01 H12 Heq.
  assert (total b h0 = total b h2) by (by rewrite !total_str_cells, Heq).
  pose proof (shrinks_total b _ _ H12).
  destruct (shrinks_measure b _ _ H01) as [[? _]|?]; [done|lia].
Qed.

(** ** The bounded loops *)

Section until_stable.
Context (b : Board.t).

Lemma until_stable_pres (R : relation Heap) `{!PreOrder R} fuel pass :
  (∀ h res, pass h = Some res → R h res.2) →
  ∀ h res, until_stable fuel b pass h = Some res → R h res.2.
Proof.
  intros Hpass. induction fuel as [|fuel IH]; intros h res; simpl; [done|].
  destruct (pass h) as [[[[]|e] h1]|] eqn:Hp; [| |done].
  - pose proof (Hpass _ _ Hp) as H1. simpl in H1. case_bool_decide.
    + by intros [= <-].
    + intros Hres. etrans; [exact H1|]. by apply IH.
  - intros [= <-]. by apply (Hpass _ _ Hp).
Qed.

Lemma until_stable_mono fuel fuel' pass pass' :
  (fuel ≤ fuel')%nat →
  (∀ h res, pass h = Some res → pass' h = Some res) →
  ∀ h res, until_stable fuel b pass h = Some res →
           until_stable fuel' b pass' h = Some res.
Proof.
  intros Hle Hpass. revert fuel' Hle.
  induction fuel as [|fuel IH]; intros fuel' Hle h res; simpl; [done|].
  destruct fuel' as [|fuel']; [lia|]. simpl.
  destruct (pass h) as [[[[]|e] h1]|] eqn:Hp; [| |done];
    rewrite (Hpass _ _ Hp); [|done].
  case_bool_decide; [done|]. apply IH. lia.
Qed.

Lemma until_stable_enough pass N :
  (∀ h, (total b h < N)%nat → ∃ res, pass h = Some res ∧ shrinks h res.2) →
  ∀ fuel h, (total b h < N)%nat → (total b h < fuel)%nat →
            ∃ res, until_stable fuel b pass h = Some res.
Proof.
  intros Hpass. induction fuel as [|fuel IH]; intros h HN Hfuel; [lia|]. simpl.
  destruct (Hpass h HN) as ([[[]|e] h1] & -> & Hsh); simpl in Hsh; [|by eexists].
  case_bool_decide as Hsame; [by eexists|].
  pose proof (shrinks_changed b _ _ Hsh Hsame). apply IH; lia.
Qed.

(** A loop that ends normally ends right after a pass that left the
    printed cells as they were. *)
Lemma until_stable_exit fuel pass h h' :
  until_stable fuel b pass h = Some (Ok tt, h') →
  ∃ h0, pass h0 = Some (Ok tt, h') ∧
        Board.str_cells_of b h0 = Board.str_cells_of b h'.
Proof.
  revert h. induction fuel as [|fuel IH]; intros h; simpl; [done|].
  destruct (pass h) as [[[[]|e] h1]|] eqn:Hp; [| |done]; [|done].
  case_bool_decide as Hsame.
  - intros [= <-]. by exists h.
  - apply IH.
Qed.
End until_stable.

Lemma basic_cycle_pres (R : relation Heap) `{!PreOrder R} fuel b :
  (∀ h, pres R (Board.simple_check b) h) →
  (∀ h, pres R (Board.group_check b) h) →
  ∀ h res, basic_cycle fuel b h = Some res → R h res.2.
Proof.
  intros Hs Hg h res. unfold basic_cycle.
  destruct (until_stable fuel b _ h) as [[[[]|e] h1]|] eqn:H1; [| |done].
  - intros H2. etrans.
    + eapply (until_stable_pres b R) in H1; [exact H1|].
      intros h0 res0 [= <-]. apply Hs.
    + eapply (until_stable_pres b R) in H2; [exact H2|].
      intros h0 res0 [= <-]. apply Hg.
  - intros [= <-]. eapply (until_stable_pres b R) in H1; [exact H1|].
    intros h0 res0 [= <-]. apply Hs.
Qed.

Lemma basic_checks_fuel_pres (R : relation Heap) `{!PreOrder R} fuel b :
  (∀ h, pres R (Board.simple_check b) h) →
  (∀ h, pres R (Board.group_check b) h) →
  ∀ h res, basic_checks_fuel fuel b h = Some res → R h res.2.
Proof.
  intros Hs Hg. apply (until_stable_pres b R). by apply basic_cycle_pres.
Qed.

Lemma basic_cycle_enough fuel b h :
  (total b h < fuel)%nat → ∃ res, basic_cycle fuel b h = Some res ∧ shrinks h res.2.
Proof.
  intros Hfuel. unfold basic_cycle.
  destruct (until_stable_enough b (λ h, Some (Board.simple_check b h)) fuel)
    with (fuel := fuel) (h := h) as [res1 H1]; [|done|done|].
  { intros h0 _. eexists. split; [done|]. apply pres_shrinks_simple_check. }
  assert (shrinks h res1.2) as Hsh1.
  { eapply (until_stable_pres b shrinks); [|exact H1].
    intros h0 res0 [= <-]. apply pres_shrinks_simple_check. }
  rewrite H1. destruct res1 as [[[]|e] h1]; [|by eexists].
  simpl in Hsh1. pose proof (shrinks_total b _ _ Hsh1).
  destruct (until_stable_enough b (λ h, Some (Board.group_check b h)) fuel)
    with (fuel := fuel) (h := h1) as [res2 H2]; [|lia|lia|].
  { intros h0 _. eexists. split; [done|]. apply pres_shrinks_group_check. }
  exists res2. split; [done|]. etrans; [exact Hsh1|].
  eapply (until_stable_pres b shrinks); [|exact H2].
  intros h0 res0 [= <-]. apply pres_shrinks_group_check.
Qed.

Lemma basic_cycle_mono fuel fuel' b h res :
  (fuel ≤ fuel')%nat →
  basic_cycle fuel b h = Some res → basic_cycle fuel' b h = Some res.
Proof.
  intros Hle. unfold basic_cycle.
  destruct (until_stable fuel b _ h) as [[[[]|e] h1]|] eqn:H1; [| |done].
  - eapply until_stable_mono in H1 as ->; [|done|done].
    by apply until_stable_mono.
  - eapply until_stable_mono in H1 as ->; done.
Qed.

(** The budget [S (total b h)] is enough, and a larger one gives the same
    result. *)
Lemma basic_checks_fuel_enough b h :
  ∃ res, ∀ fuel, (total b h < fuel)%nat → basic_checks_fuel fuel b h = Some res.
Proof.
  destruct (until_stable_enough b (basic_cycle (S (total b h)) b) (S (total b h)))
    with (fuel := S (total b h)) (h := h) as [res Hres]; [|lia|lia|].
  { intros h0 ?. by apply basic_cycle_enough. }
  exists res. intros fuel Hfuel. unfold basic_checks_fuel.
  eapply until_stable_mono; [| |exact Hres]; [lia|].
  intros h0 res0. apply basic_cycle_mono. lia.
Qed.

Lemma basic_checks_unfold b h :
  basic_checks_fuel (S (total b h)) b h = Some (basic_checks b h).
Proof.
  destruct (basic_checks_fuel_enough b h) as [res Hres].
  unfold basic_checks. by rewrite (Hres (S (total b h))) by lia.
Qed.

Lemma pres_basic_checks (R : relation Heap) `{!PreOrder R} b :
  (∀ h, pres R (Board.simple_check b) h) →
  (∀ h, pres R (Board.group_check b) h) →
  ∀ h, pres R (basic_checks b) h.
Proof.
  intros Hs Hg h. unfold pres.
  eapply (basic_checks_fuel_pres R); [done|done|apply basic_checks_unfold].
Qed.

(** ** Methods of a board only write to the cells the board refers to *)

#[local] Instance frame_preorder S : PreOrder (frame S).
Proof.
  split.
  - intros h. by split.
  - intros h1 h2 h3 [? H12] [? H23]. split; [congruence|].
    intros a Ha. by rewrite H23, H12.
Qed.

Lemma pres_frame_wr (S : loc → Prop) a f h : S a → pres (frame S) (wr a f) h.
Proof.
  intros Ha. split; [apply length_alter|]. intros a' Ha'. simpl.
  apply list_lookup_total_alter_ne. by intros ->.
Qed.

Lemma elem_of_concat {A} (x : A) (ls : list (list A)) :
  x ∈ concat ls ↔ ∃ l, x ∈ l ∧ l ∈ ls.
Proof.
  induction ls as [|l ls IH]; simpl.
  - split; [by intros ?%elem_of_nil | by intros (? & _ & ?%elem_of_nil)].
  - rewrite elem_of_app, IH. split.
    + intros [?|(l' & ? & ?)]; [exists l | exists l']; split; try done; by constructor.
    + intros (l' & ? & [->|?]%elem_of_cons); [by left | right; by exists l'].
Qed.

Lemma dict_get_values `{EqDecision K} {V} (d : list (K * V)) k v :
  Py.dict_get d k = Some v → v ∈ Py.values d.
Proof.
  unfold Py.values. induction d as [|[k' v'] d IH]; simpl; [done|].
  case_decide; [intros [= ->]; by left|]. intros ?. right. by apply IH.
Qed.

Lemma list_remove_elem `{EqDecision A} (v : A) l l' x :
  Py.list_remove v l = Some l' → x ∈ l' → x ∈ l.
Proof.
  intros [Hsub _]%list_remove_sublist Hx. by eapply elem_of_sublist.
Qed.

Lemma in_group_refs b (d : list (Z * list loc)) g a :
  d = Board.rows b ∨ d = Board.cols b ∨ d = Board.boxes b →
  g ∈ Py.values d → a ∈ g → a ∈ refs b.
Proof.
  intros Hd Hg Ha. unfold refs. rewrite !elem_of_app. do 2 right.
  apply elem_of_concat. exists g. split; [done|].
  rewrite !elem_of_app. destruct Hd as [-> | [-> | ->]]; auto.
Qed.

Lemma hits_refs b cell h hs :
  (Board.hits b cell h).1 = Ok hs → ∀ a, a ∈ hs → a ∈ refs b.
Proof.
  unfold Board.hits, bind, rd, gets, or_raise; simpl.
  destruct (Obj.r (h !!! cell) ≫= _) as [in_row|] eqn:Hr; simpl; [|done].
  destruct (Obj.c (h !!! cell) ≫= _) as [in_col|] eqn:Hc; simpl; [|done].
  destruct (Obj.box (h !!! cell) ≫= _) as [in_box|] eqn:Hb; simpl; [|done].
  destruct (Py.list_remove cell _) as [hs'|] eqn:Hrm; simpl; [|done].
  intros [= <-] a Ha. eapply list_remove_elem in Ha; [|done].
  unfold Py.list_set in Ha. rewrite elem_of_remove_dups, !elem_of_app in Ha.
  apply bind_Some in Hr as (? & _ & Hr%dict_get_values).
  apply bind_Some in Hc as (? & _ & Hc%dict_get_values).
  apply bind_Some in Hb as (? & _ & Hb%dict_get_values).
  destruct Ha as [Ha|[Ha|Ha]].
  - eapply in_group_refs; [left; reflexivity | exact Hr | exact Ha].
  - eapply in_group_refs; [right; left; reflexivity | exact Hc | exact Ha].
  - eapply in_group_refs; [right; right; reflexivity | exact Hb | exact Ha].
Qed.

Lemma pres_frame_remove (S : loc → Prop) self val h :
  S self → pres (frame S) (Cell.remove self val) h.
Proof.
  intros HS. unfold Cell.remove. repeat pres_step. by apply pres_frame_wr.
Qed.

Lemma pres_frame_simple_check b h :
  pres (frame (.∈ refs b)) (Board.simple_check b) h.
Proof.
  unfold Board.simple_check. pres_step.
  { unfold Board.filled_cells. pres_step. }
  match goal with H : _ = Ok ?l |- _ => rename H into Hfilled; rename l into filled end.
  injection Hfilled as <-. simpl.
  apply (pres_for_each (frame (.∈ refs b))). intros cell Hcell h'.
  apply list_elem_of_filter in Hcell as [_ Hcell]. unfold Board.propagate.
  pres_step; [pres_step|]. pres_step; [|pres_step].
  pres_step; [pres_step|].
  match goal with H : _ = Ok ?l |- _ => rename H into Hhits; rename l into hs end.
  pres_step.
  - apply (pres_for_each (frame (.∈ refs b))). intros hit Hhit h''.
    unfold Board.remove_value. repeat pres_step.
    apply pres_frame_remove. eapply hits_refs; eauto.
  - apply pres_frame_wr. unfold refs. rewrite elem_of_app. by left.
Qed.

Lemma pres_frame_unique_candidate (S : loc → Prop) group n h :
  (∀ a, a ∈ group → S a) → pres (frame S) (Board.unique_candidate group n) h.
Proof.
  intros HS. unfold Board.unique_candidate. pres_step; [pres_step|].
  match goal with H : _ = Ok ?l |- _ => rename H into Hx; rename l into x end.
  injection Hx as <-. simpl. pres_step; [|pres_step].
  pres_step; [pres_step|].
  match goal with H : _ = Ok ?l |- _ => rename H into Hx0; rename l into x0 end.
  apply pres_frame_wr, HS.
  unfold or_raise in Hx0. destruct (filter _ group !! 0%nat) eqn:E; [|done].
  injection Hx0 as ->. by apply filter_singleton_elem in E as [_ ?].
Qed.

Lemma elem_of_prod {A B} (xs : list A) (ys : list B) x y :
  (x, y) ∈ Py.prod xs ys ↔ x ∈ xs ∧ y ∈ ys.
Proof.
  unfold Py.prod. rewrite list_elem_of_bind. split.
  - intros (x' & Hy & Hx). apply list_elem_of_fmap in Hy as (y' & [= -> ->] & Hy). done.
  - intros [Hx Hy]. exists x. split; [|done]. apply list_elem_of_fmap. by exists y.
Qed.

Lemma pres_frame_group_check b h :
  pres (frame (.∈ refs b)) (Board.group_check b) h.
Proof.
  unfold Board.group_check.
  apply (pres_for_each (frame (.∈ refs b))). intros lis Hlis h'.
  apply (pres_for_each (frame (.∈ refs b))). intros [group n] Hgn h''.
  apply elem_of_prod in Hgn as [Hg _].
  apply pres_frame_unique_candidate. intros a Ha.
  eapply in_group_refs; [|exact Hg|exact Ha].
  rewrite !elem_of_cons, elem_of_nil in Hlis. destruct Hlis as [?|[?|[?|[]]]]; auto.
Qed.

Lemma pres_frame_basic_checks b h :
  pres (frame (.∈ refs b)) (basic_checks b) h.
Proof.
  apply (pres_basic_checks (frame (.∈ refs b)));
    [apply pres_frame_simple_check | apply pres_frame_group_check].
Qed.

Lemma df_at_elem df key a : Board.df_at df key = Some a → a ∈ concat df.
Proof.
  unfold Board.df_at. case_bool_decide; [|done].
  intros (row & Hrow & Ha)%bind_Some.
  apply elem_of_concat. exists row.
  split; by eapply list_elem_of_lookup_2.
Qed.

Lemma getitem_refs b key h a : (Board.getitem b key h).1 = Ok a → a ∈ refs b.
Proof.
  unfold Board.getitem, or_raise. destruct (Board.df_at _ _) eqn:E; [|done].
  intros [= <-]. apply df_at_elem in E. unfold refs. rewrite !elem_of_app. auto.
Qed.

Lemma read_only_getitem b key : read_only (Board.getitem b key).
Proof. intros h. unfold Board.getitem, or_raise. by destruct (Board.df_at _ _). Qed.

Lemma pres_frame_setitem b key value h :
  pres (frame (.∈ refs b)) (Board.setitem b key value) h.
Proof.
  unfold Board.setitem. pres_step.
  { apply (read_only_pres _), read_only_getitem. }
  apply pres_frame_wr. by eapply getitem_refs.
Qed.

Lemma map_m_read_only {X Y} (f : X → M Y) xs :
  (∀ x, read_only (f x)) → read_only (map_m f xs).
Proof.
  intros Hf. induction xs as [|x xs IH]; intros h; [done|]. simpl.
  unfold bind. specialize (Hf x h). destruct (f x h) as [[y|e] h1]; simpl in *; subst; [|done].
  specialize (IH h). by destruct (map_m f xs h) as [[ys|e] h2]; simpl in *; subst.
Qed.

Lemma map_m_elem {X Y} (f : X → M Y) (P : Y → Prop) xs :
  (∀ x h y, (f x h).1 = Ok y → P y) →
  ∀ h ys, (map_m f xs h).1 = Ok ys → Forall P ys.
Proof.
  intros Hf. induction xs as [|x xs IH]; intros h ys; simpl.
  - intros [= <-]. constructor.
  - unfold bind. destruct (f x h) as [[y|e] h1] eqn:E; simpl; [|done].
    destruct (map_m f xs h1) as [[ys'|e] h2] eqn:E'; simpl; [|done].
    intros [= <-]. constructor.
    + eapply Hf. by rewrite E.
    + eapply IH. by rewrite E'.
Qed.

Lemma pres_frame_setup b text h :
  pres (frame (.∈ refs b)) (Board.setup b text) h.
Proof.
  unfold Board.setup. pres_step.
  { apply (read_only_pres _), map_m_read_only, read_only_getitem. }
  match goal with H : _ = Ok ?l |- _ => rename H into Ht; rename l into targets end.
  eapply map_m_elem in Ht; [|intros ????; by eapply getitem_refs].
  apply (pres_for_each (frame (.∈ refs b))). intros [fill cell] Hin h'.
  apply elem_of_zip_r in Hin. rewrite Forall_forall in Ht.
  unfold Board.fill_cell. repeat pres_step.
  apply pres_frame_wr. by apply Ht.
Qed.

(** ** [Board()] on any heap is [Board()] on the empty heap, relocated *)

Section sim.
Context (n : nat).

Lemma sim_ret {A B} (g : A → B) a l : sim_at n g (ret (g a)) (ret a) l.
Proof. by intros h _. Qed.

Lemma sim_bind {A B A' B'} (g : A → A') (g' : B → B') m m0 k k0 l :
  sim_at n g m m0 l →
  (∀ a l', m0 l = (Ok a, l') → sim_at n g' (k (g a)) (k0 a) l') →
  sim_at n g' (bind m k) (bind m0 k0) l.
Proof.
  intros Hm Hk h Hh. unfold bind. rewrite (Hm h Hh).
  destruct (m0 l) as [[a|e] l'] eqn:E; simpl; [|done].
  by apply Hk.
Qed.

Lemma sim_or_raise {A B} (g : A → B) e (o : option A) l :
  sim_at n g (or_raise e (g <$> o)) (or_raise e o) l.
Proof. intros h _. by destruct o. Qed.

Lemma sim_or_raise_id {A} e (o : option A) l :
  sim_at n id (or_raise e o) (or_raise e o) l.
Proof. intros h _. by destruct o. Qed.

Lemma sim_wr a f l : sim_at n id (wr (n + a) f) (wr a f) l.
Proof. intros h <-. unfold wr; simpl. by rewrite alter_app_r. Qed.

Lemma lookup_total_shift (h l : Heap) a : length h = n → (h ++ l) !!! (n + a)%nat = l !!! a.
Proof.
  intros <-. rewrite lookup_total_app_r by lia. f_equal. lia.
Qed.

Lemma sim_rd a l : sim_at n id (rd (n + a)) (rd a) l.
Proof. intros h Hh. unfold rd, gets; simpl. by rewrite lookup_total_shift. Qed.

Lemma sim_gets {A B} (g : A → B) (f : Heap → B) (f0 : Heap → A) l :
  (∀ h, length h = n → f (h ++ l) = g (f0 l)) →
  sim_at n g (gets f) (gets f0) l.
Proof. intros Hf h Hh. unfold gets; simpl. by rewrite Hf. Qed.

Lemma sim_alloc l : sim_at n (Nat.add n) Cell.init Cell.init l.
Proof.
  intros h <-. unfold Cell.init; simpl.
  by rewrite length_app, <-(assoc_L (++)).
Qed.

Lemma sim_for_each {X} (xs : list X) (body body0 : X → M unit) :
  (∀ x, x ∈ xs → ∀ l, sim_at n id (body x) (body0 x) l) →
  ∀ l, sim_at n id (for_each xs body) (for_each xs body0) l.
Proof.
  induction xs as [|x xs IH]; intros Hbody l; simpl.
  - apply (sim_ret id).
  - eapply sim_bind; [apply Hbody; by left|].
    intros _ l' _. apply IH. intros y Hy. apply Hbody. by right.
Qed.

Lemma sim_map_m {X A B} (g : A → B) (xs : list X) (f : X → M B) (f0 : X → M A) :
  (∀ x l, sim_at n g (f x) (f0 x) l) →
  ∀ l, sim_at n (fmap g) (map_m f xs) (map_m f0 xs) l.
Proof.
  intros Hf. induction xs as [|x xs IH]; intros l; simpl.
  - by intros h _.
  - eapply sim_bind; [apply Hf|]. intros y l1 _.
    eapply sim_bind; [apply IH|]. intros ys l2 _.
    by intros h _.
Qed.
End sim.

Lemma data_frame_shift (n : nat) (columns : list (list loc)) :
  Forall (λ col, length col = 9%nat) columns →
  Board.data_frame (shift_rows n columns) = shift_rows n (Board.data_frame columns).
Proof.
  intros Hlen. unfold Board.data_frame.
  rewrite <-list_fmap_compose. apply Forall_fmap_ext, Forall_forall.
  intros i Hi%elem_of_seq. simpl.
  rewrite <-!list_fmap_compose. apply Forall_fmap_ext.
  eapply Forall_impl; [exact Hlen|]. intros col Hcol. simpl.
  apply list_lookup_total_fmap. simpl in Hcol. lia.
Qed.

Lemma df_at_shift (n : nat) df key :
  Board.df_at (shift_rows n df) key = Nat.add n <$> Board.df_at df key.
Proof.
  unfold Board.df_at. case_bool_decide; [|done].
  rewrite list_lookup_fmap. destruct (df !! _) as [row|]; simpl; [|done].
  by rewrite list_lookup_fmap.
Qed.

Lemma filter_shift (n : nat) (P : Obj.t → Prop) `{∀ x, Decision (P x)} (h l : Heap) xs :
  length h = n →
  filter (λ a, P ((h ++ l) !!! a)) (shift n xs) =
  shift n (filter (λ a, P (l !!! a)) xs).
Proof.
  intros Hh. induction xs as [|x xs IH]; [done|].
  rewrite fmap_cons, !filter_cons, (lookup_total_shift n) by done.
  case_decide; by rewrite ?fmap_cons, IH.
Qed.

Lemma sim_group_by n attr cells l :
  sim_at n (shift_groups n) (Board.group_by attr (shift n cells))
         (Board.group_by attr cells) l.
Proof.
  apply sim_gets. intros h Hh. unfold shift_groups.
  rewrite <-list_fmap_compose. apply list_fmap_ext. intros _ k _. simpl.
  f_equal. exact (filter_shift n (λ x, attr x = Some k) h l cells Hh).
Qed.

Lemma alloc_column_length (ys : list Z) h col :
  (map_m (λ _ : Z, Cell.init) ys h).1 = Ok col → length col = length ys.
Proof.
  revert h col. induction ys as [|y ys IH]; intros h col; simpl.
  - by intros [= <-].
  - unfold bind; simpl.
    destruct (map_m _ ys _) as [[col'|e] h'] eqn:E; simpl; [|done].
    intros [= <-]. simpl. f_equal. eapply IH. by rewrite E.
Qed.

Lemma init_sim n l : sim_at n (shift_board n) Board.init Board.init l.
Proof.
  unfold Board.init.
  eapply sim_bind.
  { apply (sim_map_m n (shift n)). intros _ l'.
    apply (sim_map_m n (Nat.add n)). intros _ l''. apply sim_alloc. }
  intros columns l1 Hcol.
  assert (Forall (λ col, length col = 9%nat) columns) as Hlen.
  { eapply (map_m_elem _ (λ col, length col = 9%nat)); [|by rewrite Hcol].
    intros ? h col Hc. by apply alloc_column_length in Hc. }
  rewrite (data_frame_shift n) by done.
  set (df := Board.data_frame columns).
  replace (concat (shift_rows n df)) with (shift n (concat df))
    by (induction df; simpl; [done|]; by rewrite fmap_app; f_equal).
  eapply (sim_bind n id).
  { apply sim_for_each. intros key _ l'. rewrite df_at_shift.
    eapply sim_bind; [apply sim_or_raise|]. intros cell l2 _.
    eapply sim_bind; [apply sim_wr|]. intros _ l3 _.
    eapply sim_bind; [apply sim_wr|]. intros _ l4 _.
    eapply sim_bind; [apply sim_rd|]. intros x l5 _.
    eapply (sim_bind n id); [apply sim_or_raise_id|]. intros r l6 _.
    eapply (sim_bind n id); [apply sim_or_raise_id|]. intros c l7 _.
    eapply (sim_bind n id); [apply sim_or_raise_id|]. intros bx l8 _.
    apply sim_wr. }
  intros _ l2 _.
  eapply sim_bind; [apply sim_group_by|]. intros rows l3 _.
  eapply sim_bind; [apply sim_group_by|]. intros cols l4 _.
  eapply sim_bind; [apply sim_group_by|]. intros boxes l5 _.
  apply (sim_ret n (shift_board n) (Board.mk df (concat df) rows cols boxes)).
Qed.

Lemma init_nil : Board.init [] = (Ok board0, cells0).
Proof. by vm_compute. Qed.

(** [Board()] never fails; it appends 81 fresh cells to the heap and
    returns the board that refers to them. *)
Lemma init_spec h :
  Board.init h = (Ok (shift_board (length h) board0), h ++ cells0).
Proof.
  pose proof (init_sim (length h) [] h eq_refl) as H.
  rewrite app_nil_r, init_nil in H. done.
Qed.

(** ** A trial leaves the objects that existed before it alone *)

#[local] Instance kept_preorder n : PreOrder (kept n).
Proof.
  split.
  - intros h ?. by split.
  - intros h1 h2 h3 H12 H23 Hn. destruct (H12 Hn) as [Hn2 E12].
    destruct (H23 Hn2) as [Hn3 E23]. split; [done|].
    intros a Ha. by rewrite E23, E12.
Qed.

Lemma frame_kept n (S : loc → Prop) h h' :
  (∀ a, S a → (n ≤ a)%nat) → frame S h h' → kept n h h'.
Proof.
  intros HS [Hlen Hfr] Hn. split; [lia|]. intros a Ha. apply Hfr.
  intros Ha'%HS. lia.
Qed.

Lemma pres_kept_frame n (S : loc → Prop) {A} (m : M A) h :
  (∀ a, S a → (n ≤ a)%nat) → pres (frame S) m h → pres (kept n) m h.
Proof. intros HS. by apply frame_kept. Qed.

Lemma pres_kept_init n h : pres (kept n) Board.init h.
Proof.
  unfold pres. rewrite init_spec. simpl. intros Hn. split.
  - rewrite length_app. lia.
  - intros a Ha. apply lookup_total_app_l. lia.
Qed.

Lemma concat_shift n (ls : list (list loc)) :
  concat (shift_rows n ls) = shift n (concat ls).
Proof. induction ls as [|l ls IH]; csimpl; [done|]. by rewrite fmap_app, IH. Qed.

Lemma values_shift_groups n d :
  Py.values (shift_groups n d) = shift_rows n (Py.values d).
Proof.
  unfold Py.values, shift_groups. rewrite <-!list_fmap_compose.
  by apply list_fmap_ext.
Qed.

Lemma refs_shift_board n b : refs (shift_board n b) = shift n (refs b).
Proof.
  unfold refs, shift_board; simpl.
  by rewrite !values_shift_groups, <-!fmap_app, !concat_shift, <-!fmap_app.
Qed.

Lemma refs_shift_board_ge n b a : a ∈ refs (shift_board n b) → (n ≤ a)%nat.
Proof.
  rewrite refs_shift_board. intros (k & -> & _)%list_elem_of_fmap. lia.
Qed.

(** The [try] block of a trial only appends to the heap. *)
Lemma pres_kept_scratch board h : pres (kept (length h)) (scratch board) h.
Proof.
  unfold scratch. pres_step; [apply pres_kept_init|].
  match goal with H : _ = Ok ?x |- _ => rename H into Hnew; rename x into new end.
  rewrite init_spec in Hnew. injection Hnew as <-.
  pres_step; [unfold Board.setup_string; pres_step|].
  pres_step.
  { eapply pres_kept_frame; [apply refs_shift_board_ge | apply pres_frame_setup]. }
  pres_step; [|pres_step].
  eapply pres_kept_frame; [apply refs_shift_board_ge | apply pres_frame_basic_checks].
Qed.

Lemma scratch_new board h new :
  (scratch board h).1 = Ok new → new = shift_board (length h) board0.
Proof.
  unfold scratch, bind. rewrite init_spec.
  destruct (Board.setup_string board _) as [[text|e] h1]; [|done].
  destruct (Board.setup _ text h1) as [[[]|e] h2]; [|done].
  destruct (basic_checks _ h2) as [[[]|e] h3]; [|done].
  by intros [= <-].
Qed.

Lemma pres_kept_trial_body board cell h :
  pres (kept (length h)) (trial_body board cell) h.
Proof.
  unfold trial_body. pres_step; [apply pres_kept_scratch|].
  match goal with H : _ = Ok ?x |- _ => rename H into Hnew; rename x into new end.
  apply scratch_new in Hnew as ->.
  do 4 (pres_step; [pres_step|]).
  pres_step.
  { eapply pres_kept_frame; [apply refs_shift_board_ge | apply pres_frame_setitem]. }
  eapply pres_kept_frame; [apply refs_shift_board_ge | apply pres_frame_basic_checks].
Qed.

Lemma trial_body_kept board cell h a :
  (a < length h)%nat → (trial_body board cell h).2 !!! a = h !!! a.
Proof.
  intros Ha. destruct (pres_kept_trial_body board cell h) as [_ H]; [done|].
  by apply H.
Qed.

Lemma trial_body_length board cell h :
  (length h ≤ length (trial_body board cell h).2)%nat.
Proof. by destruct (pres_kept_trial_body board cell h) as [? _]. Qed.

(** ** Example runs *)

(** ** The disambiguator *)

(** C2, as stated in the specification, fails: an empty candidate set is
    not by itself the contradiction signal.  On [puzzle_silent] the first
    disambiguation pass visits the cells (1,2), (2,2), (2,3), (8,1), (9,1);
    its first two trials return normally.  The third is on cell (2,3), with
    candidates 6 and 7.  When 6 is about to be assigned, the scratch cells
    (7,1) and (3,2) hold [1,2,7] and [2,5,9]; the fixpoint that follows
    leaves both of them empty and returns normally, so the trial ends without
    an exception and the cell of the real grid keeps both candidates: the
    second one is not assigned. *)
Lemma C2_counterexample :
  filter (λ cell, length (Obj.cell (silent_start !!! cell)) = 2%nat) (Board.cells board0)
    = [9; 10; 19; 7; 8]%nat ∧
  silent_prefix.1 = Ok tt ∧
  Obj.cell (silent_state !!! 19%nat) = [6; 7] ∧
  Obj.cell (silent_scratch !!! 249%nat) = [1; 2; 7] ∧
  Obj.cell (silent_scratch !!! 254%nat) = [2; 5; 9] ∧
  silent_trial.1 = Ok tt ∧
  Obj.cell (silent_trial.2 !!! 249%nat) = [] ∧
  Obj.cell (silent_trial.2 !!! 254%nat) = [] ∧
  (trial board0 19 silent_state).1 = Ok tt ∧
  Obj.cell ((trial board0 19 silent_state).2 !!! 19%nat) = [6; 7].
Proof.
  assert (filter (λ cell, length (Obj.cell (silent_start !!! cell)) = 2%nat)
                 (Board.cells board0) = [9; 10; 19; 7; 8]%nat ∧
          silent_prefix.1 = Ok tt ∧
          Obj.cell (silent_state !!! 19%nat) = [6; 7] ∧
          Obj.cell (silent_scratch !!! 249%nat) = [1; 2; 7] ∧
          Obj.cell (silent_scratch !!! 254%nat) = [2; 5; 9] ∧
          silent_trial.1 = Ok tt ∧
          Obj.cell (silent_trial.2 !!! 249%nat) = [] ∧
          Obj.cell (silent_trial.2 !!! 254%nat) = []) as Hrun
    by (vm_compute; repeat split).
  destruct Hrun as (H1 & H2 & H3 & H4 & H5 & H6 & H7 & H8).
  assert (19 < length silent_state)%nat as Hlt.
  { destruct (decide (19 < length silent_state)%nat) as [Hlt|Hge]; [exact Hlt|].
    exfalso. clear -H3 Hge.
    rewrite list_lookup_total_alt, lookup_ge_None_2 in H3 by lia.
    discriminate H3. }
  pose proof (trial_body_kept board0 19 silent_state 19 Hlt) as Hkept.
  assert (trial board0 19 silent_state = silent_trial) as Htrial.
  { unfold trial, try_except. change (trial_body board0 19 silent_state) with silent_trial.
    clear -H6. destruct silent_trial as [o hb]. cbn [fst] in H6. by rewrite H6. }
  assert (Obj.cell ((trial board0 19 silent_state).2 !!! 19%nat) = [6; 7]) as H10.
  { rewrite Htrial. change silent_trial with (trial_body board0 19 silent_state).
    rewrite Hkept. exact H3. }
  assert ((trial board0 19 silent_state).1 = Ok tt) as H9.
  { rewrite Htrial. exact H6. }
  exact (conj H1 (conj H2 (conj H3 (conj H4 (conj H5 (conj H6 (conj H7
           (conj H8 (conj H9 H10))))))))).
Qed.

(** C2, amended: a trial on a cell with two candidates assigns the second
    candidate exactly when its [try] block raises [IndexError].  In that case
    the trial ends normally, the cell of the real grid holds exactly its
    second candidate, every other object that existed before the trial is
    unchanged, and the handler does not write to the scratch board.  In every
    other case, whatever has become of the candidates of the scratch cells,
    the trial ends as its [try] block did and no object that existed before
    it has changed, so the cell keeps both candidates. *)
Theorem C2_contradiction_assigns_second board cell h v0 v1 :
  (cell < length h)%nat →
  Obj.cell (h !!! cell) = [v0; v1] →
  ((trial_body board cell h).1 = Raise Py.IndexError →
   (trial board cell h).1 = Ok tt ∧
   Obj.cell ((trial board cell h).2 !!! cell) = [v1] ∧
   (∀ a, (a < length h)%nat → a ≠ cell →
         (trial board cell h).2 !!! a = h !!! a) ∧
   (∀ a, (length h ≤ a)%nat →
         (trial board cell h).2 !!! a = (trial_body board cell h).2 !!! a)) ∧
  ((trial_body board cell h).1 ≠ Raise Py.IndexError →
   trial board cell h = trial_body board cell h ∧
   Obj.cell ((trial board cell h).2 !!! cell) = [v0; v1] ∧
   (∀ a, (a < length h)%nat → (trial board cell h).2 !!! a = h !!! a)).
Proof.
  intros Hcell Hcands.
  pose proof (trial_body_kept board cell h) as Hkept.
  pose proof (trial_body_length board cell h) as Hlen.
  unfold trial, try_except.
  destruct (trial_body board cell h) as [o hb]. simpl in *. split.
  - intros ->. rewrite decide_True by done.
    unfold trial_handler, Cell.item, bind, rd, gets, or_raise, wr; simpl.
    rewrite (Hkept cell Hcell), Hcands. simpl. repeat split.
    + rewrite list_lookup_total_alter_eq by lia. done.
    + intros a Ha Hne. rewrite list_lookup_total_alter_ne by done. by apply Hkept.
    + intros a Ha. apply list_lookup_total_alter_ne. lia.
  - intros Ho.
    assert (match o with
            | Ok a => (Ok a, hb)
            | Raise e' =>
                if decide (e' = Py.IndexError) then trial_handler cell hb
                else (@Raise unit e', hb)
            end = (o, hb)) as ->.
    { destruct o as [[]|e']; [done|]. rewrite decide_False; [done|]. by intros ->. }
    simpl. split; [done|]. split; [|exact Hkept].
    by rewrite (Hkept cell Hcell).
Qed.

Lemma C2_contradiction_assigns_second_witness :
  (27 < length (propagated puzzle_guess))%nat ∧
  Obj.cell (propagated puzzle_guess !!! 27%nat) = [4; 8] ∧
  (trial_body board0 27 (propagated puzzle_guess)).1 = Raise Py.IndexError ∧
  (trial board0 27 (propagated puzzle_guess)).1 = Ok tt ∧
  Obj.cell ((trial board0 27 (propagated puzzle_guess)).2 !!! 27%nat) = [8].
Proof.
  assert (27 < length (propagated puzzle_guess))%nat as H1
    by (vm_compute; lia).
  assert (Obj.cell (propagated puzzle_guess !!! 27%nat) = [4; 8]) as H2
    by (vm_compute; reflexivity).
  assert ((trial_body board0 27 (propagated puzzle_guess)).1 = Raise Py.IndexError) as H3
    by (vm_compute; reflexivity).
  destruct (C2_contradiction_assigns_second board0 27 _ 4 8 H1 H2) as [Hraise _].
  destruct (Hraise H3) as (H4 & H5 & _).
  exact (conj H1 (conj H2 (conj H3 (conj H4 H5)))).
Defined.

(** C6: when the [try] block of a trial completes without raising, the
    trial changes no object that existed before it; in particular every
    cell of the real grid is as it was. *)
Theorem C6_inconclusive_trial_changes_nothing board cell h :
  Forall (λ a, (a < length h)%nat) (Board.cells board) →
  (trial_body board cell h).1 = Ok tt →
  (trial board cell h).1 = Ok tt ∧
  (∀ a, (a < length h)%nat → (trial board cell h).2 !!! a = h !!! a) ∧
  Board.str_cells_of board (trial board cell h).2 = Board.str_cells_of board h.
Proof.
  intros Hcells Hok.
  pose proof (trial_body_kept board cell h) as Hkept.
  unfold trial, try_except.
  destruct (trial_body board cell h) as [o hb]. simpl in *. subst o.
  split; [done|]. split; [done|].
  unfold Board.str_cells_of. apply Forall_fmap_ext.
  eapply Forall_impl; [exact Hcells|]. intros a Ha. simpl. by rewrite Hkept.
Qed.

Lemma C6_inconclusive_trial_changes_nothing_witness :
  Forall (λ a, (a < length (propagated puzzle_stuck))%nat) (Board.cells board0) ∧
  (trial_body board0 61 (propagated puzzle_stuck)).1 = Ok tt ∧
  Board.str_cells_of board0 (trial board0 61 (propagated puzzle_stuck)).2 =
  Board.str_cells_of board0 (propagated puzzle_stuck).
Proof.
  assert (Forall (λ a, (a < length (propagated puzzle_stuck))%nat) (Board.cells board0)) as H1.
  { apply Forall_forall. intros a Ha.
    replace (length (propagated puzzle_stuck)) with 81%nat by (vm_compute; reflexivity).
    revert a Ha. apply Forall_forall. vm_compute. repeat constructor. }
  assert ((trial_body board0 61 (propagated puzzle_stuck)).1 = Ok tt) as H2
    by (vm_compute; reflexivity).
  destruct (C6_inconclusive_trial_changes_nothing board0 61 _ H1 H2) as (_ & _ & H3).
  exact (conj H1 (conj H2 H3)).
Defined.

(** ** The two passes *)

#[local] Instance assigns_preorder : PreOrder assigns.
Proof.
  split.
  - intros h a. by left.
  - intros h1 h2 h3 H12 H23 a.
    destruct (H12 a) as [E12|(n & Hn & E12)], (H23 a) as [E23|(m & Hm & E23)];
      rewrite E23, E12 in *.
    + by left.
    + right. by exists m.
    + right. by exists n.
    + right. exists n. split; [done|]. simpl in Hm.
      apply list_elem_of_singleton in Hm as ->. done.
Qed.

Lemma pres_assigns_unique_candidate group n h :
  pres assigns (Board.unique_candidate group n) h.
Proof.
  unfold pres, Board.unique_candidate, bind, gets, or_raise, wr; simpl.
  case_bool_decide; simpl; [|reflexivity].
  destruct (filter _ group !! 0%nat) as [x0|] eqn:Hx0; simpl; [|reflexivity].
  apply filter_singleton_elem in Hx0 as [Hn _].
  intros a. rewrite list_lookup_total_alter. case_decide as Ha; [|by left].
  destruct Ha as [<- _]. right. by exists n.
Qed.

(** C8: a single elimination pass and a single unique-candidate pass never
    increase the number of candidates summed over the cells of the board,
    whether the pass returns or raises; and the unique-candidate pass leaves
    every cell either as it was or with its candidate list replaced by a
    one-element list whose member was in the list before. *)
Theorem C8_passes_never_add_candidates b h :
  (total b (Board.simple_check b h).2 ≤ total b h)%nat ∧
  (total b (Board.group_check b h).2 ≤ total b h)%nat ∧
  (∀ a, (Board.group_check b h).2 !!! a = h !!! a ∨
        ∃ n, n ∈ Obj.cell (h !!! a) ∧
             (Board.group_check b h).2 !!! a = Obj.set_cell [n] (h !!! a)).
Proof.
  split; [|split].
  - apply shrinks_total, pres_shrinks_simple_check.
  - apply shrinks_total, pres_shrinks_group_check.
  - apply (pres_group_check assigns), pres_assigns_unique_candidate.
Qed.

(** ** The combined fixpoint *)

(** C7: [basic_checks] terminates on every board and heap: there is one
    result that every iteration budget above the candidate count yields,
    and it is the result of [basic_checks]; each pass leaves every candidate
    list a sublist of what it was, so the candidate count never grows; and a
    normal exit happens right after a full cycle that changed no printed
    cell. *)
Theorem C7_basic_checks_terminates b h :
  ∃ res,
    (∀ fuel, (total b h < fuel)%nat → basic_checks_fuel fuel b h = Some res) ∧
    basic_checks b h = res ∧
    (∀ h0, shrinks h0 (Board.simple_check b h0).2) ∧
    (∀ h0, shrinks h0 (Board.group_check b h0).2) ∧
    shrinks h res.2 ∧
    (total b res.2 ≤ total b h)%nat ∧
    (res.1 = Ok tt →
     ∃ h0, basic_cycle (S (total b h)) b h0 = Some (Ok tt, res.2) ∧
           Board.str_cells_of b h0 = Board.str_cells_of b res.2).
Proof.
  destruct (basic_checks_fuel_enough b h) as [res Hres].
  assert (basic_checks b h = res) as Hb.
  { pose proof (basic_checks_unfold b h) as Hu.
    rewrite (Hres (S (total b h))) in Hu by lia. by injection Hu. }
  assert (shrinks h res.2) as Hsh.
  { rewrite <-Hb. apply (pres_basic_checks shrinks);
      [apply pres_shrinks_simple_check | apply pres_shrinks_group_check]. }
  exists res. split_and!; try done.
  - intros h0. apply pres_shrinks_simple_check.
  - intros h0. apply pres_shrinks_group_check.
  - by apply shrinks_total.
  - intros Hok. destruct res as [[[]|?] h']; [|done]. simpl.
    eapply until_stable_exit. apply Hres. lia.
Qed.

(** *** Idempotence *)

Lemma fmap_eq_elem {A B} (f g : A → B) (l : list A) x :
  f <$> l = g <$> l → x ∈ l → f x = g x.
Proof.
  induction l as [|y l IH]; [by intros _ ?%elem_of_nil|].
  rewrite !fmap_cons. intros [= Hy Hl] [->|Hx]%elem_of_cons; auto.
Qed.

Lemma str_cells_eq_elem b h h' a :
  Board.str_cells_of b h = Board.str_cells_of b h' → a ∈ Board.cells b →
  Obj.cell (h !!! a) = Obj.cell (h' !!! a).
Proof.
  intros Heq Ha. unfold Board.str_cells_of in Heq.
  apply (fmap_eq_elem _ _ _ a) in Heq; [|done]. by injection Heq.
Qed.

Lemma for_each_skip {X} (xs : list X) body h :
  (∀ x, x ∈ xs → body x h = (Ok tt, h)) → for_each xs body h = (Ok tt, h).
Proof.
  induction xs as [|x xs IH]; intros Hbody; simpl; [done|].
  unfold bind. rewrite Hbody by (by left). apply IH.
  intros y Hy. apply Hbody. by right.
Qed.

(** With every solved cell already propagated the elimination pass does
    nothing at all. *)
Lemma simple_check_noop b h :
  (∀ cell, cell ∈ Board.cells b → Cell.filled_of (h !!! cell) = true →
           Obj.unchecked (h !!! cell) = false) →
  Board.simple_check b h = (Ok tt, h).
Proof.
  intros Hchecked. unfold Board.simple_check, Board.filled_cells, bind at 1, gets; simpl.
  apply for_each_skip. intros cell [Hf Hc]%list_elem_of_filter.
  unfold Board.propagate, bind, rd, gets; simpl. rewrite Hchecked; [done|done|].
  by destruct (Cell.filled_of (h !!! cell)).
Qed.

Lemma for_each_checked xs (body : loc → M unit) :
  (∀ y h, shrinks h (body y h).2) →
  (∀ x h h', (x < length h)%nat → body x h = (Ok tt, h') →
             Obj.unchecked (h' !!! x) = false) →
  ∀ h h', for_each xs body h = (Ok tt, h') →
  ∀ x, x ∈ xs → (x < length h)%nat → Obj.unchecked (h' !!! x) = false.
Proof.
  intros Hsh Hbody. induction xs as [|y xs IH]; intros h h' Hrun x Hx Hlt.
  { by apply elem_of_nil in Hx. }
  simpl in Hrun. unfold bind in Hrun.
  destruct (body y h) as [[[]|e] h1] eqn:E; [|done].
  pose proof (Hsh y h) as [Hlen1 _]. rewrite E in Hlen1. simpl in Hlen1.
  apply elem_of_cons in Hx as [->|Hx].
  - pose proof (Hbody y h h1 Hlt E) as Hy.
    assert (shrinks h1 h') as [_ Hle].
    { pose proof (pres_for_each shrinks xs body (λ z _ h0, Hsh z h0) h1) as Hp.
      unfold pres in Hp. by rewrite Hrun in Hp. }
    by apply (Hle y).
  - eapply IH; [exact Hrun|done|lia].
Qed.

(** After an elimination pass that returned, every cell that was solved
    when the pass began is marked as propagated. *)
Lemma simple_check_checked b h h' :
  Board.simple_check b h = (Ok tt, h') →
  ∀ cell, cell ∈ Board.cells b → Cell.filled_of (h !!! cell) = true →
          Obj.unchecked (h' !!! cell) = false.
Proof.
  unfold Board.simple_check, Board.filled_cells, bind at 1, gets; simpl.
  intros Hrun cell Hcell Hfilled.
  assert (cell < length h)%nat as Hlt.
  { destruct (decide (cell < length h)%nat) as [|Hge]; [done|].
    rewrite list_lookup_total_alt, lookup_ge_None_2 in Hfilled by lia. done. }
  assert (cell ∈ filter (λ cell, Cell.filled_of (h !!! cell)) (Board.cells b)) as Hin.
  { apply list_elem_of_filter. split; [by rewrite Hfilled|done]. }
  clear Hcell Hfilled. revert Hrun cell Hin Hlt. apply for_each_checked.
  - intros y h0. apply pres_shrinks_propagate.
  - intros x h0 h1 Hx. unfold Board.propagate, bind at 1, rd, gets; simpl.
    destruct (Obj.unchecked (h0 !!! x)) eqn:Hu; [|by intros [= <-]].
    unfold bind at 1. destruct (Board.hits b x h0) as [[hs|e] h2] eqn:Hh; [|done].
    unfold bind. destruct (for_each hs _ h2) as [[[]|e] h3] eqn:Hf; [|done].
    unfold wr. intros [= <-].
    assert (length h3 = length h0) as Hlen.
    { pose proof (read_only_hits b x h0) as Hro. rewrite Hh in Hro. simpl in Hro. subst h2.
      pose proof (pres_for_each shrinks hs (Board.remove_value x)
                    (λ hit _ h, pres_shrinks_remove_value x hit h) h0) as [Hl _].
      by rewrite Hf in Hl. }
    rewrite list_lookup_total_alter_eq by lia. done.
Qed.

Lemma for_each_rigid {X} b (xs : list X) body :
  (∀ x, x ∈ xs → ∀ h, shrinks h (body x h).2) →
  (∀ x, x ∈ xs → rigid b (body x)) →
  rigid b (for_each xs body).
Proof.
  induction xs as [|x xs IH]; intros Hsh Hrig h; simpl; [done|].
  unfold bind.
  pose proof (Hsh x (list_elem_of_here _ _) h) as Hsh1.
  pose proof (Hrig x (list_elem_of_here _ _) h) as Hrig1.
  destruct (body x h) as [[[]|e] h1]; simpl in *; [|done].
  intros Heq.
  assert (shrinks h1 (for_each xs body h1).2) as Hsh2.
  { apply (pres_for_each shrinks). intros y Hy. apply Hsh. by right. }
  pose proof (shrinks_sandwich b _ _ _ Hsh1 Hsh2 (eq_sym Heq)) as H1.
  specialize (Hrig1 H1). subst h1.
  apply IH; [| |done]; intros y Hy; [apply Hsh | apply Hrig]; by right.
Qed.

Lemma unique_candidate_rigid b group n :
  (∀ a, a ∈ group → a ∈ Board.cells b) →
  rigid b (Board.unique_candidate group n).
Proof.
  intros Hgroup h. unfold Board.unique_candidate, bind, gets, or_raise, wr; simpl.
  case_bool_decide; simpl; [|done].
  destruct (filter _ group !! 0%nat) as [x0|] eqn:Hx0; simpl; [|done].
  apply filter_singleton_elem in Hx0 as [_ Hx0%Hgroup].
  intros Heq. apply (str_cells_eq_elem _ _ _ x0) in Heq; [|done].
  transitivity (alter id x0 h); [|by apply list_alter_id].
  apply list_alter_ext; [|done]. intros x Hx.
  rewrite list_lookup_total_alter_eq in Heq by (by eapply lookup_lt_Some).
  rewrite list_lookup_total_alt, Hx in Heq. simpl in Heq.
  destruct x; simpl in *. by subst.
Qed.

Lemma unique_candidate_ok group n h : (Board.unique_candidate group n h).1 = Ok tt.
Proof.
  unfold Board.unique_candidate, bind, gets, or_raise, wr; simpl.
  case_bool_decide as Hlen; simpl; [|done].
  destruct (filter _ group) as [|x0 xs]; [done|]. done.
Qed.

Lemma for_each_ok {X} (xs : list X) body :
  (∀ x, x ∈ xs → ∀ h, (body x h).1 = Ok tt) → ∀ h, (for_each xs body h).1 = Ok tt.
Proof.
  induction xs as [|x xs IH]; intros Hbody h; simpl; [done|].
  unfold bind. pose proof (Hbody x (list_elem_of_here _ _) h) as Hx.
  destruct (body x h) as [[[]|e] h1]; [|done].
  apply IH. intros y Hy. apply Hbody. by right.
Qed.

(** The unique-candidate pass never raises. *)
Lemma group_check_ok b h : (Board.group_check b h).1 = Ok tt.
Proof.
  unfold Board.group_check. apply for_each_ok. intros lis _ h1.
  apply for_each_ok. intros [group n] _ h2. apply unique_candidate_ok.
Qed.

Lemma group_check_rigid b : groups_in_cells b → rigid b (Board.group_check b).
Proof.
  intros Hwf. unfold Board.group_check. apply for_each_rigid.
  - intros lis _ h. apply (pres_for_each shrinks). intros [group n] _ h1.
    apply pres_shrinks_unique_candidate.
  - intros lis Hlis. apply for_each_rigid.
    + intros [group n] _ h1. apply pres_shrinks_unique_candidate.
    + intros [group n] [Hg _]%elem_of_prod. apply unique_candidate_rigid.
      intros a Ha. apply (Hwf group); [|done].
      rewrite !elem_of_cons, elem_of_nil in Hlis. rewrite !elem_of_app.
      destruct Hlis as [->|[->|[->|[]]]]; auto.
Qed.

(** C9: on a board whose groups are made of its own cells (as every board
    built by [Board()] is), a run of [basic_checks] that returns leaves a heap
    on which a second run returns at once with the heap unchanged. *)
Theorem C9_basic_checks_idempotent b h h' :
  groups_in_cells b →
  basic_checks b h = (Ok tt, h') →
  basic_checks b h' = (Ok tt, h').
Proof.
  intros Hwf Hrun.
  pose proof (basic_checks_unfold b h) as Hfuel. rewrite Hrun in Hfuel.
  apply until_stable_exit in Hfuel as (h0 & Hcycle & Hsame).
  unfold basic_cycle in Hcycle.
  destruct (until_stable _ b _ h0) as [[[[]|e] h1]|] eqn:Hs; [|done|done].
  assert (shrinks h0 h1) as Hsh01.
  { eapply (until_stable_pres b shrinks) in Hs; [exact Hs|].
    intros ? ? [= <-]. apply pres_shrinks_simple_check. }
  assert (shrinks h1 h') as Hsh1'.
  { eapply (until_stable_pres b shrinks) in Hcycle; [exact Hcycle|].
    intros ? ? [= <-]. apply pres_shrinks_group_check. }
  pose proof (shrinks_sandwich b _ _ _ Hsh01 Hsh1' Hsame) as Hsame1.
  apply until_stable_exit in Hs as (h0' & [= Hsimple] & Hsame0').
  apply until_stable_exit in Hcycle as (h1' & [= Hgroup] & Hsame1').
  assert (Board.simple_check b h' = (Ok tt, h')) as Hs'.
  { apply simple_check_noop. intros cell Hcell Hfilled.
    destruct Hsh1' as [_ Hle]. apply (Hle cell).
    eapply simple_check_checked; [exact Hsimple|done|].
    unfold Cell.filled_of in *.
    rewrite (str_cells_eq_elem b h0' h1 cell), (str_cells_eq_elem b h1 h' cell);
      [done|congruence|done|done|done]. }
  assert (Board.group_check b h' = (Ok tt, h')) as Hg'.
  { pose proof (group_check_rigid b Hwf h1') as Hrig.
    rewrite Hgroup in Hrig. simpl in Hrig. specialize (Hrig (eq_sym Hsame1')).
    by subst h1'. }
  unfold basic_checks, basic_checks_fuel. simpl.
  unfold basic_cycle. simpl. rewrite Hs'.
  rewrite bool_decide_eq_true_2 by done. simpl. rewrite Hg'.
  rewrite bool_decide_eq_true_2 by done.
  by rewrite bool_decide_eq_true_2 by done.
Qed.

(** ** Serialization and construction from a string *)

Lemma digit_cellb_correct x : digit_cellb x = true → digit_cell x.
Proof.
  unfold digit_cellb. intros H v Hv. rewrite Hv in H.
  by apply bool_decide_eq_true in H.
Qed.

Lemma digit_cases z : 0 ≤ z ≤ 9 →
  z = 0 ∨ z = 1 ∨ z = 2 ∨ z = 3 ∨ z = 4 ∨ z = 5 ∨ z = 6 ∨ z = 7 ∨ z = 8 ∨ z = 9.
Proof. lia. Qed.

Lemma str_digit z : 0 ≤ z ≤ 9 → Py.str z = String (digit_char z) "".
Proof. intros Hz%digit_cases. by repeat destruct Hz as [->|Hz]; try subst z. Qed.

Lemma int_digit_char z : 0 ≤ z ≤ 9 → Py.int (digit_char z) = Some z.
Proof. intros Hz%digit_cases. by repeat destruct Hz as [->|Hz]; try subst z. Qed.

Lemma filled_of_singleton x :
  Cell.filled_of x = true → ∃ v, Obj.cell x = [v].
Proof.
  unfold Cell.filled_of. intros H%bool_decide_eq_true.
  destruct (Obj.cell x) as [|v [|??]]; try done. by exists v.
Qed.

Lemma digit_val_range x : digit_cell x → 0 ≤ digit_val x ≤ 9.
Proof.
  intros Hx. unfold digit_val. destruct (Cell.filled_of x) eqn:Hf; [|lia].
  apply filled_of_singleton in Hf as [v Hv]. rewrite Hv. specialize (Hx v Hv). lia.
Qed.

Lemma digit_of_char x :
  digit_cell x → Board.digit_of x = String (digit_char (digit_val x)) "".
Proof.
  intros Hx. unfold Board.digit_of, digit_val.
  destruct (Cell.filled_of x) eqn:Hf; [|done].
  apply filled_of_singleton in Hf as [v Hv]. rewrite Hv.
  apply str_digit. specialize (Hx v Hv). lia.
Qed.

Lemma concat_chars (cs : list ascii) :
  String.concat "" ((λ c, String c "") <$> cs) = string_of_list_ascii cs.
Proof.
  induction cs as [|c cs IH]; [done|].
  rewrite fmap_cons. simpl. rewrite <-IH. by destruct cs.
Qed.

Lemma setup_string_chars b h :
  Forall (λ a, digit_cell (h !!! a)) (Board.cells b) →
  Board.setup_string_of b h =
  string_of_list_ascii ((λ a, digit_char (digit_val (h !!! a))) <$> Board.cells b).
Proof.
  intros Hd. unfold Board.setup_string_of. rewrite <-concat_chars, <-list_fmap_compose.
  f_equal. apply Forall_fmap_ext. eapply Forall_impl; [exact Hd|].
  intros a Ha. by apply digit_of_char.
Qed.

Lemma fill_cell_digit z a h :
  0 ≤ z ≤ 9 →
  Board.fill_cell (digit_char z) a h =
  (Ok tt, if bool_decide (z ≠ 0) then alter (Obj.set_cell [z]) a h else h).
Proof.
  intros Hz. unfold Board.fill_cell, bind, or_raise.
  rewrite int_digit_char by done. simpl. by case_bool_decide.
Qed.

(** What the loop of [setup] does to the cells it is given, for a text of
    digits. *)
Lemma setup_loop (zs : list Z) (addrs : list loc) h :
  NoDup addrs → length zs = length addrs →
  Forall (λ z, 0 ≤ z ≤ 9) zs → Forall (λ a, (a < length h)%nat) addrs →
  ∃ h', for_each (zip (digit_char <$> zs) addrs)
                 (λ '(fill, cell), Board.fill_cell fill cell) h = (Ok tt, h') ∧
        length h' = length h ∧
        (∀ a, a ∉ addrs → h' !!! a = h !!! a) ∧
        Forall2 (λ z a, Obj.cell (h' !!! a) =
                        if decide (z = 0) then Obj.cell (h !!! a) else [z]) zs addrs.
Proof.
  intros Hnd. revert zs h.
  induction Hnd as [|a addrs Ha Hnd IH]; intros [|z zs] h Hlen Hzs Hlt; try done.
  { exists h. by repeat split. }
  apply Forall_cons in Hzs as [Hz Hzs]. apply Forall_cons in Hlt as [Hlta Hlt].
  injection Hlen as Hlen. rewrite fmap_cons. simpl.
  unfold bind at 1. rewrite fill_cell_digit by done.
  set (h1 := if bool_decide (z ≠ 0) then alter (Obj.set_cell [z]) a h else h).
  assert (length h1 = length h) as Hlen1
    by (unfold h1; case_bool_decide; [apply length_alter|done]).
  assert (∀ a', a' ≠ a → h1 !!! a' = h !!! a') as Hother.
  { intros a' Hne. unfold h1. case_bool_decide; [|done].
    by apply list_lookup_total_alter_ne. }
  destruct (IH zs h1 Hlen Hzs) as (h' & Hrun & Hlen' & Hframe & Hall).
  { eapply Forall_impl; [exact Hlt|]. intros ?. simpl. lia. }
  exists h'. split; [exact Hrun|]. split; [lia|]. split.
  - intros a' [Hne Hnin]%not_elem_of_cons. rewrite Hframe by done. by apply Hother.
  - constructor.
    + rewrite Hframe by done. unfold h1. case_bool_decide as Hz0.
      * rewrite list_lookup_total_alter_eq by done. by rewrite decide_False.
      * rewrite decide_True; [done|]. destruct (decide (z = 0)); [done|]. by destruct Hz0.
    + assert (∀ a', a' ∈ addrs → h1 !!! a' = h !!! a') as Hin.
      { intros a' Hin. apply Hother. by intros ->. }
      clear -Hall Hin. induction Hall as [|z' a' zs' addrs' Hc Hall' IH']; constructor.
      * rewrite Hc, Hin; [done|by left].
      * apply IH'. intros a'' ?. apply Hin. by right.
Qed.

Lemma Forall2_strengthen {A B} (P : A → B → Prop) (Q : A → Prop) (R : B → Prop) l k :
  Forall2 P l k → Forall Q l → Forall R k → Forall2 (λ x y, P x y ∧ Q x ∧ R y) l k.
Proof.
  induction 1 as [|x y l k HP _ IH]; intros HQ HR; constructor.
  - apply Forall_cons in HQ as [? _]. apply Forall_cons in HR as [? _]. done.
  - apply Forall_cons in HQ as [_ ?]. apply Forall_cons in HR as [_ ?]. by apply IH.
Qed.

Lemma getitem_shift n b keys l0 h :
  Forall2 (λ key a, Board.df_at (Board.board b) key = Some a) keys l0 →
  map_m (Board.getitem (shift_board n b)) keys h = (Ok (shift n l0), h).
Proof.
  induction 1 as [|key a keys l0 Hkey _ IH]; simpl; [done|].
  unfold bind at 1, Board.getitem at 1. simpl. rewrite df_at_shift, Hkey. simpl.
  unfold bind. by rewrite IH.
Qed.

Lemma board0_targets :
  Forall2 (λ key a, Board.df_at (Board.board board0) key = Some a)
          (Py.prod (Py.range 1 10) (Py.range 1 10)) (Board.cells board0).
Proof. vm_compute. repeat constructor. Qed.

Lemma board0_cells_NoDup : NoDup (Board.cells board0).
Proof. apply (bool_decide_unpack _). by vm_compute. Qed.

Lemma board0_cells_fresh :
  Forall (λ k, (k < 81)%nat ∧ Obj.cell (cells0 !!! k) = Py.range 1 10) (Board.cells board0).
Proof. apply (bool_decide_unpack _). by vm_compute. Qed.

Lemma cells0_length : length cells0 = 81%nat.
Proof. done. Qed.

Lemma digit_of_ext x y : Obj.cell x = Obj.cell y → Board.digit_of x = Board.digit_of y.
Proof. unfold Board.digit_of, Cell.filled_of. by intros ->. Qed.

(** Constructing a grid from the serialization of [board]: the new board
    is made of 81 fresh cells; a cell that is solved in [board] is solved with
    the same digit in the new grid, and every other cell of the new grid
    holds all of 1..9. *)
Lemma from_string_spec board h :
  length (Board.cells board) = 81%nat →
  Forall (λ a, digit_cell (h !!! a)) (Board.cells board) →
  ∃ h', from_string (Board.setup_string_of board h) h =
          (Ok (shift_board (length h) board0), h') ∧
        length h' = (length h + 81)%nat ∧
        (∀ a, (a < length h)%nat → h' !!! a = h !!! a) ∧
        Forall2 (λ a a', Obj.cell (h' !!! a') =
                         if Cell.filled_of (h !!! a) then Obj.cell (h !!! a)
                         else Py.range 1 10)
                (Board.cells board) (Board.cells (shift_board (length h) board0)).
Proof.
  intros Hlen Hdigits. set (n := length h).
  unfold from_string, bind. rewrite init_spec. fold n.
  unfold Board.setup, bind.
  rewrite (getitem_shift n board0 _ _ _ board0_targets).
  rewrite setup_string_chars, list_ascii_of_string_of_list_ascii by done.
  replace ((λ a, digit_char (digit_val (h !!! a))) <$> Board.cells board)
    with (digit_char <$> ((λ a, digit_val (h !!! a)) <$> Board.cells board))
    by (by rewrite <-list_fmap_compose).
  destruct (setup_loop ((λ a, digit_val (h !!! a)) <$> Board.cells board)
              (shift n (Board.cells board0)) (h ++ cells0))
    as (h' & -> & Hlen' & Hframe & Hall).
  - assert (Inj (=) (=) (Nat.add n)) by (intros x y ?; lia).
    apply (NoDup_fmap_2 _), board0_cells_NoDup.
  - by rewrite !length_fmap, Hlen.
  - apply Forall_fmap. eapply Forall_impl; [exact Hdigits|].
    intros a Ha. by apply digit_val_range.
  - apply Forall_fmap. eapply Forall_impl; [apply board0_cells_fresh|].
    intros k [Hk _]. simpl. rewrite length_app, cells0_length. unfold n. lia.
  - exists h'. split; [done|]. split; [by rewrite Hlen', length_app|]. split.
    + intros a Ha. rewrite Hframe.
      * apply lookup_total_app_l. done.
      * intros (k & -> & _)%list_elem_of_fmap. unfold n in Ha. lia.
    + cbn [Board.cells shift_board].
      rewrite Forall2_fmap_l, Forall2_fmap_r in Hall. rewrite Forall2_fmap_r.
      eapply Forall2_impl.
      { apply (Forall2_strengthen _ _ _ _ _ Hall Hdigits board0_cells_fresh). }
      intros a k (Hcell & Hd & Hk & Hfresh). simpl in *. rewrite Hcell.
      unfold digit_val. destruct (Cell.filled_of (h !!! a)) eqn:Hf.
      * apply filled_of_singleton in Hf as [v Hv]. rewrite Hv.
        specialize (Hd v Hv). rewrite decide_False by lia. done.
      * rewrite decide_True by done. by rewrite (lookup_total_shift n).
Qed.

(** C5, as stated in the specification, fails: after the grid of
    ["1" + "0"*80] has been propagated, cell (1,2) holds the candidates 2..9,
    but the grid constructed from the serialization holds 1..9 there. *)
Lemma C5_counterexample :
  (from_string (Board.setup_string_of board0 (propagated puzzle_one))
               (propagated puzzle_one)).1 = Ok (shift_board 81 board0) ∧
  Board.df_at (Board.board board0) (1, 2) = Some 9%nat ∧
  Board.df_at (Board.board (shift_board 81 board0)) (1, 2) = Some 90%nat ∧
  Obj.cell (propagated puzzle_one !!! 9%nat) = [2; 3; 4; 5; 6; 7; 8; 9] ∧
  Obj.cell ((from_string (Board.setup_string_of board0 (propagated puzzle_one))
                         (propagated puzzle_one)).2 !!! 90%nat)
  = [1; 2; 3; 4; 5; 6; 7; 8; 9].
Proof. by vm_compute. Qed.

(** C5, amended: for a grid of 81 cells whose solved cells hold digits
    1..9, constructing a grid from the serialization succeeds and gives a
    grid of fresh cells in which every cell that was solved holds the same
    single digit and every other cell holds all of 1..9; the old cells are
    untouched, the new grid serializes to the same string, and it has the
    same candidate lists as the old one when every unsolved cell of the old
    one held all of 1..9. *)
Theorem C5_construction_keeps_solved_cells board h :
  length (Board.cells board) = 81%nat →
  Forall (λ a, digit_cell (h !!! a)) (Board.cells board) →
  ∃ new h',
    from_string (Board.setup_string_of board h) h = (Ok new, h') ∧
    (∀ a, (a < length h)%nat → h' !!! a = h !!! a) ∧
    Forall2 (λ a a', Obj.cell (h' !!! a') =
                     if Cell.filled_of (h !!! a) then Obj.cell (h !!! a)
                     else Py.range 1 10)
            (Board.cells board) (Board.cells new) ∧
    Board.setup_string_of new h' = Board.setup_string_of board h ∧
    (Forall (λ a, Cell.filled_of (h !!! a) = false →
                  Obj.cell (h !!! a) = Py.range 1 10) (Board.cells board) →
     Forall2 (λ a a', Obj.cell (h' !!! a') = Obj.cell (h !!! a))
             (Board.cells board) (Board.cells new)).
Proof.
  intros Hlen Hdigits.
  destruct (from_string_spec board h Hlen Hdigits) as (h' & Hrun & _ & Hkept & Hall).
  exists (shift_board (length h) board0), h'. split_and!; try done.
  - unfold Board.setup_string_of. f_equal. symmetry.
    apply list_eq_Forall2, Forall2_fmap. eapply Forall2_impl; [exact Hall|].
    intros a a' Hcell. simpl in *. destruct (Cell.filled_of (h !!! a)) eqn:Hf.
    + by apply digit_of_ext.
    + unfold Board.digit_of at 1. rewrite Hf.
      unfold Board.digit_of, Cell.filled_of. by rewrite Hcell.
  - intros Hfull. eapply Forall2_impl.
    { apply (Forall2_strengthen _ _ (λ _, True) _ _ Hall Hfull).
      by apply Forall_forall. }
    intros a a' (Hcell & Hf & _). simpl in *.
    destruct (Cell.filled_of (h !!! a)); [done|]. by rewrite Hf.
Qed.

Lemma C5_construction_keeps_solved_cells_witness :
  length (Board.cells board0) = 81%nat ∧
  Forall (λ a, digit_cell (propagated puzzle_one !!! a)) (Board.cells board0) ∧
  ∃ new h',
    from_string (Board.setup_string_of board0 (propagated puzzle_one))
                (propagated puzzle_one) = (Ok new, h') ∧
    Board.setup_string_of new h' = Board.setup_string_of board0 (propagated puzzle_one).
Proof.
  assert (length (Board.cells board0) = 81%nat) as H1 by reflexivity.
  assert (Forall (λ a, digit_cell (propagated puzzle_one !!! a)) (Board.cells board0)) as H2.
  { eapply Forall_impl; [|intros a; apply digit_cellb_correct].
    apply (bool_decide_unpack _). by vm_compute. }
  destruct (C5_construction_keeps_solved_cells board0 _ H1 H2)
    as (new & h' & Hrun & _ & _ & Hstr & _).
  split; [exact H1|]. split; [exact H2|]. exists new, h'. by split.
Defined.

(** ** The scratch grid of a trial *)


Lemma setup_string_of_app board h l :
  Forall (λ a, (a < length h)%nat) (Board.cells board) →
  Board.setup_string_of board (h ++ l) = Board.setup_string_of board h.
Proof.
  intros Hlt. unfold Board.setup_string_of. f_equal. apply Forall_fmap_ext.
  eapply Forall_impl; [exact Hlt|]. intros a Ha. simpl.
  by rewrite lookup_total_app_l.
Qed.



(** ** The solve driver *)

(** C4, as stated in the specification, fails: on the grid of
    ["1" + "0"*80] the first turn of the loop leaves the 81-digit
    serialization as it was, and the driver goes on instead of stopping. *)
Lemma C4_counterexample :
  (solve_cycle board0 (loaded puzzle_one)).1 = Ok Again ∧
  Board.setup_string_of board0 (solve_cycle board0 (loaded puzzle_one)).2
  = Board.setup_string_of board0 (loaded puzzle_one).
Proof. by vm_compute. Qed.

Lemma str_cells_setup_string b h h' :
  Board.str_cells_of b h = Board.str_cells_of b h' →
  Board.setup_string_of b h = Board.setup_string_of b h'.
Proof.
  intros Heq. unfold Board.setup_string_of. f_equal. apply Forall_fmap_ext, Forall_forall.
  intros a Ha. apply digit_of_ext. by apply (str_cells_eq_elem b).
Qed.

Lemma solved_read_only b : read_only (Board.solved b).
Proof. by intros h. Qed.

(** C4, amended: a turn of the loop of [solve] that raises nothing ends in
    one of three ways.  It reports success exactly when the grid is solved
    after [basic_checks]; it stops as stuck exactly when the grid is not
    solved then and, after one disambiguator pass, [str(board.cells)] (the
    coordinates and the whole candidate list of every cell, not the 81-digit
    serialization) is what it was when the turn began; it goes round again
    exactly when that string has changed.  Equal strings imply equal
    serializations, not the other way round. *)
Theorem C4_solve_cycle_verdict board h h' :
  (solve_cycle board h = (Ok Solved, h') ↔
     basic_checks board h = (Ok tt, h') ∧ (Board.solved board h').1 = Ok true) ∧
  (solve_cycle board h = (Ok Stuck, h') ↔
     ∃ h1, basic_checks board h = (Ok tt, h1) ∧
           (Board.solved board h1).1 = Ok false ∧
           simple_brute_check board h1 = (Ok tt, h') ∧
           Board.str_cells_of board h = Board.str_cells_of board h') ∧
  (solve_cycle board h = (Ok Again, h') ↔
     ∃ h1, basic_checks board h = (Ok tt, h1) ∧
           (Board.solved board h1).1 = Ok false ∧
           simple_brute_check board h1 = (Ok tt, h') ∧
           Board.str_cells_of board h ≠ Board.str_cells_of board h') ∧
  (∀ fuel, solve (S fuel) board h =
           match solve_cycle board h with
           | (Ok Again, h2) => solve fuel board h2
           | res => Some res
           end) ∧
  (Board.str_cells_of board h = Board.str_cells_of board h' →
   Board.setup_string_of board h = Board.setup_string_of board h').
Proof.
  assert (solve_cycle board h =
          match basic_checks board h with
          | (Ok _, h1) =>
              if bool_decide (filter (λ cell, Cell.filled_of (h1 !!! cell))
                                     (Board.cells board) = Board.cells board)
              then (Ok Solved, h1)
              else match simple_brute_check board h1 with
                   | (Ok _, h2) =>
                       (Ok (if bool_decide (Board.str_cells_of board h =
                                            Board.str_cells_of board h2)
                            then Stuck else Again), h2)
                   | (Raise e, h2) => (Raise e, h2)
                   end
          | (Raise e, h1) => (Raise e, h1)
          end) as Hunfold.
  { unfold solve_cycle, bind, Board.str_cells, gets; simpl.
    destruct (basic_checks board h) as [[[]|e] h1]; [|done]. simpl.
    case_bool_decide; [done|].
    destruct (simple_brute_check board h1) as [[[]|?] h2]; [|done].
    by case_bool_decide. }
  assert (∀ h1, (Board.solved board h1).1 =
                Ok (bool_decide (filter (λ cell, Cell.filled_of (h1 !!! cell))
                                        (Board.cells board) = Board.cells board)))
    as Hsolved by done.
  split_and!; [| | |done|apply str_cells_setup_string]; rewrite Hunfold;
    destruct (basic_checks board h) as [[[]|e] h1].
  - case_bool_decide as Hs.
    + split.
      * intros [= <-]. split; [done|]. by rewrite Hsolved, bool_decide_eq_true_2.
      * by intros [[= <-] _].
    + split.
      * destruct (simple_brute_check board h1) as [[[]|?] ?]; [|done].
        by case_bool_decide.
      * intros [[= <-] Hs']. rewrite Hsolved, bool_decide_eq_false_2 in Hs' by done.
        done.
  - split; [done|]. by intros [? _].
  - split.
    + case_bool_decide as Hs; [done|].
      destruct (simple_brute_check board h1) as [[[]|?] h2] eqn:Hb; [|done].
      case_bool_decide as Hsame; [|done]. intros [= <-].
      exists h1. by rewrite Hsolved, bool_decide_eq_false_2 by done.
    + intros (h1' & [= <-] & Hs & Hb & Hsame). rewrite Hsolved in Hs.
      injection Hs as Hs. rewrite Hs, Hb. by rewrite bool_decide_eq_true_2.
  - split; [done|]. by intros (? & ? & _).
  - split.
    + case_bool_decide as Hs; [done|].
      destruct (simple_brute_check board h1) as [[[]|?] h2] eqn:Hb; [|done].
      case_bool_decide as Hsame; [done|]. intros [= <-].
      exists h1. by rewrite Hsolved, bool_decide_eq_false_2 by done.
    + intros (h1' & [= <-] & Hs & Hb & Hsame). rewrite Hsolved in Hs.
      injection Hs as Hs. rewrite Hs, Hb. by rewrite bool_decide_eq_false_2.
  - split; [done|]. by intros (? & ? & _).
Qed.

(** ** Two equal solved cells that see each other *)

#[local] Instance flags_except_preorder S : PreOrder (flags_except S).
Proof.
  split.
  - by intros h a _.
  - intros h1 h2 h3 H12 H23 a Ha. by rewrite H23, H12.
Qed.

Lemma for_each_app {X} (l l' : list X) body h :
  for_each (l ++ l') body h =
  match for_each l body h with
  | (Ok _, h1) => for_each l' body h1
  | res => res
  end.
Proof.
  revert h. induction l as [|x l IH]; intros h; simpl; [done|].
  unfold bind. destruct (body x h) as [[[]|e] h1]; [apply IH|done].
Qed.

Lemma hits_ext b cell h h' :
  coords (h !!! cell) = coords (h' !!! cell) →
  (Board.hits b cell h).1 = (Board.hits b cell h').1.
Proof.
  intros [= Hr Hc Hb]. unfold Board.hits, bind, rd, gets, or_raise; simpl.
  rewrite Hr, Hc, Hb.
  repeat (match goal with |- context [match ?o with Some _ => _ | None => _ end] =>
            destruct o; simpl end); done.
Qed.

Lemma hits0_ok : Forall (λ k, (Board.hits board0 k cells0).1 = Ok (hits0 k)) (seq 0 81).
Proof. apply (bool_decide_unpack _). by vm_compute. Qed.

Lemma hits_on_board0 h k :
  on_board0 h → (k < 81)%nat → Board.hits board0 k h = (Ok (hits0 k), h).
Proof.
  intros Hh Hk. pose proof (read_only_hits board0 k h) as Hro.
  pose proof (hits_ext board0 k h cells0 (Hh k Hk)) as Hext.
  pose proof hits0_ok as Htab. rewrite Forall_forall in Htab.
  rewrite (Htab k) in Hext by (apply elem_of_seq; lia).
  destruct (Board.hits board0 k h) as [o h1]. simpl in *. by subst.
Qed.

Lemma peers_hits0 :
  Forall (λ k1, Forall (λ k2, peers k1 k2 → k2 ∈ hits0 k1) (seq 0 81)) (seq 0 81).
Proof.
  assert (Forall (λ k1, Forall (λ k2,
            k1 = k2 ∨
            (Obj.r (cells0 !!! k1) ≠ Obj.r (cells0 !!! k2) ∧
             Obj.c (cells0 !!! k1) ≠ Obj.c (cells0 !!! k2) ∧
             Obj.box (cells0 !!! k1) ≠ Obj.box (cells0 !!! k2)) ∨
            k2 ∈ hits0 k1) (seq 0 81)) (seq 0 81)) as Htab
    by (apply (bool_decide_unpack _); by vm_compute).
  eapply Forall_impl; [exact Htab|]. intros k1 H1. simpl in *.
  eapply Forall_impl; [exact H1|]. intros k2 H2 [Hne Hsame]. simpl in *.
  destruct H2 as [?|[(?&?&?)|?]]; [done| |done]. by destruct Hsame as [?|[?|?]].
Qed.

Lemma peers_in_hits0 k1 k2 :
  (k1 < 81)%nat → (k2 < 81)%nat → peers k1 k2 → k2 ∈ hits0 k1.
Proof.
  intros H1 H2. pose proof peers_hits0 as Htab.
  rewrite Forall_forall in Htab. specialize (Htab k1). rewrite Forall_forall in Htab.
  apply Htab; apply elem_of_seq; lia.
Qed.

Lemma on_board0_shrinks h h' : on_board0 h → shrinks h h' → on_board0 h'.
Proof.
  intros Hh [_ Hle] k Hk. rewrite <-(Hh k Hk).
  destruct (Hle k) as (Hr & Hc & Hb & _). unfold coords. by rewrite Hr, Hc, Hb.
Qed.

Lemma remove_value_outcome z hit h : ok_or_index (Board.remove_value z hit h).1.
Proof.
  unfold Board.remove_value, Cell.item, Cell.remove, bind, rd, gets, or_raise, wr; simpl.
  destruct (Obj.cell (h !!! z) !! 0%nat) as [v|] eqn:Hv; simpl; [|by right].
  unfold Py.contains. case_bool_decide as Hin; simpl; [|by left].
  rewrite Hv. simpl. apply list_remove_is_Some in Hin as [l ->]. by left.
Qed.

Lemma for_each_outcome {X} (Inv : Heap → Prop) (xs : list X) body :
  (∀ x h, x ∈ xs → Inv h → ok_or_index (body x h).1 ∧ Inv (body x h).2) →
  ∀ h, Inv h → ok_or_index (for_each xs body h).1 ∧ Inv (for_each xs body h).2.
Proof.
  induction xs as [|x xs IH]; intros Hbody h Hh; simpl; [by split; [left|]|].
  unfold bind. destruct (Hbody x h (list_elem_of_here _ _) Hh) as [Ho Hi].
  destruct (body x h) as [[[]|e] h1]; simpl in *.
  - apply IH; [|done]. intros y h' Hy. apply Hbody. by right.
  - by split.
Qed.

Lemma propagate_outcome h z :
  on_board0 h → (z < 81)%nat →
  ok_or_index (Board.propagate board0 z h).1 ∧ on_board0 (Board.propagate board0 z h).2.
Proof.
  intros Hh Hz. split; [|by eapply on_board0_shrinks, pres_shrinks_propagate].
  unfold Board.propagate, bind at 1, rd, gets; simpl.
  destruct (Obj.unchecked (h !!! z)); [|by left].
  unfold bind at 1. rewrite hits_on_board0 by done. unfold bind.
  destruct (for_each_outcome (λ _, True) (hits0 z) (Board.remove_value z)) with (h := h)
    as [Ho _]; [|done|].
  { intros hit h' _ _. split; [apply remove_value_outcome|done]. }
  destruct (for_each _ _ h) as [[[]|e] h1]; simpl in *; [by left|done].
Qed.

Lemma pres_flags_remove S self val h : pres (flags_except S) (Cell.remove self val) h.
Proof.
  unfold Cell.remove. repeat pres_step. intros k _. simpl.
  rewrite list_lookup_total_alter. by case_decide as Hk; [destruct Hk as [<- _]|].
Qed.

Lemma pres_flags_propagate (S : loc → Prop) b cell h :
  S cell → pres (flags_except S) (Board.propagate b cell) h.
Proof.
  intros HS. unfold Board.propagate. repeat pres_step.
  - apply (pres_for_each (flags_except S)). intros hit _ h'.
    unfold Board.remove_value. repeat pres_step. apply pres_flags_remove.
  - intros k Hk. simpl. apply f_equal, list_lookup_total_alter_ne. by intros ->.
Qed.

(** Running the elimination loop over cells other than [z]. *)
Lemma propagate_segment l h z :
  on_board0 h → Forall (λ k, (k < 81)%nat) l → z ∉ l →
  ok_or_index (for_each l (Board.propagate board0) h).1 ∧
  on_board0 (for_each l (Board.propagate board0) h).2 ∧
  shrinks h (for_each l (Board.propagate board0) h).2 ∧
  Obj.unchecked ((for_each l (Board.propagate board0) h).2 !!! z) = Obj.unchecked (h !!! z).
Proof.
  intros Hh Hl Hz. rewrite Forall_forall in Hl.
  destruct (for_each_outcome on_board0 l (Board.propagate board0)) with (h := h)
    as [Ho Hi]; [|done|].
  { intros x h' Hx Hh'. apply propagate_outcome; auto. }
  split_and!; try done.
  - apply (pres_for_each shrinks). intros x _ h'. apply pres_shrinks_propagate.
  - apply (pres_for_each (flags_except (.∈ l)) l (Board.propagate board0)); [|done].
    intros x Hx h'. by apply pres_flags_propagate.
Qed.

Lemma sublist_singleton {A} (l : list A) v : l `sublist_of` [v] → l = [] ∨ l = [v].
Proof.
  intros Hsub. destruct (sublist_eq_or_shorter _ _ Hsub) as [->|Hlen]; [by right|].
  left. destruct l; [done|simpl in Hlen; lia].
Qed.

(** After the inner loop of [simple_check] has returned, a cell it has
    visited that held at most the value of the source holds nothing. *)
Lemma remove_value_empties x y v hs h h' :
  for_each hs (Board.remove_value x) h = (Ok tt, h') →
  y ∈ hs → (y < length h)%nat →
  Obj.cell (h !!! x) `sublist_of` [v] → Obj.cell (h !!! y) `sublist_of` [v] →
  Obj.cell (h' !!! y) = [].
Proof.
  revert h. induction hs as [|hit hs IH]; intros h Hrun Hy Hlt Hx Hyv.
  { by apply elem_of_nil in Hy. }
  simpl in Hrun. unfold bind in Hrun.
  pose proof (pres_shrinks_remove_value x hit h) as Hsh. unfold pres in Hsh.
  destruct (Board.remove_value x hit h) as [[[]|e] h1] eqn:Hstep; [|done].
  simpl in Hsh. destruct Hsh as [Hlen1 Hle1].
  assert (shrinks h1 h') as [_ Hle'].
  { pose proof (pres_for_each shrinks hs (Board.remove_value x)
                  (λ z _ h0, pres_shrinks_remove_value x z h0) h1) as Hp.
    unfold pres in Hp. by rewrite Hrun in Hp. }
  destruct (decide (y = hit)) as [->|Hne].
  - assert (Obj.cell (h1 !!! hit) = []) as Hempty.
    { revert Hstep.
      unfold Board.remove_value, Cell.item, Cell.remove, bind, rd, gets, or_raise, wr; simpl.
      destruct (sublist_singleton _ _ Hx) as [Ex|Ex]; rewrite Ex; simpl; [done|].
      unfold Py.contains. case_bool_decide as Hin; simpl.
      - rewrite Ex. simpl.
        destruct (sublist_singleton _ _ Hyv) as [Ey|Ey];
          [rewrite Ey in Hin; by apply elem_of_nil in Hin|].
        rewrite Ey. simpl. rewrite decide_True by done. simpl. intros [= <-].
        by rewrite list_lookup_total_alter_eq by done.
      - intros [= <-]. destruct (sublist_singleton _ _ Hyv) as [Ey|Ey]; [done|].
        rewrite Ey in Hin. destruct Hin. by left. }
    destruct (Hle' hit) as (_ & _ & _ & Hsub & _). rewrite Hempty in Hsub.
    by apply sublist_nil_r in Hsub.
  - apply elem_of_cons in Hy as [?|Hy]; [done|].
    apply (IH h1 Hrun Hy); [lia| |].
    + destruct (Hle1 x) as (_ & _ & _ & Hsub & _). by etrans.
    + destruct (Hle1 y) as (_ & _ & _ & Hsub & _). by etrans.
Qed.

Lemma propagate_empty_raises h y :
  on_board0 h → (y < 81)%nat → hits0 y ≠ [] →
  Obj.unchecked (h !!! y) = true → Obj.cell (h !!! y) = [] →
  Board.propagate board0 y h = (Raise Py.IndexError, h).
Proof.
  intros Hh Hy Hhits Hu Hc.
  unfold Board.propagate, bind at 1, rd, gets; simpl. rewrite Hu.
  unfold bind at 1. rewrite hits_on_board0 by done.
  destruct (hits0 y) as [|hit hs]; [done|]. simpl.
  unfold bind, Board.remove_value, Cell.item, bind, rd, gets, or_raise; simpl.
  by rewrite Hc.
Qed.

Lemma duplicate_raises_ordered l1 x l2 y l3 h v :
  on_board0 h →
  Forall (λ k, (k < 81)%nat) (l1 ++ x :: l2 ++ y :: l3) →
  x ∉ l1 → y ∉ l1 → y ∉ l2 → x ≠ y →
  y ∈ hits0 x → hits0 y ≠ [] → (y < length h)%nat →
  Obj.cell (h !!! x) `sublist_of` [v] → Obj.cell (h !!! y) `sublist_of` [v] →
  Obj.unchecked (h !!! x) = true → Obj.unchecked (h !!! y) = true →
  (for_each (l1 ++ x :: l2 ++ y :: l3) (Board.propagate board0) h).1
  = Raise Py.IndexError.
Proof.
  intros Hh Hall Hx1 Hy1 Hy2 Hne Hxy Hhy Hlt Hcx Hcy Hux Huy.
  apply Forall_app in Hall as [Hl1 Hall]. apply Forall_cons in Hall as [Hx Hall].
  apply Forall_app in Hall as [Hl2 Hall]. apply Forall_cons in Hall as [Hy Hl3].
  rewrite for_each_app.
  destruct (propagate_segment l1 h x Hh Hl1 Hx1) as (Ho1 & Hi1 & Hsh1 & Hfx).
  destruct (propagate_segment l1 h y Hh Hl1 Hy1) as (_ & _ & _ & Hfy).
  destruct (for_each l1 _ h) as [[[]|e] h1]; simpl in *;
    [|by destruct Ho1 as [?|?]].
  rewrite Hux in Hfx. rewrite Huy in Hfy.
  destruct Hsh1 as [Hlen1 Hle1].
  assert (Obj.cell (h1 !!! x) `sublist_of` [v]) as Hcx1
    by (destruct (Hle1 x) as (_ & _ & _ & ? & _); by etrans).
  assert (Obj.cell (h1 !!! y) `sublist_of` [v]) as Hcy1
    by (destruct (Hle1 y) as (_ & _ & _ & ? & _); by etrans).
  unfold bind at 1.
  destruct (propagate_outcome h1 x Hi1 Hx) as [Hox Hix].
  pose proof (pres_flags_propagate (.= x) board0 x h1 eq_refl y
                (λ E, Hne (eq_sym E))) as Hfy2.
  destruct (Board.propagate board0 x h1) as [[[]|e] h2] eqn:Hpx; simpl in *;
    [|by destruct Hox as [?|?]].
  rewrite Hfy in Hfy2.
  assert (Obj.cell (h2 !!! y) = []) as Hey.
  { revert Hpx. unfold Board.propagate, bind at 1, rd, gets; simpl. rewrite Hfx.
    unfold bind at 1. rewrite hits_on_board0 by done. unfold bind.
    destruct (for_each (hits0 x) _ h1) as [[[]|e] h2'] eqn:Hrv; [|done].
    unfold wr. intros [= <-]. rewrite list_lookup_total_alter_ne by done.
    eapply remove_value_empties; [exact Hrv|done|lia|done|done]. }
  rewrite for_each_app.
  destruct (propagate_segment l2 h2 y Hix Hl2 Hy2) as (Ho3 & Hi3 & Hsh3 & Hfy3).
  destruct (for_each l2 _ h2) as [[[]|e] h3]; simpl in *;
    [|by destruct Ho3 as [?|?]].
  unfold bind. rewrite propagate_empty_raises; try done.
  - congruence.
  - destruct Hsh3 as [_ Hle3]. destruct (Hle3 y) as (_ & _ & _ & Hsub & _).
    rewrite Hey in Hsub. by apply sublist_nil_r in Hsub.
Qed.

Lemma board0_cells_all : Forall (λ k, k ∈ Board.cells board0) (seq 0 81).
Proof. apply (bool_decide_unpack _). by vm_compute. Qed.

Lemma allocated_of_singleton (h : Heap) a v :
  Obj.cell (h !!! a) = [v] → (a < length h)%nat.
Proof.
  intros Hc. destruct (decide (a < length h)%nat) as [|Hge]; [done|].
  rewrite list_lookup_total_alt, lookup_ge_None_2 in Hc by lia. done.
Qed.

(** The elimination pass on the board of the script raises [IndexError]
    whenever two cells that see each other are both solved with the same
    value and neither has been propagated. *)
Lemma duplicate_raises h A B v :
  on_board0 h → (A < 81)%nat → (B < 81)%nat → peers A B →
  Obj.cell (h !!! A) = [v] → Obj.cell (h !!! B) = [v] →
  Obj.unchecked (h !!! A) = true → Obj.unchecked (h !!! B) = true →
  (Board.simple_check board0 h).1 = Raise Py.IndexError.
Proof.
  intros Hh HA HB Hpeers HcA HcB HuA HuB.
  assert (peers B A) as Hpeers'.
  { destruct Hpeers as [Hne Hs]. split; [done|]. by destruct Hs as [?|[?|?]]; auto. }
  pose proof (peers_in_hits0 A B HA HB Hpeers) as HAB.
  pose proof (peers_in_hits0 B A HB HA Hpeers') as HBA.
  unfold Board.simple_check, Board.filled_cells, bind at 1, gets. cbv beta iota.
  set (L := filter (λ cell, Cell.filled_of (h !!! cell)) (Board.cells board0)).
  assert (∀ k v', (k < 81)%nat → Obj.cell (h !!! k) = [v'] → k ∈ L) as HinL.
  { intros k v' Hk Hc. apply list_elem_of_filter. split.
    - unfold Cell.filled_of. by rewrite Hc.
    - pose proof board0_cells_all as Hall. rewrite Forall_forall in Hall.
      apply Hall, elem_of_seq. lia. }
  assert (NoDup L) as Hnd by apply NoDup_filter, board0_cells_NoDup.
  assert (Forall (λ k, (k < 81)%nat) L) as Hlt.
  { apply Forall_forall. intros k [_ Hk]%list_elem_of_filter.
    pose proof board0_cells_fresh as Hf. rewrite Forall_forall in Hf.
    by apply Hf. }
  pose proof (HinL A v HA HcA) as HAL. pose proof (HinL B v HB HcB) as HBL.
  clearbody L. clear HinL.
  apply list_elem_of_split in HAL as (l1 & l2 & ->).
  apply elem_of_app in HBL as [HB1|HB2].
  - apply list_elem_of_split in HB1 as (la & lb & ->).
    rewrite <-(assoc_L (++)) in *. simpl in *.
    apply NoDup_app in Hnd as (_ & Hla & Hnd). apply NoDup_cons in Hnd as [_ Hnd].
    apply NoDup_app in Hnd as (_ & Hlb & _).
    apply (duplicate_raises_ordered la B lb A l2 h v); try done.
    + intros Hin. apply (Hla B Hin). by left.
    + intros Hin. apply (Hla A Hin). right. apply elem_of_app. right. by left.
    + intros Hin. apply (Hlb A Hin). by left.
    + by destruct Hpeers'.
    + intros E. rewrite E in HAB. by apply elem_of_nil in HAB.
    + by eapply allocated_of_singleton.
    + by rewrite HcB.
    + by rewrite HcA.
  - apply elem_of_cons in HB2 as [->|HB2]; [by destruct Hpeers|].
    apply list_elem_of_split in HB2 as (la & lb & ->).
    apply NoDup_app in Hnd as (_ & Hl1 & Hnd). apply NoDup_cons in Hnd as [HAn Hnd].
    apply NoDup_app in Hnd as (_ & Hla & _).
    apply (duplicate_raises_ordered l1 A la B lb h v); try done.
    + intros Hin. apply (Hl1 A Hin). by left.
    + intros Hin. apply (Hl1 B Hin). right. apply elem_of_app. right. by left.
    + intros Hin. apply (Hla B Hin). by left.
    + by destruct Hpeers.
    + intros E. rewrite E in HBA. by apply elem_of_nil in HBA.
    + by eapply allocated_of_singleton.
    + by rewrite HcA.
    + by rewrite HcB.
Qed.

(** ** Removal and the empty candidate list *)

Lemma on_board0_check h :
  Forall (λ k, coords (h !!! k) = coords (cells0 !!! k)) (seq 0 81) → on_board0 h.
Proof.
  intros Hall k Hk. rewrite Forall_forall in Hall. apply Hall, elem_of_seq. lia.
Qed.

(** C1, as stated in the specification, fails: removing the last
    candidate of a cell returns normally and leaves the empty list. *)
Lemma C1_counterexample :
  Obj.cell (loaded puzzle_55 !!! 9%nat) = [5] ∧
  (Cell.remove 9 5 (loaded puzzle_55)).1 = Ok tt ∧
  Obj.cell ((Cell.remove 9 5 (loaded puzzle_55)).2 !!! 9%nat) = [].
Proof. by vm_compute. Qed.

(** C1, amended: [Cell.remove(value)] deletes the first occurrence of
    [value] from the candidate list and returns normally, also when that
    leaves the list empty; it raises (a [ValueError]) only when [value] is
    not a candidate.  There is no [ContradictionError]: the contradiction
    signal is the [IndexError] of reading the value of an emptied cell.  On
    the board of the script, the elimination pass raises it whenever two
    cells that share a row, a column or a box are both solved with the same
    value and neither has been propagated. *)
Theorem C1_remove_and_duplicate_value :
  (∀ h self val, (self < length h)%nat → val ∈ Obj.cell (h !!! self) →
     ∃ l, Py.list_remove val (Obj.cell (h !!! self)) = Some l ∧
          Cell.remove self val h = (Ok tt, alter (Obj.set_cell l) self h) ∧
          Obj.cell ((Cell.remove self val h).2 !!! self) = l ∧
          length (Obj.cell (h !!! self)) = S (length l)) ∧
  (∀ h self val, val ∉ Obj.cell (h !!! self) →
     Cell.remove self val h = (Raise Py.ValueError, h)) ∧
  (∀ h A B v,
     on_board0 h → (A < 81)%nat → (B < 81)%nat → A ≠ B →
     Obj.r (h !!! A) = Obj.r (h !!! B) ∨ Obj.c (h !!! A) = Obj.c (h !!! B) ∨
       Obj.box (h !!! A) = Obj.box (h !!! B) →
     Obj.cell (h !!! A) = [v] → Obj.cell (h !!! B) = [v] →
     Obj.unchecked (h !!! A) = true → Obj.unchecked (h !!! B) = true →
     (Board.simple_check board0 h).1 = Raise Py.IndexError).
Proof.
  split_and!.
  - intros h self val Hlt Hin.
    destruct (list_remove_is_Some val _ Hin) as [l Hl]. exists l.
    unfold Cell.remove, bind, rd, gets, or_raise, wr; simpl. rewrite Hl. simpl.
    split_and!; try done.
    + by rewrite list_lookup_total_alter_eq.
    + by apply list_remove_sublist in Hl as [_ ?].
  - intros h self val Hin.
    unfold Cell.remove, bind, rd, gets, or_raise; simpl.
    by rewrite list_remove_None.
  - intros h A B v Hh HA HB Hne Hsame. apply duplicate_raises; try done.
    split; [done|]. pose proof (Hh A HA) as [= <- <- <-].
    by pose proof (Hh B HB) as [= <- <- <-].
Qed.

Lemma C1_remove_and_duplicate_value_witness :
  on_board0 (loaded puzzle_55) ∧
  Obj.cell (loaded puzzle_55 !!! 0%nat) = [5] ∧
  Obj.cell (loaded puzzle_55 !!! 9%nat) = [5] ∧
  (Board.simple_check board0 (loaded puzzle_55)).1 = Raise Py.IndexError.
Proof.
  assert (on_board0 (loaded puzzle_55)) as H1.
  { apply on_board0_check, (bool_decide_unpack _). by vm_compute. }
  assert (Obj.cell (loaded puzzle_55 !!! 0%nat) = [5]) as H2 by (by vm_compute).
  assert (Obj.cell (loaded puzzle_55 !!! 9%nat) = [5]) as H3 by (by vm_compute).
  assert (Obj.r (loaded puzzle_55 !!! 0%nat) = Obj.r (loaded puzzle_55 !!! 9%nat)) as H4
    by (by vm_compute).
  assert (Obj.unchecked (loaded puzzle_55 !!! 0%nat) = true) as H5 by (by vm_compute).
  assert (Obj.unchecked (loaded puzzle_55 !!! 9%nat) = true) as H6 by (by vm_compute).
  destruct C1_remove_and_duplicate_value as (_ & _ & Hdup).
  assert (0 < 81)%nat as Hlt0 by lia. assert (9 < 81)%nat as Hlt9 by lia.
  assert (0 ≠ 9)%nat as Hne by lia.
  exact (conj H1 (conj H2 (conj H3
           (Hdup _ 0%nat 9%nat 5 H1 Hlt0 Hlt9 Hne (or_introl H4) H2 H3 H5 H6)))).
Defined.

(** C10, as stated in the specification, fails: no cell of the grid of
    ["55" + "0"*79] is empty when the elimination pass starts, and the pass
    raises [IndexError] for no other reason than that cell (1,2), emptied by
    cell (1,1), has no value to read when its turn comes. *)
Lemma C10_counterexample :
  Forall (λ a, Obj.cell (loaded puzzle_55 !!! a) ≠ []) (Board.cells board0) ∧
  (Board.simple_check board0 (loaded puzzle_55)).1 = Raise Py.IndexError ∧
  Obj.cell ((Board.simple_check board0 (loaded puzzle_55)).2 !!! 9%nat) = [] ∧
  Board.propagate board0 9 (Board.simple_check board0 (loaded puzzle_55)).2
  = (Raise Py.IndexError, (Board.simple_check board0 (loaded puzzle_55)).2).
Proof.
  split; [apply (bool_decide_unpack _); by vm_compute|]. by vm_compute.
Qed.

Lemma filter_eq_Forall {A} (P : A → Prop) `{∀ x, Decision (P x)} (l : list A) :
  filter P l = l → Forall P l.
Proof.
  induction l as [|x l IH]; [constructor|].
  rewrite filter_cons. case_decide as HP.
  - intros [= Hl]. constructor; auto.
  - intros Hl. pose proof (length_filter P l) as Hlen. rewrite Hl in Hlen.
    simpl in Hlen. lia.
Qed.

(** C10, amended: a cell of the board whose candidate list is empty is not
    solved, its length is 0, [solved()] is false, the elimination pass does
    not take it as a source when it is empty at the start of the pass, the
    unique-candidate pass returns normally and leaves it empty, and
    [setup_string] returns normally (printing 0 for it).  The elimination
    pass itself is not covered: it raises [IndexError] when it reaches a cell
    that was solved at the start of the pass, is not propagated and has been
    emptied since. *)
Theorem C10_empty_cell_tolerated b h a :
  a ∈ Board.cells b → Obj.cell (h !!! a) = [] →
  Cell.filled a h = (Ok false, h) ∧
  Cell.len a h = (Ok 0%nat, h) ∧
  Board.solved b h = (Ok false, h) ∧
  (∀ l, (Board.filled_cells b h).1 = Ok l → a ∉ l) ∧
  (Board.group_check b h).1 = Ok tt ∧
  Obj.cell ((Board.group_check b h).2 !!! a) = [] ∧
  Board.digit_of (h !!! a) = "0" ∧
  (∃ text, Board.setup_string b h = (Ok text, h)).
Proof.
  intros Ha Hc.
  assert (Cell.filled_of (h !!! a) = false) as Hf
    by (unfold Cell.filled_of; by rewrite Hc).
  split_and!.
  - unfold Cell.filled, bind, rd, gets; simpl. by rewrite Hf.
  - unfold Cell.len, bind, rd, gets; simpl. by rewrite Hc.
  - unfold Board.solved, Board.filled_cells, bind, gets; simpl.
    rewrite bool_decide_eq_false_2; [done|].
    intros Heq%filter_eq_Forall. rewrite Forall_forall in Heq.
    specialize (Heq a Ha). simpl in Heq. by rewrite Hf in Heq.
  - intros l [= <-]. intros [Hfa _]%list_elem_of_filter. by rewrite Hf in Hfa.
  - apply group_check_ok.
  - destruct (pres_shrinks_group_check b h) as [_ Hle].
    destruct (Hle a) as (_ & _ & _ & Hsub & _). rewrite Hc in Hsub.
    by apply sublist_nil_r in Hsub.
  - unfold Board.digit_of. by rewrite Hf.
  - by eexists.
Qed.

Lemma C10_empty_cell_tolerated_witness :
  (9%nat ∈ Board.cells board0) ∧
  Obj.cell ((Board.simple_check board0 (loaded puzzle_55)).2 !!! 9%nat) = [] ∧
  Board.solved board0 (Board.simple_check board0 (loaded puzzle_55)).2
  = (Ok false, (Board.simple_check board0 (loaded puzzle_55)).2) ∧
  (Board.group_check board0 (Board.simple_check board0 (loaded puzzle_55)).2).1 = Ok tt.
Proof.
  assert (9%nat ∈ Board.cells board0) as H1
    by (apply (bool_decide_unpack _); by vm_compute).
  assert (Obj.cell ((Board.simple_check board0 (loaded puzzle_55)).2 !!! 9%nat) = []) as H2
    by (by vm_compute).
  destruct (C10_empty_cell_tolerated board0 _ 9%nat H1 H2) as (_ & _ & H3 & _ & H4 & _).
  exact (conj H1 (conj H2 (conj H3 H4))).
Defined.

(** ** Boards built by [Board()] *)

Lemma groups_in_cells_board0 : groups_in_cells board0.
Proof.
  assert (Forall (λ g, Forall (λ a, a ∈ Board.cells board0) g)
                 (Py.values (Board.rows board0) ++ Py.values (Board.cols board0) ++
                  Py.values (Board.boxes board0))) as Hall
    by (apply (bool_decide_unpack _); by vm_compute).
  intros g a Hg Ha. rewrite Forall_forall in Hall. specialize (Hall g Hg).
  rewrite Forall_forall in Hall. by apply Hall.
Qed.

(** Every board returned by [Board()] has its groups made of its cells. *)
Lemma groups_in_cells_init h b h' : Board.init h = (Ok b, h') → groups_in_cells b.
Proof.
  rewrite init_spec. intros [= <- _] g a Hg Ha.
  cbn [shift_board Board.rows Board.cols Board.boxes Board.cells] in *.
  rewrite !values_shift_groups, <-!fmap_app in Hg.
  apply list_elem_of_fmap in Hg as (g0 & -> & Hg0).
  apply list_elem_of_fmap in Ha as (k & -> & Hk).
  apply list_elem_of_fmap. exists k. split; [done|].
  by apply (groups_in_cells_board0 g0).
Qed.

Lemma C9_basic_checks_idempotent_witness :
  groups_in_cells board0 ∧
  basic_checks board0 (loaded puzzle_guess) = (Ok tt, propagated puzzle_guess) ∧
  basic_checks board0 (propagated puzzle_guess) = (Ok tt, propagated puzzle_guess).
Proof.
  assert (basic_checks board0 (loaded puzzle_guess) = (Ok tt, propagated puzzle_guess)) as H2
    by (by vm_compute).
  exact (conj groups_in_cells_board0
           (conj H2 (C9_basic_checks_idempotent board0 _ _ groups_in_cells_board0 H2))).
Defined.

(** ** The order of [hits] does not matter *)

Lemma alter_fixed {A} (f : A → A) (l : list A) i :
  (∀ x, l !! i = Some x → f x = x) → alter f i l = l.
Proof.
  intros Hf. transitivity (alter id i l); [|by apply list_alter_id].
  by apply list_alter_ext.
Qed.

Lemma remove_value_strike cell hit h v :
  cell ≠ hit → Obj.cell (h !!! cell) !! 0%nat = Some v →
  Board.remove_value cell hit h = (Ok tt, alter (strike v) hit h).
Proof.
  intros Hne Hv.
  unfold Board.remove_value, Cell.item, Cell.remove, bind, rd, gets, or_raise, wr; simpl.
  rewrite Hv. simpl. unfold Py.contains. case_bool_decide as Hin; simpl.
  - rewrite Hv. simpl. destruct (list_remove_is_Some v _ Hin) as [l Hl].
    rewrite Hl. simpl. f_equal. apply list_alter_ext; [|done]. intros x Hx.
    unfold strike, Py.contains. rewrite list_lookup_total_alt, Hx in Hin, Hl.
    simpl in *. by rewrite bool_decide_eq_true_2, Hl.
  - f_equal. symmetry. apply alter_fixed. intros x Hx.
    unfold strike, Py.contains. rewrite list_lookup_total_alt, Hx in Hin.
    simpl in Hin. by rewrite bool_decide_eq_false_2.
Qed.

Lemma for_each_strike cell hs h v :
  cell ∉ hs → Obj.cell (h !!! cell) !! 0%nat = Some v →
  for_each hs (Board.remove_value cell) h
  = (Ok tt, foldl (λ h hit, alter (strike v) hit h) h hs).
Proof.
  revert h. induction hs as [|hit hs IH]; intros h Hnin Hv; [done|].
  apply not_elem_of_cons in Hnin as [Hne Hnin]. simpl. unfold bind.
  rewrite (remove_value_strike cell hit h v) by done.
  apply IH; [done|]. by rewrite list_lookup_total_alter_ne.
Qed.

Lemma foldl_strike_perm v hs hs' (h : Heap) :
  hs ≡ₚ hs' →
  foldl (λ h hit, alter (strike v) hit h) h hs
  = foldl (λ h hit, alter (strike v) hit h) h hs'.
Proof.
  intros Hp. revert h.
  induction Hp as [|x l l' _ IH|x y l|l l' l'' _ IH1 _ IH2]; intros h; simpl.
  - done.
  - apply IH.
  - destruct (decide (x = y)) as [->|Hne]; [done|].
    by rewrite list_alter_alter_ne.
  - by rewrite IH1.
Qed.

(** The inner loop of [simple_check] gives the same result for every
    order in which the cells hit by the source are visited. *)
Lemma remove_value_perm cell hs hs' h :
  cell ∉ hs → hs ≡ₚ hs' →
  for_each hs (Board.remove_value cell) h = for_each hs' (Board.remove_value cell) h.
Proof.
  intros Hnin Hp.
  assert (cell ∉ hs') as Hnin' by (by rewrite <-Hp).
  destruct (Obj.cell (h !!! cell) !! 0%nat) as [v|] eqn:Hv.
  - rewrite !(for_each_strike cell _ h v) by done. f_equal.
    by apply foldl_strike_perm.
  - assert (∀ l, l ≠ [] →
              for_each l (Board.remove_value cell) h = (Raise Py.IndexError, h)) as Hraise.
    { intros [|hit l] Hl; [done|]. simpl.
      unfold bind, Board.remove_value, Cell.item, bind, rd, gets, or_raise; simpl.
      by rewrite Hv. }
    destruct hs as [|hit hs].
    + by apply Permutation_nil_l in Hp as ->.
    + rewrite !Hraise; [done| |done].
      intros ->. by apply Permutation_nil_r in Hp.
Qed.

(** * More of the program *)

(** ** [Board()], [__getitem__] and [__setitem__] *)

Lemma range_elem lo hi z : z ∈ Py.range lo hi ↔ lo ≤ z < hi.
Proof. unfold Py.range. rewrite elem_of_seqZ. lia. Qed.

Lemma keys_elem key :
  key ∈ Py.prod (Py.range 1 10) (Py.range 1 10) ↔ 1 ≤ key.1 ≤ 9 ∧ 1 ≤ key.2 ≤ 9.
Proof. destruct key as [r c]. rewrite elem_of_prod, !range_elem. simpl. lia. Qed.

Lemma board0_keys :
  Forall (λ key,
    Board.df_at (Board.board board0) key = Some (offset key) ∧
    Board.cells board0 !! Z.to_nat (9 * (key.1 - 1) + (key.2 - 1)) = Some (offset key) ∧
    (offset key < 81)%nat ∧
    coords (cells0 !!! offset key) = (Some key.1, Some key.2, Some (box_of key)))
  (Py.prod (Py.range 1 10) (Py.range 1 10)).
Proof. apply (bool_decide_unpack _). by vm_compute. Qed.

Lemma board0_key key :
  1 ≤ key.1 ≤ 9 ∧ 1 ≤ key.2 ≤ 9 →
  Board.df_at (Board.board board0) key = Some (offset key) ∧
  Board.cells board0 !! Z.to_nat (9 * (key.1 - 1) + (key.2 - 1)) = Some (offset key) ∧
  (offset key < 81)%nat ∧
  coords (cells0 !!! offset key) = (Some key.1, Some key.2, Some (box_of key)).
Proof.
  intros Hkey%keys_elem. pose proof board0_keys as Htab.
  rewrite Forall_forall in Htab. by apply Htab.
Qed.

Lemma df_at_out_of_range df key :
  Forall (λ row, length row = 9%nat) df → length df = 9%nat →
  ¬ (1 ≤ key.1 ≤ 9 ∧ 1 ≤ key.2 ≤ 9) → Board.df_at df key = None.
Proof.
  intros Hrows Hlen Hkey. unfold Board.df_at. case_bool_decide as Hlow; [|done].
  destruct (df !! Z.to_nat (key.1 - 1)) as [row|] eqn:Hrow; simpl; [|done].
  apply lookup_ge_None_2. rewrite Forall_forall in Hrows.
  rewrite (Hrows row) by (by eapply list_elem_of_lookup_2).
  apply lookup_lt_Some in Hrow. lia.
Qed.

Lemma board0_frame_shape :
  Forall (λ row, length row = 9%nat) (Board.board board0) ∧
  length (Board.board board0) = 9%nat.
Proof. split; [apply (bool_decide_unpack _); by vm_compute|done]. Qed.

Lemma cells0_fresh :
  Forall (λ x, Obj.cell x = Py.range 1 10 ∧ Obj.unchecked x = true) cells0.
Proof. apply (bool_decide_unpack _). by vm_compute. Qed.

(** X1: [Board()] never fails.  It allocates 81 new cells behind the
    objects that exist and changes none of those; the cells of the new
    board are these 81 objects, each once, each holding the candidates 1..9
    and not yet propagated; and for every row [r] and column [c] in 1..9,
    [board[r, c]] is the cell at position [9*(r-1) + (c-1)] of [cells], with
    attributes [r], [c] and box [3*((r-1)//3) + (c-1)//3 + 1]. *)
Theorem X1_board_init h :
  ∃ b h',
    Board.init h = (Ok b, h') ∧
    length h' = (length h + 81)%nat ∧
    (∀ a, (a < length h)%nat → h' !!! a = h !!! a) ∧
    length (Board.cells b) = 81%nat ∧
    NoDup (Board.cells b) ∧
    (∀ a, a ∈ Board.cells b ↔ (length h ≤ a < length h + 81)%nat) ∧
    (∀ a, a ∈ Board.cells b →
          Obj.cell (h' !!! a) = [1; 2; 3; 4; 5; 6; 7; 8; 9] ∧
          Obj.unchecked (h' !!! a) = true) ∧
    (∀ r c, 1 ≤ r ≤ 9 → 1 ≤ c ≤ 9 →
       ∃ a, Board.getitem b (r, c) h' = (Ok a, h') ∧
            Board.cells b !! Z.to_nat (9 * (r - 1) + (c - 1)) = Some a ∧
            Obj.r (h' !!! a) = Some r ∧ Obj.c (h' !!! a) = Some c ∧
            Obj.box (h' !!! a) = Some (3 * ((r - 1) `div` 3) + (c - 1) `div` 3 + 1)).
Proof.
  exists (shift_board (length h) board0), (h ++ cells0).
  assert (Inj (=) (=) (Nat.add (length h))) by (intros x y ?; lia).
  assert (∀ a, a ∈ Board.cells (shift_board (length h) board0) ↔
               (length h ≤ a < length h + 81)%nat) as Hcells.
  { intros a. cbn [Board.cells shift_board]. rewrite list_elem_of_fmap. split.
    - intros (k & -> & Hk). pose proof board0_cells_fresh as Hf.
      rewrite Forall_forall in Hf. destruct (Hf k Hk). lia.
    - intros Ha. exists (a - length h)%nat. split; [lia|].
      pose proof board0_cells_all as Hall. rewrite Forall_forall in Hall.
      apply Hall, elem_of_seq. lia. }
  split_and!.
  - apply init_spec.
  - by rewrite length_app.
  - intros a Ha. by apply lookup_total_app_l.
  - cbn [Board.cells shift_board]. by rewrite length_fmap.
  - cbn [Board.cells shift_board]. apply (NoDup_fmap_2 _), board0_cells_NoDup.
  - done.
  - intros a [Hlo Hhi]%Hcells.
    replace a with (length h + (a - length h))%nat by lia.
    rewrite (lookup_total_shift (length h)) by done.
    pose proof cells0_fresh as Hf. rewrite Forall_forall in Hf.
    apply Hf, list_elem_of_lookup_total_2. rewrite cells0_length. lia.
  - intros r c Hr Hc.
    destruct (board0_key (r, c)) as (Hat & Hidx & Hlt & Hco); [done|].
    exists (length h + offset (r, c))%nat. cbn [fst snd] in Hidx, Hco.
    unfold Board.getitem, box_of in *. cbn [Board.board Board.cells shift_board fst snd] in *.
    rewrite df_at_shift, Hat, list_lookup_fmap, Hidx.
    rewrite (lookup_total_shift (length h)) by done.
    injection Hco as -> -> ->. done.
Qed.

Lemma board0_groups :
  Forall (λ da : list (Z * list loc) * (Obj.t → option Z),
    da.1.*1 = Py.range 1 10 ∧
    Forall (λ g, length g = 9%nat ∧ NoDup g) (Py.values da.1) ∧
    concat (Py.values da.1) ≡ₚ Board.cells board0 ∧
    Forall (λ ng : Z * list loc,
              ng.2 = filter (λ k, da.2 (cells0 !!! k) = Some ng.1) (Board.cells board0))
           da.1)
  [(Board.rows board0, Obj.r); (Board.cols board0, Obj.c); (Board.boxes board0, Obj.box)].
Proof.
  repeat constructor; try (apply (bool_decide_unpack _); by vm_compute).
Qed.

Lemma fst_shift_groups n d : (shift_groups n d).*1 = d.*1.
Proof. unfold shift_groups. rewrite <-list_fmap_compose. by apply list_fmap_ext. Qed.

(** X2: in the board made by [Board()], each of [rows], [cols] and
    [boxes] has the keys 1..9 in order, every group has nine distinct cells,
    the groups of one dict together are the 81 cells of the board, each once,
    and the group under key [n] is made of the cells whose [r] ([c], [box])
    is [n]. *)
Theorem X2_groups_partition h b h' :
  Board.init h = (Ok b, h') →
  Forall (λ da : list (Z * list loc) * (Obj.t → option Z),
    da.1.*1 = [1; 2; 3; 4; 5; 6; 7; 8; 9] ∧
    Forall (λ g, length g = 9%nat ∧ NoDup g) (Py.values da.1) ∧
    concat (Py.values da.1) ≡ₚ Board.cells b ∧
    (∀ n g a, Py.dict_get da.1 n = Some g →
              a ∈ g ↔ a ∈ Board.cells b ∧ da.2 (h' !!! a) = Some n))
  [(Board.rows b, Obj.r); (Board.cols b, Obj.c); (Board.boxes b, Obj.box)].
Proof.
  rewrite init_spec. intros [= <- <-]. set (n := length h).
  assert (Inj (=) (=) (Nat.add n)) by (intros x y ?; lia).
  pose proof board0_groups as Htab.
  cbn [shift_board Board.rows Board.cols Board.boxes Board.cells].
  assert (∀ (d : list (Z * list loc)) (attr : Obj.t → option Z),
    (d.*1 = Py.range 1 10 ∧
     Forall (λ g, length g = 9%nat ∧ NoDup g) (Py.values d) ∧
     concat (Py.values d) ≡ₚ Board.cells board0 ∧
     Forall (λ ng : Z * list loc,
               ng.2 = filter (λ k, attr (cells0 !!! k) = Some ng.1) (Board.cells board0)) d) →
    (shift_groups n d).*1 = [1; 2; 3; 4; 5; 6; 7; 8; 9] ∧
    Forall (λ g, length g = 9%nat ∧ NoDup g) (Py.values (shift_groups n d)) ∧
    concat (Py.values (shift_groups n d)) ≡ₚ shift n (Board.cells board0) ∧
    (∀ k g a, Py.dict_get (shift_groups n d) k = Some g →
              a ∈ g ↔ a ∈ shift n (Board.cells board0) ∧
                      attr ((h ++ cells0) !!! a) = Some k)) as Hshift.
  { intros d attr (Hkeys & Hgroups & Hperm & Hmem). split_and!.
    - by rewrite fst_shift_groups, Hkeys.
    - rewrite values_shift_groups. apply Forall_fmap.
      eapply Forall_impl; [exact Hgroups|]. intros g [Hlen Hnd]. simpl.
      split; [by rewrite length_fmap|by apply (NoDup_fmap_2 _)].
    - by rewrite values_shift_groups, concat_shift, Hperm.
    - intros k g a Hget.
      assert (∃ g0, g = shift n g0 ∧ (k, g0) ∈ d) as (g0 & -> & Hin).
      { clear -Hget. unfold shift_groups in Hget.
        induction d as [|[k' g'] d IH]; simpl in *; [done|].
        case_decide as Hk.
        - injection Hget as <-. subst k'. exists g'. split; [done|by left].
        - destruct (IH Hget) as (g0 & ? & ?). exists g0. split; [done|by right]. }
      rewrite Forall_forall in Hmem. specialize (Hmem _ Hin). simpl in Hmem.
      rewrite Hmem, !list_elem_of_fmap. split.
      + intros (k0 & -> & [Hattr Hk0]%list_elem_of_filter). split; [by exists k0|].
        by rewrite (lookup_total_shift n).
      + intros [(k0 & -> & Hk0) Hattr]. exists k0. split; [done|].
        apply list_elem_of_filter. split; [|done].
        by rewrite (lookup_total_shift n) in Hattr. }
  apply Forall_cons in Htab as [Hr Htab]. apply Forall_cons in Htab as [Hc Htab].
  apply Forall_cons in Htab as [Hb _]. cbn [fst snd] in Hr, Hc, Hb.
  apply Forall_cons. split; [exact (Hshift _ _ Hr)|].
  apply Forall_cons. split; [exact (Hshift _ _ Hc)|].
  apply Forall_cons. split; [exact (Hshift _ _ Hb)|]. constructor.
Qed.

Lemma X2_groups_partition_witness :
  Board.init [] = (Ok board0, cells0) ∧
  concat (Py.values (Board.rows board0)) ≡ₚ Board.cells board0.
Proof.
  pose proof (X2_groups_partition [] board0 cells0 init_nil) as Hall.
  apply Forall_cons in Hall as [(_ & _ & Hperm & _) _].
  exact (conj init_nil Hperm).
Defined.

(** ** [Board.hits] *)

#[local] Instance peers_dec k1 k2 : Decision (peers k1 k2).
Proof. unfold peers. apply _. Defined.

Lemma hits_table_ok : hits0 <$> seq 0 81 = hits_table.
Proof. by vm_compute. Qed.

Lemma hits_table_shape :
  Forall (λ l, length l = 20%nat ∧ NoDup l ∧ Forall (λ k', (k' < 81)%nat) l) hits_table.
Proof. apply (bool_decide_unpack _). by vm_compute. Qed.

Lemma hits_table_peers :
  Forall (λ kl : loc * list loc, Forall (peers kl.1) kl.2) (zip (seq 0 81) hits_table).
Proof. apply (bool_decide_unpack _). by vm_compute. Qed.

Lemma hits_table_lookup k : (k < 81)%nat → hits_table !! k = Some (hits0 k).
Proof.
  intros Hk. rewrite <-hits_table_ok, list_lookup_fmap, lookup_seq_lt by done. done.
Qed.

Lemma hits0_facts k :
  (k < 81)%nat →
  length (hits0 k) = 20%nat ∧ NoDup (hits0 k) ∧
  Forall (λ k', (k' < 81)%nat) (hits0 k) ∧
  ∀ k', (k' < 81)%nat → k' ∈ hits0 k ↔ peers k k'.
Proof.
  intros Hk. pose proof (hits_table_lookup k Hk) as Hl.
  pose proof hits_table_shape as Hshape. rewrite Forall_forall in Hshape.
  destruct (Hshape (hits0 k)) as (Hlen & Hnd & Hlt); [by eapply list_elem_of_lookup_2|].
  split_and!; try done. intros k' Hk'. split; [|by apply peers_in_hits0].
  intros Hin. pose proof hits_table_peers as Hp. rewrite Forall_forall in Hp.
  specialize (Hp (k, hits0 k)). cbn [fst snd] in Hp. rewrite Forall_forall in Hp.
  apply Hp; [|done]. apply (list_elem_of_lookup_2 _ k).
  rewrite lookup_zip_with, lookup_seq_lt, Hl by done. done.
Qed.

Lemma dict_get_shift_groups n d (key : Z) :
  Py.dict_get (shift_groups n d) key = shift n <$> Py.dict_get d key.
Proof.
  unfold shift_groups. induction d as [|[k g] d IH]; simpl; [done|].
  by case_decide.
Qed.

Lemma list_remove_shift n k (l : list loc) :
  Py.list_remove (n + k)%nat (shift n l) = shift n <$> Py.list_remove k l.
Proof.
  induction l as [|x l IH]; csimpl; [done|].
  destruct (decide (x = k)) as [->|Hne].
  - by rewrite decide_True.
  - rewrite decide_False by lia. rewrite IH. by destruct (Py.list_remove k l).
Qed.

Lemma remove_dups_shift n (l : list loc) :
  remove_dups (shift n l) = shift n (remove_dups l).
Proof.
  induction l as [|x l IH]; csimpl; [done|].
  assert (x ∈ l ↔ (n + x)%nat ∈ shift n l) as Hiff.
  { rewrite list_elem_of_fmap. split; [by exists x|].
    intros (y & Hy & Hin). by assert (y = x) as -> by lia. }
  destruct (decide_rel elem_of x l) as [Hin|Hnin],
           (decide_rel elem_of (n + x)%nat (shift n l)) as [Hin'|Hnin'];
    rewrite ?IH; try done.
  - by apply Hiff in Hin.
  - by apply Hiff in Hin'.
Qed.

Lemma on_board0_on_board h : on_board0 h ↔ on_board 0 h.
Proof. done. Qed.

Lemma on_board_shrinks n h h' : on_board n h → shrinks h h' → on_board n h'.
Proof.
  intros Hh [_ Hle] k Hk. rewrite <-(Hh k Hk).
  destruct (Hle (n + k)%nat) as (Hr & Hc & Hb & _). unfold coords. by rewrite Hr, Hc, Hb.
Qed.

(** On a board made by [Board()], [hits] is the relocated table [hits0]. *)
Lemma hits_shift_gen n b h0 h k l :
  coords (h !!! (n + k)%nat) = coords (h0 !!! k) →
  (Board.hits b k h0).1 = Ok l →
  Board.hits (shift_board n b) (n + k) h = (Ok (shift n l), h).
Proof.
  intros [= Hr Hc Hb]. destruct b as [bd cs rows cols boxes].
  unfold Board.hits, bind, rd, gets, or_raise.
  cbn [fst snd shift_board Board.rows Board.cols Board.boxes].
  rewrite Hr, Hc, Hb.
  destruct (Obj.r (h0 !!! k)) as [r|]; csimpl; [|done].
  rewrite dict_get_shift_groups.
  destruct (Py.dict_get rows r) as [in_row|]; csimpl; [|done].
  destruct (Obj.c (h0 !!! k)) as [c|]; csimpl; [|done].
  rewrite dict_get_shift_groups.
  destruct (Py.dict_get cols c) as [in_col|]; csimpl; [|done].
  destruct (Obj.box (h0 !!! k)) as [bx|]; csimpl; [|done].
  rewrite dict_get_shift_groups.
  destruct (Py.dict_get boxes bx) as [in_box|]; csimpl; [|done].
  unfold Py.list_set. rewrite <-!fmap_app, remove_dups_shift, list_remove_shift.
  destruct (Py.list_remove k _) as [hs|]; csimpl; [|done].
  by intros [= <-].
Qed.

Lemma hits_shift n h k :
  on_board n h → (k < 81)%nat →
  Board.hits (shift_board n board0) (n + k) h = (Ok (shift n (hits0 k)), h).
Proof.
  intros Hh Hk. apply (hits_shift_gen n board0 cells0); [by apply Hh|].
  pose proof hits0_ok as Htab. rewrite Forall_forall in Htab.
  apply Htab, elem_of_seq. lia.
Qed.

(** X3: on a board made by [Board()], whatever has happened to the
    candidates since, [hits(cell)] returns, without changing anything, 20
    distinct cells: the cells of the board other than [cell] that have the
    row, the column or the box of [cell]. *)
Theorem X3_hits_are_the_20_peers n h k :
  on_board n h → (k < 81)%nat →
  ∃ hs, Board.hits (shift_board n board0) (n + k) h = (Ok hs, h) ∧
        length hs = 20%nat ∧ NoDup hs ∧
        ∀ a, a ∈ hs ↔
             a ≠ (n + k)%nat ∧ a ∈ Board.cells (shift_board n board0) ∧
             (Obj.r (h !!! a) = Obj.r (h !!! (n + k)%nat) ∨
              Obj.c (h !!! a) = Obj.c (h !!! (n + k)%nat) ∨
              Obj.box (h !!! a) = Obj.box (h !!! (n + k)%nat)).
Proof.
  intros Hh Hk. exists (shift n (hits0 k)).
  assert (Inj (=) (=) (Nat.add n)) by (intros x y ?; lia).
  destruct (hits0_facts k Hk) as (Hlen & Hnd & Hlt & Hmem).
  rewrite Forall_forall in Hlt.
  split_and!.
  - by apply hits_shift.
  - by rewrite length_fmap.
  - by apply (NoDup_fmap_2 _).
  - intros a. cbn [Board.cells shift_board]. rewrite !list_elem_of_fmap. split.
    + intros (k' & -> & Hk'). pose proof (Hlt k' Hk') as Hlt'.
      apply Hmem in Hk' as [Hne Hsame]; [|done].
      split; [lia|]. split.
      * exists k'. split; [done|]. pose proof board0_cells_all as Hall.
        rewrite Forall_forall in Hall. apply Hall, elem_of_seq. lia.
      * pose proof (Hh k Hk) as [= Hr1 Hc1 Hb1].
        pose proof (Hh k' Hlt') as [= Hr2 Hc2 Hb2].
        rewrite Hr1, Hc1, Hb1, Hr2, Hc2, Hb2.
        destruct Hsame as [?|[?|?]]; auto.
    + intros (Hne & (k' & -> & Hk') & Hsame).
      pose proof board0_cells_fresh as Hf. rewrite Forall_forall in Hf.
      destruct (Hf k' Hk') as [Hlt' _].
      exists k'. split; [done|]. apply Hmem; [done|].
      split; [lia|].
      pose proof (Hh k Hk) as [= Hr1 Hc1 Hb1]. pose proof (Hh k' Hlt') as [= Hr2 Hc2 Hb2].
      rewrite Hr1, Hc1, Hb1, Hr2, Hc2, Hb2 in Hsame.
      destruct Hsame as [?|[?|?]]; auto.
Qed.

Lemma on_board_fresh h : on_board (length h) (h ++ cells0).
Proof. intros k Hk. by rewrite (lookup_total_shift (length h)). Qed.

Lemma X3_hits_are_the_20_peers_witness :
  on_board 0 cells0 ∧
  ∃ hs, Board.hits board0 0 cells0 = (Ok hs, cells0) ∧ length hs = 20%nat.
Proof.
  assert (on_board 0 cells0) as H1 by (intros k Hk; reflexivity).
  assert (0 < 81)%nat as H2 by lia.
  destruct (X3_hits_are_the_20_peers 0 cells0 0 H1 H2) as (hs & Hrun & Hlen & _).
  split; [exact H1|]. exists hs. split; [exact Hrun|exact Hlen].
Defined.

(** ** Indexing a board *)

Lemma getitem_init n key h :
  Board.getitem (shift_board n board0) key h =
  (if bool_decide (1 ≤ key.1 ≤ 9 ∧ 1 ≤ key.2 ≤ 9)
   then Ok (n + offset key)%nat else Raise Py.KeyError, h).
Proof.
  unfold Board.getitem. cbn [Board.board shift_board]. rewrite df_at_shift.
  case_bool_decide as Hkey.
  - by destruct (board0_key key Hkey) as (-> & _).
  - destruct board0_frame_shape as [Hrows Hlen].
    by rewrite (df_at_out_of_range _ _ Hrows Hlen Hkey).
Qed.

(** X4: on a board made by [Board()], [board[r, c]] with [r] and [c] in
    1..9 returns a cell of the board, and [board[r, c] = value] replaces the
    candidate list of that cell and nothing else; with [r] or [c] outside
    1..9 both raise [KeyError] and change nothing. *)
Theorem X4_getitem_setitem h0 b h1 h key value :
  Board.init h0 = (Ok b, h1) → (length h1 ≤ length h)%nat →
  if bool_decide (1 ≤ key.1 ≤ 9 ∧ 1 ≤ key.2 ≤ 9) then
    ∃ a h', Board.getitem b key h = (Ok a, h) ∧ a ∈ Board.cells b ∧
            Board.setitem b key value h = (Ok tt, h') ∧
            Board.getitem b key h' = (Ok a, h') ∧
            h' !!! a = Obj.set_cell value (h !!! a) ∧
            length h' = length h ∧ ∀ a', a' ≠ a → h' !!! a' = h !!! a'
  else
    Board.getitem b key h = (Raise Py.KeyError, h) ∧
    Board.setitem b key value h = (Raise Py.KeyError, h).
Proof.
  rewrite init_spec. intros [= <- <-]. rewrite length_app, cells0_length. intros Hlen.
  unfold Board.setitem, bind. rewrite !getitem_init.
  case_bool_decide as Hkey; [|done].
  destruct (board0_key key Hkey) as (_ & _ & Hlt & _).
  exists (length h0 + offset key)%nat, (alter (Obj.set_cell value) (length h0 + offset key)%nat h).
  split_and!; try done.
  - cbn [Board.cells shift_board]. apply list_elem_of_fmap. exists (offset key).
    split; [done|]. pose proof board0_cells_all as Hall.
    rewrite Forall_forall in Hall. apply Hall, elem_of_seq. lia.
  - by rewrite getitem_init, bool_decide_true.
  - apply list_lookup_total_alter_eq. lia.
  - apply length_alter.
  - intros a' Hne. by apply list_lookup_total_alter_ne.
Qed.

Lemma X4_getitem_setitem_witness :
  Board.getitem board0 (0, 5) cells0 = (Raise Py.KeyError, cells0) ∧
  Board.setitem board0 (0, 5) [7] cells0 = (Raise Py.KeyError, cells0).
Proof.
  exact (X4_getitem_setitem [] board0 cells0 cells0 (0, 5) [7] init_nil (le_n _)).
Defined.

(** ** [setup] and [setup_string] *)

Lemma int_is_digit ch : is_digit ch → Py.int ch = Some (digit_value ch).
Proof. intros Hd. unfold Py.int. by rewrite bool_decide_true. Qed.

Lemma int_not_digit ch : ¬ is_digit ch → Py.int ch = None.
Proof. intros Hd. unfold Py.int. by rewrite bool_decide_false. Qed.

Lemma fill_cell_is_digit ch a h :
  is_digit ch → Board.fill_cell ch a h = (Ok tt, alter (setup_cell (Some ch)) a h).
Proof.
  intros Hd. unfold Board.fill_cell, bind, or_raise. rewrite int_is_digit by done.
  simpl. unfold wr, ret, setup_cell. case_bool_decide as Hz; simpl.
  - by destruct (decide (digit_value ch = 0)).
  - destruct (decide (digit_value ch = 0)); [|done].
    f_equal. symmetry. by apply alter_fixed.
Qed.

Lemma setup_loop_chars (cs : list ascii) (addrs : list loc) h :
  NoDup addrs → Forall (λ a, (a < length h)%nat) addrs →
  Forall is_digit (take (length addrs) cs) →
  ∃ h', for_each (zip cs addrs) (λ '(fill, cell), Board.fill_cell fill cell) h = (Ok tt, h') ∧
        length h' = length h ∧
        (∀ a, a ∉ addrs → h' !!! a = h !!! a) ∧
        (∀ i a, addrs !! i = Some a → h' !!! a = setup_cell (cs !! i) (h !!! a)).
Proof.
  intros Hnd. revert cs h.
  induction Hnd as [|a addrs Ha Hnd IH]; intros cs h Hlt Hd.
  { exists h. rewrite zip_with_nil_r. by split_and!. }
  destruct cs as [|ch cs].
  { exists h. by split_and!. }
  apply Forall_cons in Hlt as [Hlta Hlt]. simpl in Hd. apply Forall_cons in Hd as [Hch Hd].
  simpl. unfold bind at 1. rewrite fill_cell_is_digit by done.
  set (h1 := alter (setup_cell (Some ch)) a h).
  assert (length h1 = length h) as Hlen1 by apply length_alter.
  destruct (IH cs h1) as (h' & Hrun & Hlen' & Hframe & Hall); [by rewrite Hlen1|done|].
  exists h'. split; [exact Hrun|]. split; [lia|]. split.
  - intros a' [Hne Hnin]%not_elem_of_cons. rewrite Hframe by done.
    by apply list_lookup_total_alter_ne.
  - intros [|i] a'; simpl.
    + intros [= <-]. rewrite Hframe by done.
      exact (list_lookup_total_alter_eq (setup_cell (Some ch)) h a Hlta).
    + intros Hi. rewrite (Hall i a' Hi). f_equal.
      apply list_lookup_total_alter_ne. intros <-. by apply list_elem_of_lookup_2 in Hi.
Qed.

Lemma cells_shift_length n : length (Board.cells (shift_board n board0)) = 81%nat.
Proof. cbn [Board.cells shift_board]. by rewrite length_fmap. Qed.

Lemma cells_shift_NoDup n : NoDup (Board.cells (shift_board n board0)).
Proof.
  assert (Inj (=) (=) (Nat.add n)) by (intros x y ?; lia).
  cbn [Board.cells shift_board]. apply (NoDup_fmap_2 _), board0_cells_NoDup.
Qed.

Lemma cells_shift_elem n a :
  a ∈ Board.cells (shift_board n board0) ↔ (n ≤ a < n + 81)%nat.
Proof.
  cbn [Board.cells shift_board]. rewrite list_elem_of_fmap. split.
  - intros (k & -> & Hk). pose proof board0_cells_fresh as Hf.
    rewrite Forall_forall in Hf. destruct (Hf k Hk). lia.
  - intros Ha. exists (a - n)%nat. split; [lia|].
    pose proof board0_cells_all as Hall. rewrite Forall_forall in Hall.
    apply Hall, elem_of_seq. lia.
Qed.

Lemma setup_targets n h :
  map_m (Board.getitem (shift_board n board0))
        (Py.prod (Py.range 1 10) (Py.range 1 10)) h =
  (Ok (Board.cells (shift_board n board0)), h).
Proof. apply (getitem_shift n board0 _ _ _ board0_targets). Qed.

Lemma setup_spec n text h :
  (n + 81 ≤ length h)%nat →
  Forall is_digit (take 81 (list_ascii_of_string text)) →
  ∃ h', Board.setup (shift_board n board0) text h = (Ok tt, h') ∧
        length h' = length h ∧
        (∀ a, a ∉ Board.cells (shift_board n board0) → h' !!! a = h !!! a) ∧
        (∀ i a, Board.cells (shift_board n board0) !! i = Some a →
                h' !!! a = setup_cell (list_ascii_of_string text !! i) (h !!! a)).
Proof.
  intros Hlen Hd. unfold Board.setup, bind. rewrite setup_targets.
  apply setup_loop_chars.
  - apply cells_shift_NoDup.
  - apply Forall_forall. intros a Ha%cells_shift_elem. lia.
  - by rewrite cells_shift_length.
Qed.

(** X5: on a board made by [Board()], [setup(text)] with a text whose
    first 81 characters are digits returns normally; character [i] of the
    text, if it is not ['0'], replaces the candidates of cell [i] of
    [cells] (row by row) by its digit alone; the cells of a ['0'], the cells
    beyond a shorter text and every other attribute and object are left as
    they are, and the characters after the 81st are ignored. *)
Theorem X5_setup_assigns h0 b h1 h text :
  Board.init h0 = (Ok b, h1) → (length h1 ≤ length h)%nat →
  Forall is_digit (take 81 (list_ascii_of_string text)) →
  ∃ h', Board.setup b text h = (Ok tt, h') ∧
        length h' = length h ∧
        (∀ a, a ∉ Board.cells b → h' !!! a = h !!! a) ∧
        (∀ i a, Board.cells b !! i = Some a →
                h' !!! a =
                match list_ascii_of_string text !! i with
                | Some ch => if decide (ch = "0"%char) then h !!! a
                             else Obj.set_cell [digit_value ch] (h !!! a)
                | None => h !!! a
                end).
Proof.
  rewrite init_spec. intros [= <- <-]. rewrite length_app, cells0_length. intros Hlen Hd.
  destruct (setup_spec (length h0) text h Hlen Hd) as (h' & Hrun & Hlen' & Hframe & Hall).
  exists h'. split_and!; try done.
  intros i a Hi. rewrite (Hall i a Hi). unfold setup_cell.
  destruct (list_ascii_of_string text !! i) as [ch|] eqn:Hch; [|done].
  assert (is_digit ch) as Hdig.
  { rewrite Forall_forall in Hd. apply Hd. apply (list_elem_of_lookup_2 _ i).
    rewrite lookup_take_lt; [done|]. apply lookup_lt_Some in Hi.
    rewrite cells_shift_length in Hi. done. }
  destruct (decide (ch = "0"%char)) as [->|Hne]; [done|].
  rewrite decide_False; [done|]. intros Hz. apply Hne.
  rewrite <-(ascii_nat_embedding ch). unfold digit_value in Hz.
  replace (nat_of_ascii ch) with 48%nat by lia. done.
Qed.

Lemma X5_setup_assigns_witness :
  ∃ h', Board.setup board0 "07" cells0 = (Ok tt, h') ∧
        Obj.cell (h' !!! 9%nat) = [7].
Proof.
  assert (Forall is_digit (take 81 (list_ascii_of_string "07"))) as Hd.
  { unfold is_digit. repeat constructor; simpl; lia. }
  destruct (X5_setup_assigns [] board0 cells0 cells0 "07" init_nil (le_n _) Hd)
    as (h' & Hrun & _ & _ & Hall).
  exists h'. split; [exact Hrun|].
  by rewrite (Hall 1%nat 9%nat eq_refl).
Defined.

Lemma digit_char_value ch : is_digit ch → digit_char (digit_value ch) = ch.
Proof.
  intros Hd. unfold digit_char, digit_value, is_digit in *.
  replace (Z.to_nat (Z.of_nat (nat_of_ascii ch) - 48 + 48)) with (nat_of_ascii ch) by lia.
  apply ascii_nat_embedding.
Qed.

Lemma digit_of_setup_cell fill x :
  Obj.cell x = Py.range 1 10 → from_option is_digit True fill →
  Board.digit_of (setup_cell fill x) = String (default "0"%char fill) "".
Proof.
  intros Hx Hd. destruct fill as [ch|]; simpl in *.
  - destruct (decide (digit_value ch = 0)) as [Hz|Hz].
    + unfold Board.digit_of, Cell.filled_of. rewrite Hx. simpl. f_equal.
      rewrite <-(digit_char_value ch), Hz by done. done.
    + unfold Board.digit_of, Cell.filled_of. simpl.
      rewrite str_digit by (unfold digit_value, is_digit in *; lia).
      by rewrite digit_char_value.
  - unfold Board.digit_of, Cell.filled_of. by rewrite Hx.
Qed.

Lemma pad81_lookup cs i :
  (i < 81)%nat → pad81 cs !! i = Some (default "0"%char (cs !! i)).
Proof.
  intros Hi. unfold pad81. rewrite lookup_take_lt by done.
  destruct (cs !! i) as [ch|] eqn:Hch.
  - simpl. by apply lookup_app_l_Some.
  - apply lookup_ge_None in Hch. rewrite lookup_app_r by done.
    cbn [default]. apply lookup_replicate_2. lia.
Qed.

Lemma list_ascii_length s : length (list_ascii_of_string s) = String.length s.
Proof. induction s as [|c s IH]; simpl; [done|by rewrite IH]. Qed.

Lemma pad81_length cs : length (pad81 cs) = 81%nat.
Proof. unfold pad81. rewrite length_take, length_app, length_replicate. lia. Qed.

Lemma pad81_exact cs : length cs = 81%nat → pad81 cs = cs.
Proof.
  intros Hlen. unfold pad81. rewrite take_app_le by lia. apply take_ge. lia.
Qed.

(** X6: after [b = Board(); b.setup(text)] with a text whose first 81
    characters are digits, [b.setup_string] is the text cut or filled with
    ['0'] to 81 characters; for a text of exactly 81 digits it is the text
    itself. *)
Theorem X6_setup_string_round_trip h0 b h1 text :
  Board.init h0 = (Ok b, h1) →
  Forall is_digit (take 81 (list_ascii_of_string text)) →
  ∃ h2, Board.setup b text h1 = (Ok tt, h2) ∧
        Board.setup_string b h2 =
          (Ok (string_of_list_ascii (pad81 (list_ascii_of_string text))), h2) ∧
        (String.length text = 81%nat → Board.setup_string b h2 = (Ok text, h2)).
Proof.
  rewrite init_spec. intros [= <- <-] Hd. set (n := length h0).
  destruct (setup_spec n text (h0 ++ cells0)) as (h2 & Hrun & Hlen & Hframe & Hall);
    [by rewrite length_app, cells0_length|done|].
  exists h2. split; [exact Hrun|].
  assert (Board.setup_string_of (shift_board n board0) h2 =
          string_of_list_ascii (pad81 (list_ascii_of_string text))) as Hstr.
  { unfold Board.setup_string_of. rewrite <-concat_chars. f_equal.
    apply list_eq. intros i. rewrite !list_lookup_fmap.
    destruct (decide (i < 81)%nat) as [Hi|Hi].
    - rewrite pad81_lookup by done.
      destruct (Board.cells (shift_board n board0) !! i) as [a|] eqn:Ha.
      2:{ apply lookup_ge_None in Ha. rewrite cells_shift_length in Ha. lia. }
      simpl. f_equal. rewrite (Hall i a Ha). apply digit_of_setup_cell.
      + apply list_elem_of_lookup_2 in Ha.
        cbn [Board.cells shift_board] in Ha.
        apply list_elem_of_fmap in Ha as (k & -> & Hk).
        rewrite (lookup_total_shift n) by done.
        pose proof board0_cells_fresh as Hf. rewrite Forall_forall in Hf.
        by destruct (Hf k Hk).
      + destruct (list_ascii_of_string text !! i) as [ch|] eqn:Hch; [|done]. simpl.
        rewrite Forall_forall in Hd. apply Hd, (list_elem_of_lookup_2 _ i).
        by rewrite lookup_take_lt.
    - rewrite !lookup_ge_None_2; [done| |].
      + rewrite pad81_length. lia.
      + rewrite cells_shift_length. lia. }
  unfold Board.setup_string, gets. rewrite Hstr. split; [done|].
  intros Hlen81. rewrite pad81_exact.
  - by rewrite string_of_list_ascii_of_string.
  - by rewrite list_ascii_length.
Qed.

Lemma X6_setup_string_round_trip_witness :
  ∃ h2, Board.setup board0 "5" cells0 = (Ok tt, h2) ∧
        Board.setup_string board0 h2 =
          (Ok (string_of_list_ascii (pad81 (list_ascii_of_string "5"))), h2).
Proof.
  assert (Forall is_digit (take 81 (list_ascii_of_string "5"))) as Hd.
  { unfold is_digit. repeat constructor; simpl; lia. }
  destruct (X6_setup_string_round_trip [] board0 cells0 "5" init_nil Hd)
    as (h2 & Hrun & Hstr & _).
  exists h2. exact (conj Hrun Hstr).
Defined.

Lemma setup_loop_ok (cs : list ascii) (addrs : list loc) h :
  Forall is_digit cs →
  (for_each (zip cs addrs) (λ '(fill, cell), Board.fill_cell fill cell) h).1 = Ok tt.
Proof.
  intros Hd. revert addrs h.
  induction Hd as [|ch cs Hch _ IH]; intros [|a addrs] h; try done.
  simpl. unfold bind. rewrite fill_cell_is_digit by done. apply IH.
Qed.

(** X7: [setup(text)] on a board made by [Board()] raises [ValueError] at
    the first character, among the first 81, that is not a digit; the cells
    of the characters before it have been assigned by then, exactly as
    [setup] of that shorter text would have done, and the rest of the text
    is not looked at. *)
Theorem X7_setup_bad_character h0 b h1 h text pre ch post :
  Board.init h0 = (Ok b, h1) →
  list_ascii_of_string text = pre ++ ch :: post →
  Forall is_digit pre → (length pre < 81)%nat →
  (nat_of_ascii ch < 128)%nat → ¬ is_digit ch →
  Board.setup b text h =
  (Raise Py.ValueError, (Board.setup b (string_of_list_ascii pre) h).2) ∧
  (Board.setup b (string_of_list_ascii pre) h).1 = Ok tt.
Proof.
  rewrite init_spec. intros [= <- <-] Htext Hpre Hlen _ Hch. set (n := length h0).
  unfold Board.setup, bind.
  rewrite !setup_targets, Htext, list_ascii_of_string_of_list_ascii.
  set (cells := Board.cells (shift_board n board0)).
  assert (length cells = 81%nat) as Hcells by apply cells_shift_length.
  set (body := λ '(fill, cell), Board.fill_cell fill cell).
  rewrite zip_with_app_l, for_each_app, zip_with_take_r.
  pose proof (setup_loop_ok pre cells h Hpre) as Hok. fold body in Hok.
  destruct (for_each (zip pre cells) body h) as [[[]|e] h'] eqn:Hrun; [|done].
  split; [|done]. simpl.
  destruct (drop (length pre) cells) as [|a rest] eqn:Hdrop.
  { apply (f_equal length) in Hdrop. rewrite length_drop in Hdrop. simpl in Hdrop. lia. }
  simpl. unfold bind, Board.fill_cell at 1, bind, or_raise.
  by rewrite int_not_digit.
Qed.

Lemma X7_setup_bad_character_witness :
  Board.setup board0 "4x" cells0 =
  (Raise Py.ValueError, (Board.setup board0 "4" cells0).2).
Proof.
  refine (proj1 (X7_setup_bad_character [] board0 cells0 cells0 "4x"
                   ["4"%char] "x"%char [] init_nil eq_refl _ _ _ _)).
  - unfold is_digit. repeat constructor; simpl; lia.
  - simpl. lia.
  - apply (bool_decide_unpack _). by vm_compute.
  - unfold is_digit. apply (bool_decide_unpack _). by vm_compute.
Defined.
(** ** The driver terminates *)

#[local] Instance grows_preorder : PreOrder grows.
Proof.
  split.
  - intros h. split; [done|]. intros a _. reflexivity.
  - intros h1 h2 h3 [L12 H12] [L23 H23]. split; [lia|].
    intros a Ha. etrans; [by apply H12|]. apply H23. lia.
Qed.

Lemma shrinks_grows h h' : shrinks h h' → grows h h'.
Proof. intros [Hlen Hle]. split; [lia|]. intros a _. apply Hle. Qed.

Lemma kept_grows h h' : kept (length h) h h' → grows h h'.
Proof.
  intros Hk. destruct Hk as [Hlen Heq]; [done|]. split; [done|].
  intros a Ha. rewrite Heq by done. reflexivity.
Qed.

Lemma take_lookup_total (h : Heap) n a : (a < n)%nat → take n h !!! a = h !!! a.
Proof. intros Ha. by rewrite !list_lookup_total_alt, lookup_take_lt. Qed.

Lemma grows_take h h' : grows h h' → shrinks h (take (length h) h').
Proof.
  intros [Hlen Hle]. split; [rewrite length_take; lia|]. intros a.
  destruct (decide (a < length h)%nat) as [Ha|Ha].
  - rewrite take_lookup_total by done. by apply Hle.
  - rewrite !list_lookup_total_alt, !lookup_ge_None_2; [reflexivity| |]; [|lia].
    rewrite length_take. lia.
Qed.

Lemma str_cells_take b h n :
  Forall (λ a, (a < n)%nat) (Board.cells b) →
  Board.str_cells_of b (take n h) = Board.str_cells_of b h.
Proof.
  intros Hall. unfold Board.str_cells_of. apply Forall_fmap_ext.
  eapply Forall_impl; [exact Hall|]. intros a Ha. simpl.
  by rewrite take_lookup_total.
Qed.

Lemma total_take b h n :
  Forall (λ a, (a < n)%nat) (Board.cells b) → total b (take n h) = total b h.
Proof. intros Hall. by rewrite !total_str_cells, str_cells_take. Qed.

Lemma grows_total b h h' :
  allocated b h → grows h h' → (total b h' ≤ total b h)%nat.
Proof.
  intros Hal Hg. rewrite <-(total_take b h' (length h)) by done.
  by apply shrinks_total, grows_take.
Qed.

Lemma grows_changed b h h' :
  allocated b h → grows h h' →
  Board.str_cells_of b h ≠ Board.str_cells_of b h' → (total b h' < total b h)%nat.
Proof.
  intros Hal Hg Hne. rewrite <-(total_take b h' (length h)) by done.
  apply shrinks_changed; [by apply grows_take|]. by rewrite str_cells_take.
Qed.

Lemma grows_allocated b h h' : allocated b h → grows h h' → allocated b h'.
Proof.
  intros Hal [Hlen _]. eapply Forall_impl; [exact Hal|]. intros a Ha. simpl in *. lia.
Qed.

Lemma pres_grows_shrinks {A} (m : M A) h : pres shrinks m h → pres grows m h.
Proof. apply shrinks_grows. Qed.

Lemma pres_shrinks_trial_handler cell h : pres shrinks (trial_handler cell) h.
Proof.
  unfold trial_handler. pres_step; [pres_step|].
  match goal with H : _ = Ok ?x |- _ => rename H into Hv; rename x into v end.
  apply pres_shrinks_wr. unfold Cell.item, bind, rd, gets, or_raise in Hv.
  cbn [fst snd] in Hv.
  destruct (Obj.cell (h !!! cell) !! 1%nat) as [v'|] eqn:Hv'; [|done].
  injection Hv as <-. rewrite (read_only_item cell 1 h).
  split_and!; try done. cbn [Obj.cell Obj.set_cell].
  apply singleton_sublist_l. by eapply list_elem_of_lookup_2.
Qed.

Lemma pres_grows_trial board cell h : pres grows (trial board cell) h.
Proof.
  unfold trial. apply (pres_try_except grows).
  - apply kept_grows, pres_kept_trial_body.
  - apply pres_grows_shrinks, pres_shrinks_trial_handler.
Qed.

Lemma pres_grows_simple_brute_check board h : pres grows (simple_brute_check board) h.
Proof.
  unfold simple_brute_check. pres_step; [pres_step|].
  apply (pres_for_each grows). intros cell _ h'. apply pres_grows_trial.
Qed.

Lemma pres_grows_basic_checks b h : pres grows (basic_checks b) h.
Proof.
  apply pres_grows_shrinks, (pres_basic_checks shrinks);
    [apply pres_shrinks_simple_check | apply pres_shrinks_group_check].
Qed.

Lemma solve_cycle_unfold board h :
  solve_cycle board h =
  match basic_checks board h with
  | (Ok _, h1) =>
      if bool_decide (filter (λ cell, Cell.filled_of (h1 !!! cell))
                             (Board.cells board) = Board.cells board)
      then (Ok Solved, h1)
      else match simple_brute_check board h1 with
           | (Ok _, h2) =>
               (Ok (if bool_decide (Board.str_cells_of board h =
                                    Board.str_cells_of board h2)
                    then Stuck else Again), h2)
           | (Raise e, h2) => (Raise e, h2)
           end
  | (Raise e, h1) => (Raise e, h1)
  end.
Proof.
  unfold solve_cycle, bind, Board.str_cells, gets; simpl.
  destruct (basic_checks board h) as [[[]|e] h1]; [|done]. simpl.
  case_bool_decide; [done|].
  destruct (simple_brute_check board h1) as [[[]|?] h2]; [|done].
  by case_bool_decide.
Qed.

Lemma pres_grows_solve_cycle board h : pres grows (solve_cycle board) h.
Proof.
  unfold pres. rewrite solve_cycle_unfold.
  pose proof (pres_grows_basic_checks board h) as H1. unfold pres in H1.
  destruct (basic_checks board h) as [[[]|e] h1]; simpl in *; [|done].
  case_bool_decide; [done|].
  pose proof (pres_grows_simple_brute_check board h1) as H2. unfold pres in H2.
  destruct (simple_brute_check board h1) as [[[]|?] h2]; simpl in *; by etrans.
Qed.

Lemma solve_cycle_again board h h' :
  solve_cycle board h = (Ok Again, h') →
  Board.str_cells_of board h ≠ Board.str_cells_of board h'.
Proof.
  rewrite solve_cycle_unfold.
  destruct (basic_checks board h) as [[[]|e] h1]; [|done].
  case_bool_decide; [done|].
  destruct (simple_brute_check board h1) as [[[]|?] h2]; [|done].
  case_bool_decide; [done|]. by intros [= <-].
Qed.

Lemma solve_enough board N :
  ∀ h, allocated board h → (total board h < N)%nat →
       ∃ res, (∀ fuel, (total board h < fuel)%nat → solve fuel board h = Some res) ∧
              res.1 ≠ Ok Again ∧ grows h res.2.
Proof.
  induction N as [|N IH]; intros h Hal HN; [lia|].
  pose proof (pres_grows_solve_cycle board h) as Hg. unfold pres in Hg.
  destruct (solve_cycle board h) as [o h1] eqn:Hc. simpl in Hg.
  assert (o = Ok Again ∨ o ≠ Ok Again) as [->|Hne]
    by (destruct o as [[]|]; (by left) || (by right)).
  - pose proof (grows_changed board h h1 Hal Hg (solve_cycle_again _ _ _ Hc)) as Hlt.
    destruct (IH h1) as (res & Hres & Hfin & Hg1); [by eapply grows_allocated|lia|].
    exists res. split_and!; [|done|by etrans].
    intros [|fuel] Hfuel; [lia|]. simpl. rewrite Hc. apply Hres. lia.
  - exists (o, h1). split_and!; try done.
    intros [|fuel] Hfuel; [lia|]. simpl. rewrite Hc.
    destruct o as [[]|]; done.
Qed.

(** X8: [solve()] terminates.  On a board whose cells are objects of
    the heap, its loop makes at most one turn more than there are candidates
    on the board (at most 730 turns): every larger budget gives one and the
    same result, which is not a request for another turn; no candidate list
    of an existing object has grown. *)
Theorem X8_solve_terminates board h :
  allocated board h →
  ∃ res, (∀ fuel, (total board h < fuel)%nat → solve fuel board h = Some res) ∧
         res.1 ≠ Ok Again ∧ grows h res.2 ∧
         (total board res.2 ≤ total board h)%nat.
Proof.
  intros Hal. destruct (solve_enough board (S (total board h)) h Hal) as (res & ? & ? & ?);
    [lia|].
  exists res. split_and!; try done. by apply grows_total.
Qed.

Lemma X8_solve_terminates_witness :
  ∃ res, solve 730 board0 cells0 = Some res.
Proof.
  assert (allocated board0 cells0) as Hal.
  { eapply Forall_impl; [apply board0_cells_fresh|]. intros a [Ha _]. exact Ha. }
  destruct (X8_solve_terminates board0 cells0 Hal) as (res & Hres & _).
  exists res. apply Hres. apply (bool_decide_unpack _). by vm_compute.
Defined.

(** ** A grid reported as solved is a valid sudoku *)

#[local] Instance quiet_preorder : PreOrder quiet.
Proof.
  split.
  - intros h. split; [done|]. intros a _. split; [reflexivity|done].
  - intros h1 h2 h3 [L12 H12] [L23 H23]. split; [lia|].
    intros a Ha. destruct (H12 a Ha) as [Hle1 Hu1].
    destruct (H23 a) as [Hle2 Hu2]; [lia|]. split; [by etrans|congruence].
Qed.

#[local] Instance keeps_preorder I : PreOrder (keeps I).
Proof.
  split; [intros h Hh; exact Hh|].
  intros h1 h2 h3 H12 H23 H1. exact (H23 (H12 H1)).
Qed.

Lemma quiet_grows h h' : quiet h h' → grows h h'.
Proof. intros [Hlen H]. split; [done|]. intros a Ha. by destruct (H a Ha). Qed.

Lemma on_board_allocated n h : on_board n h → (n + 81 ≤ length h)%nat.
Proof.
  intros Hh. destruct (decide (n + 81 ≤ length h)%nat) as [|Hlt]; [done|].
  specialize (Hh 80%nat ltac:(lia)).
  rewrite (list_lookup_total_alt h), lookup_ge_None_2 in Hh by lia. done.
Qed.

Lemma on_board_grows n h h' : on_board n h → grows h h' → on_board n h'.
Proof.
  intros Hh [_ Hle] k Hk. rewrite <-(Hh k Hk).
  pose proof (on_board_allocated n h Hh).
  destruct (Hle (n + k)%nat) as (Hr & Hc & Hb & _); [lia|].
  unfold coords. by rewrite Hr, Hc, Hb.
Qed.

Lemma sublist_le_1 {A} (l l' : list A) v :
  l' `sublist_of` l → (length l ≤ 1)%nat → l' = [v] → l = [v].
Proof.
  intros Hsub Hlen ->. destruct (sublist_eq_or_shorter _ _ Hsub) as [<-|Hlt]; [done|].
  simpl in Hlt. lia.
Qed.

Lemma sublist_Forall {A} (P : A → Prop) (l1 l2 : list A) :
  Forall P l2 → l1 `sublist_of` l2 → Forall P l1.
Proof.
  rewrite !Forall_forall. intros H Hsub x Hx. by eapply H, elem_of_sublist.
Qed.

Lemma eliminated_quiet n h h' : quiet h h' → eliminated n h → eliminated n h'.
Proof.
  intros Hq [Hh Hel]. pose proof (on_board_allocated n h Hh) as Hal.
  split; [by eapply on_board_grows, quiet_grows|].
  destruct Hq as [_ Hq]. intros k Hk. unfold cands in *.
  destruct (Hel k Hk) as (Hnd & Hrange & Hprop).
  destruct (Hq (n + k)%nat) as [(_ & _ & _ & Hsub & _) Hu]; [lia|].
  split_and!.
  - by eapply sublist_NoDup.
  - by eapply sublist_Forall.
  - rewrite Hu. intros Hf. destruct (Hprop Hf) as [Hlen Hpeers]. split.
    + apply sublist_length in Hsub. lia.
    + intros v k' Hk' Hv Hp.
      destruct (Hq (n + k')%nat) as [(_ & _ & _ & Hsub' & _) _]; [lia|].
      intros Hin. eapply (Hpeers v k'); [done|by eapply sublist_le_1|done|].
      by eapply elem_of_sublist.
Qed.

Lemma quiet_alter (f : Obj.t → Obj.t) a h :
  cell_le (h !!! a) (f (h !!! a)) →
  Obj.unchecked (f (h !!! a)) = Obj.unchecked (h !!! a) →
  quiet h (alter f a h).
Proof.
  intros Hle Hu. split; [by rewrite length_alter|]. intros a' Ha'.
  destruct (decide (a' = a)) as [->|Hne].
  - by rewrite list_lookup_total_alter_eq.
  - rewrite list_lookup_total_alter_ne by done. split; [reflexivity|done].
Qed.

Lemma list_remove_NoDup (v : Z) l l' :
  NoDup l → Py.list_remove v l = Some l' → v ∉ l'.
Proof.
  intros Hnd. revert l'. induction Hnd as [|x l Hx Hnd IH]; intros l'; simpl; [done|].
  case_decide as Hxv.
  - intros [= <-]. by subst x.
  - destruct (Py.list_remove v l) as [l0|]; simpl; [|done].
    intros [= <-]. apply not_elem_of_cons. split; [done|]. by apply IH.
Qed.

Lemma strike_cell_le v x : cell_le x (strike v x).
Proof.
  unfold strike, Py.contains. case_bool_decide as Hin; [|reflexivity].
  destruct (list_remove_is_Some v _ Hin) as [l Hl]. rewrite Hl.
  apply list_remove_sublist in Hl as [Hsub _]. by split_and!.
Qed.

Lemma strike_unchecked v x : Obj.unchecked (strike v x) = Obj.unchecked x.
Proof. unfold strike. by destruct (Py.contains v (Obj.cell x)). Qed.

Lemma strike_not_in v x : NoDup (Obj.cell x) → v ∉ Obj.cell (strike v x).
Proof.
  intros Hnd. unfold strike, Py.contains. case_bool_decide as Hin; [|done].
  destruct (list_remove_is_Some v _ Hin) as [l Hl]. rewrite Hl. simpl.
  by eapply list_remove_NoDup.
Qed.

Lemma foldl_strike_quiet v hs (h : Heap) :
  quiet h (foldl (λ h hit, alter (strike v) hit h) h hs).
Proof.
  revert h. induction hs as [|a hs IH]; intros h; simpl; [reflexivity|].
  etrans; [|apply IH]. apply quiet_alter; [apply strike_cell_le|apply strike_unchecked].
Qed.

Lemma foldl_strike_lookup v hs (h : Heap) a :
  NoDup hs → a ∈ hs → (a < length h)%nat →
  foldl (λ h hit, alter (strike v) hit h) h hs !!! a = strike v (h !!! a).
Proof.
  intros Hnd. revert h. induction Hnd as [|x hs Hx Hnd IH]; intros h Ha Hlt.
  { by apply elem_of_nil in Ha. }
  simpl. apply elem_of_cons in Ha as [->|Ha].
  - clear IH. assert (∀ h0 : Heap, foldl (λ h hit, alter (strike v) hit h) h0 hs !!! x
                                   = h0 !!! x) as Hskip.
    { clear -Hx. induction hs as [|y hs IH]; intros h0; simpl; [done|].
      apply not_elem_of_cons in Hx as [Hne Hx]. rewrite IH by done.
      by apply list_lookup_total_alter_ne. }
    rewrite Hskip. by apply list_lookup_total_alter_eq.
  - rewrite IH; [|done|by rewrite length_alter]. f_equal.
    apply list_lookup_total_alter_ne. by intros ->.
Qed.

Lemma not_in_hits0 k : (k < 81)%nat → k ∉ hits0 k.
Proof.
  intros Hk Hin. destruct (hits0_facts k Hk) as (_ & _ & _ & Hmem).
  apply Hmem in Hin; [|done]. by destruct Hin.
Qed.

Lemma eliminated_flag n h k :
  (k < 81)%nat → eliminated n h →
  (length (cands n h k) ≤ 1)%nat →
  (∀ v k', (k' < 81)%nat → cands n h k = [v] → peers k k' → v ∉ cands n h k') →
  eliminated n (alter (Obj.set_unchecked false) (n + k)%nat h).
Proof.
  intros Hk [Hh Hel] Hlen Hpeers. pose proof (on_board_allocated n h Hh) as Hal.
  assert (∀ j, cands n (alter (Obj.set_unchecked false) (n + k)%nat h) j = cands n h j)
    as Hc.
  { intros j. unfold cands. destruct (decide (j = k)) as [->|Hne].
    - by rewrite list_lookup_total_alter_eq by lia.
    - by rewrite list_lookup_total_alter_ne by lia. }
  split.
  - intros j Hj. rewrite <-(Hh j Hj). destruct (decide (j = k)) as [->|Hne].
    + by rewrite list_lookup_total_alter_eq by lia.
    + by rewrite list_lookup_total_alter_ne by lia.
  - intros j Hj. rewrite Hc. destruct (Hel j Hj) as (Hnd & Hrange & Hprop).
    split_and!; [done|done|]. intros Hf.
    destruct (decide (j = k)) as [->|Hne].
    + split; [done|]. intros v k' Hk'. rewrite Hc. by apply Hpeers.
    + rewrite list_lookup_total_alter_ne in Hf by lia.
      destruct (Hprop Hf) as [Hl Hp]. split; [done|].
      intros v k' Hk'. rewrite Hc. by apply Hp.
Qed.

Lemma eliminated_propagate n h k :
  (k < 81)%nat → eliminated n h → (length (cands n h k) ≤ 1)%nat →
  eliminated n (Board.propagate (shift_board n board0) (n + k) h).2.
Proof.
  intros Hk Hel Hlen. pose proof Hel as [Hh _].
  pose proof (on_board_allocated n h Hh) as Hal.
  unfold Board.propagate, bind at 1, rd, gets. cbn [fst snd].
  destruct (Obj.unchecked (h !!! (n + k)%nat)); [|done].
  unfold bind at 1. rewrite hits_shift by done. unfold bind.
  assert (Inj (=) (=) (Nat.add n)) as Hinj by (intros x y ?; lia).
  assert ((n + k)%nat ∉ shift n (hits0 k)) as Hnin.
  { intros (k0 & Heq & Hin)%list_elem_of_fmap. apply Hinj in Heq as <-.
    by apply (not_in_hits0 k). }
  destruct (Obj.cell (h !!! (n + k)%nat) !! 0%nat) as [v|] eqn:Hv.
  - rewrite (for_each_strike _ _ h v) by done. unfold wr. cbn [fst snd].
    set (h1 := foldl (λ h hit, alter (strike v) hit h) h (shift n (hits0 k))).
    pose proof (foldl_strike_quiet v (shift n (hits0 k)) h) as Hq. fold h1 in Hq.
    pose proof (eliminated_quiet n h h1 Hq Hel) as Hel1.
    destruct Hel as [_ Hel]. destruct (hits0_facts k Hk) as (_ & Hnd & Hlt & Hmem).
    assert (cands n h1 k = [v]) as Hk1.
    { unfold cands, h1. clear -Hnin Hv Hlen.
      assert (∀ hs (h0 : Heap), (n + k)%nat ∉ hs →
                foldl (λ h hit, alter (strike v) hit h) h0 hs !!! (n + k)%nat
                = h0 !!! (n + k)%nat) as Hskip.
      { induction hs as [|y hs IH]; intros h0 Hy; simpl; [done|].
        apply not_elem_of_cons in Hy as [Hne Hy]. rewrite IH by done.
        by apply list_lookup_total_alter_ne. }
      rewrite Hskip by done. unfold cands in Hlen.
      destruct (Obj.cell (h !!! (n + k)%nat)) as [|v0 [|??]]; simpl in *; try done; [|lia].
      by injection Hv as ->. }
    apply eliminated_flag; [done|done|by rewrite Hk1|].
    intros v' k' Hk' Hv' Hp. rewrite Hk1 in Hv'. injection Hv' as <-.
    unfold cands, h1. rewrite foldl_strike_lookup.
    + apply strike_not_in. by destruct (Hel k' Hk').
    + by apply (NoDup_fmap_2 _).
    + apply list_elem_of_fmap. exists k'. split; [done|]. by apply Hmem.
    + lia.
  - assert (cands n h k = []) as Hnil.
    { unfold cands. by destruct (Obj.cell (h !!! (n + k)%nat)). }
    assert (quiet h (for_each (shift n (hits0 k)) (Board.remove_value (n + k)) h).2) as Hq.
    { assert (∀ hs (h0 : Heap), Obj.cell (h0 !!! (n + k)%nat) !! 0%nat = None →
                (for_each hs (Board.remove_value (n + k)) h0).2 = h0) as Hstay.
      { intros [|hit hs] h0 H0; [done|]. simpl.
        unfold bind, Board.remove_value, Cell.item, bind, rd, gets, or_raise; simpl.
        by rewrite H0. }
      rewrite Hstay by done. reflexivity. }
    pose proof (eliminated_quiet n _ _ Hq Hel) as Hel1.
    destruct (for_each _ _ h) as [[[]|e] h1]; [|done]. unfold wr. cbn [fst snd] in *.
    destruct Hq as [_ Hq]. destruct (Hq (n + k)%nat) as [(_ & _ & _ & Hsub & _) _]; [lia|].
    unfold cands in Hnil. rewrite Hnil in Hsub. apply sublist_nil_r in Hsub.
    apply eliminated_flag; [done|done| |]; unfold cands at 1; rewrite Hsub; [simpl; lia|done].
Qed.

Lemma for_each_propagate_eliminated n xs h :
  (∀ x, x ∈ xs → ∃ k, x = (n + k)%nat ∧ (k < 81)%nat) →
  (∀ x, x ∈ xs → (length (Obj.cell (h !!! x)) ≤ 1)%nat) →
  eliminated n h →
  eliminated n (for_each xs (Board.propagate (shift_board n board0)) h).2.
Proof.
  revert h. induction xs as [|x xs IH]; intros h Hxs Hlen Hel; [done|].
  simpl. unfold bind.
  destruct (Hxs x) as (k & -> & Hk); [by left|].
  pose proof (eliminated_propagate n h k Hk Hel (Hlen _ (list_elem_of_here _ _))) as Hel1.
  pose proof (pres_shrinks_propagate (shift_board n board0) (n + k) h) as [_ Hsh].
  destruct (Board.propagate _ _ h) as [[[]|e] h1]; [|done]. cbn [fst snd] in *.
  apply IH; [|  |done].
  - intros y Hy. apply Hxs. by right.
  - intros y Hy. destruct (Hsh y) as (_ & _ & _ & Hsub & _).
    apply sublist_length in Hsub. specialize (Hlen y). rewrite elem_of_cons in Hlen.
    specialize (Hlen (or_intror Hy)). lia.
Qed.

Lemma pres_eliminated_simple_check n h :
  pres (keeps (eliminated n)) (Board.simple_check (shift_board n board0)) h.
Proof.
  intros Hel. unfold Board.simple_check, Board.filled_cells, bind at 1, gets. cbn [fst snd].
  apply for_each_propagate_eliminated; [| |done].
  - intros x [_ Hx]%list_elem_of_filter. apply cells_shift_elem in Hx.
    exists (x - n)%nat. lia.
  - intros x [Hf _]%list_elem_of_filter. unfold Cell.filled_of in Hf.
    apply Is_true_true, bool_decide_eq_true in Hf. lia.
Qed.

Lemma pres_quiet_unique_candidate group n h :
  pres quiet (Board.unique_candidate group n) h.
Proof.
  unfold pres, Board.unique_candidate, bind, gets, or_raise, wr; simpl.
  case_bool_decide; simpl; [|reflexivity].
  destruct (filter _ group !! 0%nat) as [x0|] eqn:Hx0; simpl; [|reflexivity].
  apply filter_singleton_elem in Hx0 as [Hn _].
  apply quiet_alter; [|done]. split_and!; try done. simpl.
  by apply singleton_sublist_l.
Qed.

Lemma pres_quiet_group_check b h : pres quiet (Board.group_check b) h.
Proof. apply (pres_group_check quiet). apply pres_quiet_unique_candidate. Qed.

Lemma pres_eliminated_basic_checks n h :
  pres (keeps (eliminated n)) (basic_checks (shift_board n board0)) h.
Proof.
  apply (pres_basic_checks (keeps (eliminated n))).
  - apply pres_eliminated_simple_check.
  - intros h0 Hel. eapply eliminated_quiet; [apply pres_quiet_group_check|done].
Qed.

Lemma pres_quiet_trial_handler cell h : pres quiet (trial_handler cell) h.
Proof.
  unfold trial_handler. pres_step; [pres_step|].
  match goal with H : _ = Ok ?x |- _ => rename H into Hv; rename x into v end.
  unfold Cell.item, bind, rd, gets, or_raise in Hv. cbn [fst snd] in Hv.
  destruct (Obj.cell (h !!! cell) !! 1%nat) as [v'|] eqn:Hv'; [|done].
  injection Hv as <-. rewrite (read_only_item cell 1 h).
  apply quiet_alter; [|done]. split_and!; try done. cbn [Obj.cell Obj.set_cell].
  apply singleton_sublist_l. by eapply list_elem_of_lookup_2.
Qed.

Lemma pres_quiet_trial board cell h : pres quiet (trial board cell) h.
Proof.
  unfold trial. apply (pres_try_except quiet); [|apply pres_quiet_trial_handler].
  destruct (pres_kept_trial_body board cell h) as [Hlen Heq]; [done|].
  split; [done|]. intros a Ha. rewrite Heq by done. split; [reflexivity|done].
Qed.

Lemma pres_quiet_simple_brute_check board h : pres quiet (simple_brute_check board) h.
Proof.
  unfold simple_brute_check. pres_step; [pres_step|].
  apply (pres_for_each quiet). intros cell _ h'. apply pres_quiet_trial.
Qed.

(** After [basic_checks] has returned, every solved cell is marked as
    propagated. *)
Lemma basic_checks_checked b h h' :
  basic_checks b h = (Ok tt, h') →
  ∀ cell, cell ∈ Board.cells b → Cell.filled_of (h' !!! cell) = true →
          Obj.unchecked (h' !!! cell) = false.
Proof.
  intros Hrun cell Hcell Hfilled.
  pose proof (basic_checks_unfold b h) as Hfuel. rewrite Hrun in Hfuel.
  apply until_stable_exit in Hfuel as (h0 & Hcycle & Hsame).
  unfold basic_cycle in Hcycle.
  destruct (until_stable _ b _ h0) as [[[[]|e] h1]|] eqn:Hs; [|done|done].
  assert (shrinks h0 h1) as Hsh01.
  { eapply (until_stable_pres b shrinks) in Hs; [exact Hs|].
    intros ? ? [= <-]. apply pres_shrinks_simple_check. }
  assert (shrinks h1 h') as Hsh1'.
  { eapply (until_stable_pres b shrinks) in Hcycle; [exact Hcycle|].
    intros ? ? [= <-]. apply pres_shrinks_group_check. }
  pose proof (shrinks_sandwich b _ _ _ Hsh01 Hsh1' Hsame) as Hsame1.
  apply until_stable_exit in Hs as (h0' & [= Hsimple] & Hsame0').
  destruct Hsh1' as [_ Hle]. apply (Hle cell).
  eapply simple_check_checked; [exact Hsimple|done|].
  unfold Cell.filled_of in *.
  rewrite (str_cells_eq_elem b h0' h1 cell), (str_cells_eq_elem b h1 h' cell);
    [done|congruence|done|done|done].
Qed.

Lemma pres_eliminated_solve_cycle n h :
  pres (keeps (eliminated n)) (solve_cycle (shift_board n board0)) h.
Proof.
  unfold pres. rewrite solve_cycle_unfold. intros Hel.
  pose proof (pres_eliminated_basic_checks n h Hel) as H1.
  destruct (basic_checks _ h) as [[[]|e] h1]; cbn [fst snd] in *; [|done].
  case_bool_decide; [done|].
  pose proof (pres_quiet_simple_brute_check (shift_board n board0) h1) as H2.
  unfold pres in H2.
  destruct (simple_brute_check _ h1) as [[[]|?] h2]; cbn [fst snd] in *;
    by eapply eliminated_quiet.
Qed.

Lemma solve_solved fuel b h h' :
  solve fuel b h = Some (Ok Solved, h') →
  ∃ h0, basic_checks b h0 = (Ok tt, h') ∧
        filter (λ cell, Cell.filled_of (h' !!! cell)) (Board.cells b) = Board.cells b.
Proof.
  revert h. induction fuel as [|fuel IH]; intros h; simpl; [done|].
  destruct (solve_cycle b h) as [[[]|e] h1] eqn:Hc; try done; [|by apply IH].
  intros [= <-]. rewrite solve_cycle_unfold in Hc.
  destruct (basic_checks b h) as [[[]|e] h2] eqn:Hb; [|done].
  case_bool_decide as Hs.
  - injection Hc as <-. by exists h.
  - destruct (simple_brute_check b h2) as [[[]|?] h3]; [|done].
    by case_bool_decide.
Qed.

Lemma solve_eliminated fuel n h res :
  solve fuel (shift_board n board0) h = Some res →
  eliminated n h → eliminated n res.2.
Proof.
  revert h. induction fuel as [|fuel IH]; intros h; simpl; [done|].
  pose proof (pres_eliminated_solve_cycle n h) as Hk. unfold pres in Hk.
  destruct (solve_cycle _ h) as [[[]|e] h1]; cbn [fst snd] in Hk.
  - intros [= <-]. done.
  - intros [= <-]. done.
  - intros Hres Hel. eapply IH; [done|]. by apply Hk.
  - intros [= <-]. done.
Qed.

Lemma untouched_eliminated n h : untouched n h → eliminated n h.
Proof.
  intros [Hh Hun]. split; [done|]. intros k Hk. destruct (Hun k Hk) as (? & ? & Hf).
  split_and!; [done|done|]. by rewrite Hf.
Qed.

Lemma eliminated_valid n h :
  eliminated n h →
  (∀ k, (k < 81)%nat → Cell.filled_of (h !!! (n + k)%nat) = true ∧
                        Obj.unchecked (h !!! (n + k)%nat) = false) →
  valid_grid n h.
Proof.
  intros [_ Hel] Hall k Hk. destruct (Hall k Hk) as [Hf Hu].
  apply filled_of_singleton in Hf as [v Hv]. exists v.
  destruct (Hel k Hk) as (_ & Hrange & Hprop). unfold cands in *.
  split; [done|]. split.
  - rewrite Hv in Hrange. apply Forall_cons in Hrange as [Hr _]. exact Hr.
  - intros k' Hk' Hp Hv'. destruct (Hprop Hu) as [_ Hpeers].
    apply (Hpeers v k' Hk' Hv Hp). rewrite Hv'. by left.
Qed.

Lemma solved_valid fuel n h h' :
  eliminated n h →
  solve fuel (shift_board n board0) h = Some (Ok Solved, h') →
  valid_grid n h'.
Proof.
  intros Hel Hrun. pose proof (solve_eliminated _ _ _ _ Hrun Hel) as Hel'.
  apply solve_solved in Hrun as (h0 & Hb & Hs).
  apply eliminated_valid; [done|]. intros k Hk.
  assert ((n + k)%nat ∈ Board.cells (shift_board n board0)) as Hin
    by (apply cells_shift_elem; lia).
  assert (Cell.filled_of (h' !!! (n + k)%nat) = true) as Hf.
  { rewrite <-Hs in Hin. apply list_elem_of_filter in Hin as [Hf _].
    by apply Is_true_true. }
  split; [done|]. by eapply basic_checks_checked.
Qed.

Lemma int_range ch d : Py.int ch = Some d → 0 ≤ d ≤ 9.
Proof. unfold Py.int. case_bool_decide; [|done]. intros [= <-]. lia. Qed.

Lemma pres_untouched_setup n text h :
  pres (keeps (untouched n)) (Board.setup (shift_board n board0) text) h.
Proof.
  unfold Board.setup, pres, bind. rewrite setup_targets.
  generalize (list_ascii_of_string text). intros cs.
  assert (∀ a, a ∈ Board.cells (shift_board n board0) → ∃ k, a = (n + k)%nat ∧ (k < 81)%nat)
    as Hcells.
  { intros a Ha%cells_shift_elem. exists (a - n)%nat. lia. }
  revert cs h Hcells. induction (Board.cells (shift_board n board0)) as [|a addrs IH];
    intros cs h Hcells; [by rewrite zip_with_nil_r|].
  destruct cs as [|ch cs]; [done|]. simpl. unfold bind.
  assert (keeps (untouched n) h (Board.fill_cell ch a h).2) as Hstep.
  { unfold Board.fill_cell, bind, or_raise, wr.
    destruct (Py.int ch) as [d|] eqn:Hd; simpl; [|done].
    case_bool_decide as Hd0; simpl; [|done].
    apply int_range in Hd. destruct (Hcells a) as (k & -> & Hk); [by left|].
    intros [Hh Hun]. pose proof (on_board_allocated n h Hh) as Hal. split.
    - intros j Hj. rewrite <-(Hh j Hj). destruct (decide (j = k)) as [->|Hne].
      + by rewrite list_lookup_total_alter_eq by lia.
      + by rewrite list_lookup_total_alter_ne by lia.
    - intros j Hj. unfold cands. destruct (decide (j = k)) as [->|Hne].
      + rewrite list_lookup_total_alter_eq by lia. simpl.
        destruct (Hun k Hk) as (_ & _ & Hu). split_and!; [|by constructor; [lia|]|done].
        apply NoDup_singleton.
      + rewrite list_lookup_total_alter_ne by lia. by apply Hun. }
  destruct (Board.fill_cell ch a h) as [[[]|e] h1]; cbn [fst snd] in *; [|done].
  intros Hun. apply IH; [|by apply Hstep]. intros a' Ha'. apply Hcells. by right.
Qed.

Lemma setup_ok_digits (cs : list ascii) (addrs : list loc) h :
  (for_each (zip cs addrs) (λ '(fill, cell), Board.fill_cell fill cell) h).1 = Ok tt →
  Forall is_digit (take (length addrs) cs).
Proof.
  revert addrs h. induction cs as [|ch cs IH]; intros [|a addrs] h; simpl; try done.
  unfold bind. destruct (decide (is_digit ch)) as [Hd|Hd].
  - rewrite fill_cell_is_digit by done. intros Hok. constructor; [done|by eapply IH].
  - unfold Board.fill_cell at 1, bind, or_raise. by rewrite int_not_digit.
Qed.

Lemma solve_grows fuel b h res : solve fuel b h = Some res → grows h res.2.
Proof.
  revert h. induction fuel as [|fuel IH]; intros h; simpl; [done|].
  pose proof (pres_grows_solve_cycle b h) as Hg. unfold pres in Hg.
  destruct (solve_cycle b h) as [[[]|e] h1]; cbn [fst snd] in Hg;
    try (by intros [= <-]).
  intros Hres. etrans; [exact Hg|]. by apply IH.
Qed.

Lemma shift_board_0 : shift_board 0 board0 = board0.
Proof. reflexivity. Qed.

Lemma untouched_cells0 : untouched 0 cells0.
Proof.
  split; [by intros k Hk|]. intros k Hk. unfold cands. simpl.
  pose proof cells0_fresh as Hf. rewrite Forall_forall in Hf.
  destruct (Hf (cells0 !!! k)) as [Hc Hu].
  { apply list_elem_of_lookup_total_2. by rewrite cells0_length. }
  rewrite Hc. split_and!; [|by apply Forall_forall; intros v ?%range_elem; lia|done].
  apply NoDup_seqZ.
Qed.

(** X9: when the script reports [Solved], the grid it ends with is a
    completed sudoku: every cell holds one digit of 1..9, no two cells of a
    row, a column or a box hold the same digit, and every cell that the input
    text gave a digit other than ['0'] holds that digit. *)
Theorem X9_solved_grid_is_valid fuel text h ob :
  main fuel text = Some (Ok Solved, h, ob) →
  valid_grid 0 h ∧
  ∀ i ch k, list_ascii_of_string text !! i = Some ch →
            Board.cells board0 !! i = Some k → ch ≠ "0"%char →
            Obj.cell (h !!! k) = [digit_value ch].
Proof.
  unfold main. rewrite init_nil.
  destruct (Board.setup board0 text cells0) as [[[]|e] h1] eqn:Hsetup; [|done].
  destruct (solve fuel board0 h1) as [[o h2]|] eqn:Hsolve; [|done].
  intros [= -> -> <-].
  pose proof (pres_untouched_setup 0 text cells0) as Hun. unfold pres in Hun.
  rewrite shift_board_0, Hsetup in Hun. specialize (Hun untouched_cells0).
  cbn [fst snd] in Hun.
  assert (valid_grid 0 h) as Hvalid.
  { eapply (solved_valid fuel 0 h1); [by apply untouched_eliminated|].
    by rewrite shift_board_0. }
  split; [done|]. intros i ch k Hch Hk Hne.
  assert (Forall is_digit (take 81 (list_ascii_of_string text))) as Hd.
  { pose proof Hsetup as Hs. unfold Board.setup, bind in Hs.
    pose proof (setup_targets 0 cells0) as Ht. rewrite shift_board_0 in Ht.
    rewrite Ht in Hs. apply (f_equal fst) in Hs. apply setup_ok_digits in Hs.
    by rewrite <-shift_board_0, cells_shift_length in Hs. }
  destruct (setup_spec 0 text cells0) as (h1' & Hrun & _ & _ & Hall); [done|done|].
  rewrite shift_board_0, Hsetup in Hrun. injection Hrun as <-.
  rewrite shift_board_0 in Hall. specialize (Hall i k Hk). rewrite Hch in Hall.
  assert (k < 81)%nat as Hk81.
  { pose proof board0_cells_fresh as Hf. rewrite Forall_forall in Hf.
    destruct (Hf k); [by eapply list_elem_of_lookup_2|done]. }
  assert (is_digit ch) as Hdig.
  { rewrite Forall_forall in Hd. apply Hd, (list_elem_of_lookup_2 _ i).
    rewrite lookup_take_lt; [done|]. apply lookup_lt_Some in Hk.
    by rewrite <-shift_board_0, cells_shift_length in Hk. }
  assert (digit_value ch ≠ 0) as Hnz.
  { intros Hz. apply Hne. rewrite <-(digit_char_value ch), Hz by done. done. }
  simpl in Hall. rewrite decide_False in Hall by done.
  destruct (solve_grows _ _ _ _ Hsolve) as [_ Hle]. cbn [fst snd] in Hle.
  destruct (Hle k) as (_ & _ & _ & Hsub & _).
  { destruct Hun as [Hh _]. apply on_board_allocated in Hh. lia. }
  rewrite Hall in Hsub. simpl in Hsub.
  destruct (Hvalid k Hk81) as (v & Hv & _). unfold cands in Hv. simpl in Hv.
  rewrite Hv in Hsub |- *. apply sublist_singleton in Hsub as [?|?]; [done|].
  done.
Qed.

Lemma X9_solved_grid_is_valid_witness :
  main 1 grid_full = Some (Ok Solved, grid_full_end, Some board0) ∧
  valid_grid 0 grid_full_end.
Proof.
  assert (main 1 grid_full = Some (Ok Solved, grid_full_end, Some board0)) as Hmain
    by (vm_compute; reflexivity).
  exact (conj Hmain (proj1 (X9_solved_grid_is_valid 1 grid_full grid_full_end
                              (Some board0) Hmain))).
Defined.

(** ** The solver never discards a solution *)

Lemma list_remove_other (v x : Z) l l' :
  Py.list_remove v l = Some l' → x ≠ v → x ∈ l → x ∈ l'.
Proof.
  revert l'. induction l as [|y l IH]; intros l'; simpl; [done|].
  case_decide as Hy.
  - intros [= <-] Hne [->|Hin]%elem_of_cons; [done|done].
  - destruct (Py.list_remove v l) as [l0|]; simpl; [|done].
    intros [= <-] Hne [->|Hin]%elem_of_cons; [by left|]. right. by apply IH.
Qed.

Lemma strike_other v x (o : Obj.t) : x ≠ v → x ∈ Obj.cell o → x ∈ Obj.cell (strike v o).
Proof.
  intros Hne Hin. unfold strike, Py.contains. case_bool_decide as Hv; [|done].
  destruct (list_remove_is_Some v _ Hv) as [l Hl]. rewrite Hl. simpl.
  by eapply list_remove_other.
Qed.

Lemma foldl_strike_skip v hs (h : Heap) a :
  a ∉ hs → foldl (λ h hit, alter (strike v) hit h) h hs !!! a = h !!! a.
Proof.
  revert h. induction hs as [|y hs IH]; intros h Hy; simpl; [done|].
  apply not_elem_of_cons in Hy as [Hne Hy]. rewrite IH by done.
  by apply list_lookup_total_alter_ne.
Qed.

Lemma admits_singleton n s h k :
  admits n s h → (k < 81)%nat → (length (cands n h k) ≤ 1)%nat →
  cands n h k = [s k].
Proof.
  intros [_ Had] Hk Hlen. specialize (Had k Hk).
  destruct (cands n h k) as [|v0 [|??]]; simpl in *; [by apply elem_of_nil in Had| |lia].
  by apply list_elem_of_singleton in Had as ->.
Qed.

Lemma propagate_strike n h k v :
  on_board n h → (k < 81)%nat → Obj.cell (h !!! (n + k)%nat) !! 0%nat = Some v →
  Board.propagate (shift_board n board0) (n + k) h =
  if Obj.unchecked (h !!! (n + k)%nat)
  then (Ok tt, alter (Obj.set_unchecked false) (n + k)%nat
                 (foldl (λ h hit, alter (strike v) hit h) h (shift n (hits0 k))))
  else (Ok tt, h).
Proof.
  intros Hh Hk Hv. unfold Board.propagate, bind at 1, rd, gets. cbn [fst snd].
  destruct (Obj.unchecked (h !!! (n + k)%nat)); [|done].
  unfold bind at 1. rewrite hits_shift by done. unfold bind.
  assert (Inj (=) (=) (Nat.add n)) as Hinj by (intros x y ?; lia).
  rewrite (for_each_strike _ _ h v); [done| |done].
  intros (k0 & Heq & Hin0)%list_elem_of_fmap. apply Hinj in Heq as <-.
  by apply (not_in_hits0 k).
Qed.

(** Propagating a solved cell of a grid that admits a solution returns
    normally and leaves a grid that admits it. *)
Lemma admits_propagate n s h k :
  solution s → (k < 81)%nat → admits n s h → (length (cands n h k) ≤ 1)%nat →
  (Board.propagate (shift_board n board0) (n + k) h).1 = Ok tt ∧
  admits n s (Board.propagate (shift_board n board0) (n + k) h).2.
Proof.
  intros Hs Hk Had Hlen. pose proof Had as [Hh Hin].
  pose proof (on_board_allocated n h Hh) as Hal.
  pose proof (admits_singleton n s h k Had Hk Hlen) as Hcell.
  rewrite (propagate_strike n h k (s k)) by (try done; change (cands n h k !! 0%nat = Some (s k)); by rewrite Hcell).
  destruct (Obj.unchecked (h !!! (n + k)%nat)); [|by split].
  cbn [fst snd]. split; [done|].
  assert (Inj (=) (=) (Nat.add n)) as Hinj by (intros x y ?; lia).
  set (h1 := foldl (λ h hit, alter (strike (s k)) hit h) h (shift n (hits0 k))).
  pose proof (foldl_strike_quiet (s k) (shift n (hits0 k)) h) as Hq. fold h1 in Hq.
  assert (length h1 = length h) as Hlen1.
  { unfold h1. generalize (shift n (hits0 k)). intros hs. clear. revert h.
    induction hs as [|a hs IH]; intros h; simpl; [done|].
    by rewrite IH, length_alter. }
  destruct (hits0_facts k Hk) as (_ & _ & _ & Hmem).
  split.
  - intros j Hj. rewrite <-(Hh j Hj).
    pose proof (on_board_grows n h h1 Hh (quiet_grows _ _ Hq) j Hj) as Hc1.
    rewrite (Hh j Hj), <-Hc1. destruct (decide (j = k)) as [->|Hne].
    + by rewrite list_lookup_total_alter_eq by lia.
    + by rewrite list_lookup_total_alter_ne by lia.
  - intros j Hj. unfold cands.
    assert (Obj.cell (alter (Obj.set_unchecked false) (n + k)%nat h1 !!! (n + j)%nat)
            = Obj.cell (h1 !!! (n + j)%nat)) as ->.
    { destruct (decide (j = k)) as [->|Hne].
      - by rewrite list_lookup_total_alter_eq by lia.
      - by rewrite list_lookup_total_alter_ne by lia. }
    unfold h1. destruct (decide (j ∈ hits0 k)) as [Hhit|Hhit].
    + rewrite foldl_strike_lookup.
      * apply strike_other; [|by apply Hin].
        apply Hmem in Hhit; [|done]. destruct (Hs k Hk) as [_ Hdiff].
        intros Heq. by apply (Hdiff j Hj Hhit).
      * apply (NoDup_fmap_2 _). by destruct (hits0_facts k Hk) as (_ & ? & _).
      * apply list_elem_of_fmap. by exists j.
      * lia.
    + rewrite foldl_strike_skip; [by apply Hin|].
      intros (k0 & Heq & Hin0)%list_elem_of_fmap. by apply Hinj in Heq as <-.
Qed.

Lemma admits_for_each_propagate n s xs h :
  solution s →
  (∀ x, x ∈ xs → ∃ k, x = (n + k)%nat ∧ (k < 81)%nat) →
  (∀ x, x ∈ xs → (length (Obj.cell (h !!! x)) ≤ 1)%nat) →
  admits n s h →
  (for_each xs (Board.propagate (shift_board n board0)) h).1 = Ok tt ∧
  admits n s (for_each xs (Board.propagate (shift_board n board0)) h).2.
Proof.
  intros Hs. revert h. induction xs as [|x xs IH]; intros h Hxs Hlen Had; [done|].
  simpl. unfold bind.
  destruct (Hxs x) as (k & -> & Hk); [by left|].
  destruct (admits_propagate n s h k Hs Hk Had (Hlen _ (list_elem_of_here _ _)))
    as [Hok Had1].
  pose proof (pres_shrinks_propagate (shift_board n board0) (n + k) h) as [_ Hsh].
  destruct (Board.propagate _ _ h) as [[[]|e] h1]; [|done]. cbn [fst snd] in *.
  apply IH; [| |done].
  - intros y Hy. apply Hxs. by right.
  - intros y Hy. destruct (Hsh y) as (_ & _ & _ & Hsub & _).
    apply sublist_length in Hsub. specialize (Hlen y). rewrite elem_of_cons in Hlen.
    specialize (Hlen (or_intror Hy)). lia.
Qed.

Lemma admits_simple_check n s h :
  solution s → admits n s h →
  (Board.simple_check (shift_board n board0) h).1 = Ok tt ∧
  admits n s (Board.simple_check (shift_board n board0) h).2.
Proof.
  intros Hs Had. unfold Board.simple_check, Board.filled_cells, bind at 1, gets.
  cbn [fst snd]. apply admits_for_each_propagate; [done| | |done].
  - intros x [_ Hx]%list_elem_of_filter. apply cells_shift_elem in Hx.
    exists (x - n)%nat. lia.
  - intros x [Hf _]%list_elem_of_filter. unfold Cell.filled_of in Hf.
    apply Is_true_true, bool_decide_eq_true in Hf. lia.
Qed.

Lemma board0_group_facts g0 :
  g0 ∈ Py.values (Board.rows board0) ++ Py.values (Board.cols board0) ++
       Py.values (Board.boxes board0) →
  length g0 = 9%nat ∧ NoDup g0 ∧ Forall (λ k, (k < 81)%nat) g0 ∧
  ∀ k k', k ∈ g0 → k' ∈ g0 → k ≠ k' → peers k k'.
Proof.
  assert (∀ (d : list (Z * list loc)) (attr : Obj.t → option Z),
            Forall (λ g, length g = 9%nat ∧ NoDup g) (Py.values d) →
            Forall (λ ng : Z * list loc,
                      ng.2 = filter (λ k, attr (cells0 !!! k) = Some ng.1)
                                    (Board.cells board0)) d →
            g0 ∈ Py.values d →
            length g0 = 9%nat ∧ NoDup g0 ∧ Forall (λ k, (k < 81)%nat) g0 ∧
            ∀ k k', k ∈ g0 → k' ∈ g0 → attr (cells0 !!! k) = attr (cells0 !!! k')) as Hd.
  { intros d attr Hshape Hmem Hg. rewrite Forall_forall in Hshape.
    rewrite Forall_forall in Hmem.
    destruct (Hshape g0 Hg) as [Hlen Hnd]. unfold Py.values in Hg.
    apply list_elem_of_fmap in Hg as ([key g] & -> & Hin). simpl in *.
    specialize (Hmem _ Hin). simpl in Hmem. split_and!; try done.
    - apply Forall_forall. intros k Hk. rewrite Hmem in Hk.
      apply list_elem_of_filter in Hk as [_ Hk].
      pose proof board0_cells_fresh as Hf. rewrite Forall_forall in Hf.
      by destruct (Hf k Hk).
    - intros k k'. rewrite Hmem, !list_elem_of_filter. intros [-> _] [-> _]. done. }
  pose proof board0_groups as Htab.
  apply Forall_cons in Htab as [(_ & Hr1 & _ & Hr2) Htab].
  apply Forall_cons in Htab as [(_ & Hc1 & _ & Hc2) Htab].
  apply Forall_cons in Htab as [(_ & Hb1 & _ & Hb2) _]. cbn [fst snd] in *.
  rewrite !elem_of_app. intros [Hg|[Hg|Hg]].
  - destruct (Hd _ _ Hr1 Hr2 Hg) as (? & ? & ? & Hsame). split_and!; try done.
    intros k k' Hk Hk' Hne. split; [done|]. left. by apply Hsame.
  - destruct (Hd _ _ Hc1 Hc2 Hg) as (? & ? & ? & Hsame). split_and!; try done.
    intros k k' Hk Hk' Hne. split; [done|]. right; left. by apply Hsame.
  - destruct (Hd _ _ Hb1 Hb2 Hg) as (? & ? & ? & Hsame). split_and!; try done.
    intros k k' Hk Hk' Hne. split; [done|]. right; right. by apply Hsame.
Qed.

(** A solution has every digit in every row, column and box. *)
Lemma solution_group s g0 v :
  solution s →
  g0 ∈ Py.values (Board.rows board0) ++ Py.values (Board.cols board0) ++
       Py.values (Board.boxes board0) →
  1 ≤ v ≤ 9 → ∃ k, k ∈ g0 ∧ s k = v.
Proof.
  intros Hs Hg Hv. destruct (board0_group_facts g0 Hg) as (Hlen & Hnd & Hlt & Hpeers).
  rewrite Forall_forall in Hlt.
  assert (s <$> g0 ≡ₚ Py.range 1 10) as Hperm.
  { apply submseteq_length_Permutation.
    - apply NoDup_submseteq.
      + apply NoDup_fmap_2_strong; [|done]. intros k k' Hk Hk' Heq.
        destruct (decide (k = k')) as [|Hne]; [done|]. exfalso.
        destruct (Hs k (Hlt k Hk)) as [_ Hdiff].
        apply (Hdiff k' (Hlt k' Hk') (Hpeers k k' Hk Hk' Hne) Heq).
      + intros x (k & -> & Hk)%list_elem_of_fmap. apply range_elem.
        destruct (Hs k (Hlt k Hk)) as [? _]. lia.
    - rewrite length_fmap, Hlen. unfold Py.range. by rewrite length_seqZ. }
  assert (v ∈ s <$> g0) as (k & -> & Hk)%list_elem_of_fmap.
  { rewrite Hperm. apply range_elem. lia. }
  by exists k.
Qed.

Lemma admits_unique_candidate n s g0 v h :
  solution s →
  g0 ∈ Py.values (Board.rows board0) ++ Py.values (Board.cols board0) ++
       Py.values (Board.boxes board0) →
  1 ≤ v ≤ 9 →
  pres (keeps (admits n s)) (Board.unique_candidate (shift n g0) v) h.
Proof.
  intros Hs Hg Hv Had.
  unfold Board.unique_candidate, bind, gets, or_raise, wr. cbn [fst snd].
  case_bool_decide as Hlen; [|done].
  destruct (filter _ (shift n g0)) as [|x0 [|??]] eqn:Hx; try done. simpl.
  destruct (solution_group s g0 v Hs Hg Hv) as (k & Hk & Hsk).
  destruct (board0_group_facts g0 Hg) as (_ & _ & Hlt & _).
  rewrite Forall_forall in Hlt. pose proof (Hlt k Hk) as Hk81.
  destruct Had as [Hh Hin]. pose proof (on_board_allocated n h Hh) as Hal.
  assert (x0 = (n + k)%nat) as ->.
  { assert ((n + k)%nat ∈ filter (λ cell, v ∈ Obj.cell (h !!! cell)) (shift n g0)) as Hf.
    { apply list_elem_of_filter. split.
      - rewrite <-Hsk. apply (Hin k Hk81).
      - apply list_elem_of_fmap. by exists k. }
    rewrite Hx in Hf. by apply list_elem_of_singleton in Hf. }
  split.
  - intros j Hj. rewrite <-(Hh j Hj). destruct (decide (j = k)) as [->|Hne].
    + by rewrite list_lookup_total_alter_eq by lia.
    + by rewrite list_lookup_total_alter_ne by lia.
  - intros j Hj. unfold cands. destruct (decide (j = k)) as [->|Hne].
    + rewrite list_lookup_total_alter_eq by lia. simpl. rewrite Hsk. by left.
    + rewrite list_lookup_total_alter_ne by lia. by apply Hin.
Qed.

Lemma admits_group_check n s h :
  solution s →
  pres (keeps (admits n s)) (Board.group_check (shift_board n board0)) h.
Proof.
  intros Hs. unfold Board.group_check. revert h.
  apply (pres_for_each (keeps (admits n s))). intros lis Hlis.
  apply (pres_for_each (keeps (admits n s))). intros [group v] [Hg Hv]%elem_of_prod h.
  apply range_elem in Hv.
  assert (∃ g0, group = shift n g0 ∧
                g0 ∈ Py.values (Board.rows board0) ++ Py.values (Board.cols board0) ++
                     Py.values (Board.boxes board0)) as (g0 & -> & Hg0).
  { cbn [shift_board Board.rows Board.cols Board.boxes] in Hlis.
    rewrite !elem_of_cons, elem_of_nil in Hlis.
    destruct Hlis as [->|[->|[->|[]]]]; rewrite values_shift_groups in Hg;
      apply list_elem_of_fmap in Hg as (g0 & -> & Hg0); exists g0;
      (split; [done|]); rewrite !elem_of_app; auto. }
  apply admits_unique_candidate; [done|done|lia].
Qed.

Lemma until_stable_ok b (I : Heap → Prop) fuel pass :
  (∀ h res, I h → pass h = Some res → res.1 = Ok tt ∧ I res.2) →
  ∀ h res, I h → until_stable fuel b pass h = Some res → res.1 = Ok tt ∧ I res.2.
Proof.
  intros Hpass. induction fuel as [|fuel IH]; intros h res Hh; simpl; [done|].
  destruct (pass h) as [[o h1]|] eqn:Hp; [|done].
  destruct (Hpass h _ Hh Hp) as [Ho H1]. cbn [fst snd] in *. subst o.
  case_bool_decide; [by intros [= <-]|]. by apply IH.
Qed.

Lemma basic_checks_ok b (I : Heap → Prop) :
  (∀ h, I h → (Board.simple_check b h).1 = Ok tt ∧ I (Board.simple_check b h).2) →
  (∀ h, I h → I (Board.group_check b h).2) →
  ∀ h, I h → (basic_checks b h).1 = Ok tt ∧ I (basic_checks b h).2.
Proof.
  intros Hsimple Hgroup h Hh.
  assert (∀ fuel h res, I h → basic_cycle fuel b h = Some res →
                        res.1 = Ok tt ∧ I res.2) as Hcycle.
  { intros fuel h0 res Hh0. unfold basic_cycle.
    destruct (until_stable fuel b _ h0) as [[o h1]|] eqn:H1; [|done].
    eapply (until_stable_ok b I) in H1 as [Ho1 Hh1]; [|  |done].
    2:{ intros h2 res2 Hh2 [= <-]. by apply Hsimple. }
    cbn [fst snd] in *. subst o. apply (until_stable_ok b I); [|done].
    intros h2 res2 Hh2 [= <-]. split; [apply group_check_ok|by apply Hgroup]. }
  eapply (until_stable_ok b I); [|exact Hh|apply basic_checks_unfold].
  intros h0 res Hh0. by apply Hcycle.
Qed.

Lemma admits_basic_checks n s h :
  solution s → admits n s h →
  (basic_checks (shift_board n board0) h).1 = Ok tt ∧
  admits n s (basic_checks (shift_board n board0) h).2.
Proof.
  intros Hs. apply (basic_checks_ok _ (admits n s)).
  - intros h0. by apply admits_simple_check.
  - intros h0. by apply admits_group_check.
Qed.

Lemma untouched_fresh h : untouched (length h) (h ++ cells0).
Proof.
  destruct untouched_cells0 as [_ Hun]. split; [apply on_board_fresh|].
  intros k Hk. unfold cands in *. rewrite (lookup_total_shift (length h)) by done.
  apply (Hun k Hk).
Qed.

Lemma admits_kept n s h h' :
  (∀ a, (a < length h)%nat → h' !!! a = h !!! a) → admits n s h → admits n s h'.
Proof.
  intros Hk [Hh Hin]. pose proof (on_board_allocated n h Hh) as Hal. split.
  - intros k Hk81. rewrite Hk by lia. by apply Hh.
  - intros k Hk81. unfold cands. rewrite Hk by lia. by apply Hin.
Qed.

Lemma admits_digit_cell n s h a :
  solution s → admits n s h → a ∈ Board.cells (shift_board n board0) →
  digit_cell (h !!! a).
Proof.
  intros Hs [_ Hin] Ha%cells_shift_elem v Hv.
  specialize (Hin (a - n)%nat ltac:(lia)). unfold cands in Hin.
  replace (n + (a - n))%nat with a in Hin by lia. rewrite Hv in Hin.
  apply list_elem_of_singleton in Hin as <-. destruct (Hs (a - n)%nat) as [? _]; lia.
Qed.

(** The scratch grid of a trial on a grid that admits a solution is built
    without an exception and admits the solution too. *)
Lemma admits_scratch n s h :
  solution s → admits n s h →
  ∃ h2, scratch (shift_board n board0) h = (Ok (shift_board (length h) board0), h2) ∧
        admits (length h) s h2 ∧
        (length h ≤ length h2)%nat ∧ ∀ a, (a < length h)%nat → h2 !!! a = h !!! a.
Proof.
  intros Hs Had. pose proof Had as [Hh Hin].
  pose proof (on_board_allocated n h Hh) as Hal.
  set (board := shift_board n board0). set (n' := length h).
  assert (Forall (λ a, (a < length h)%nat) (Board.cells board)) as Hlt.
  { apply Forall_forall. intros a Ha%cells_shift_elem. lia. }
  assert (Forall (λ a, digit_cell (h !!! a)) (Board.cells board)) as Hdig.
  { apply Forall_forall. intros a Ha. by eapply admits_digit_cell. }
  destruct (from_string_spec board h (cells_shift_length n) Hdig)
    as (h1 & Hfrom & _ & _ & Hall).
  pose proof (pres_kept_scratch board h) as Hkept. unfold pres in Hkept.
  unfold from_string, bind in Hfrom. unfold scratch, bind in Hkept |- *.
  rewrite init_spec in Hfrom, Hkept |- *. fold n' in Hfrom, Hkept |- *.
  unfold Board.setup_string, gets in Hkept |- *.
  rewrite setup_string_of_app in Hkept |- * by done.
  pose proof (pres_untouched_setup n' (Board.setup_string_of board h) (h ++ cells0))
    as Hun. unfold pres in Hun.
  destruct (Board.setup _ _ _) as [[[]|e] h1'] eqn:Hsetup; [|done].
  injection Hfrom as ->. cbn [fst snd] in Hun.
  specialize (Hun (untouched_fresh h)). destruct Hun as [Hh1 _].
  assert (admits n' s h1) as Had1.
  { split; [done|]. intros k Hk.
    pose proof board0_cells_all as Hcells. rewrite Forall_forall in Hcells.
    specialize (Hcells k ltac:(apply elem_of_seq; lia)).
    apply list_elem_of_lookup_1 in Hcells as [i Hi].
    pose proof (Forall2_lookup_lr _ _ _ i (n + k)%nat (n' + k)%nat Hall) as Hcell.
    cbn [Board.cells shift_board board] in Hcell.
    rewrite !list_lookup_fmap, Hi in Hcell. specialize (Hcell eq_refl eq_refl).
    unfold cands. rewrite Hcell.
    destruct (Cell.filled_of (h !!! (n + k)%nat)); [by apply Hin|].
    apply range_elem. destruct (Hs k Hk) as [? _]. lia. }
  destruct (admits_basic_checks n' s h1 Hs Had1) as [Hok Had2].
  destruct (basic_checks _ h1) as [[[]|e] h2]; [|done]. cbn [fst snd] in *.
  exists h2. destruct Hkept as [Hle Heq]; [done|]. by split_and!.
Qed.

(** *** The only exception of the two passes is [IndexError] *)

Lemma propagate_outcome_shift n h k :
  on_board n h → (k < 81)%nat →
  ok_or_index (Board.propagate (shift_board n board0) (n + k) h).1.
Proof.
  intros Hh Hk. unfold Board.propagate, bind at 1, rd, gets. cbn [fst snd].
  destruct (Obj.unchecked (h !!! (n + k)%nat)); [|by left].
  unfold bind at 1. rewrite hits_shift by done. unfold bind.
  destruct (for_each_outcome (λ _, True) (shift n (hits0 k)) (Board.remove_value (n + k)))
    with (h := h) as [Ho _]; [|done|].
  { intros hit h' _ _. split; [apply remove_value_outcome|done]. }
  destruct (for_each _ _ h) as [[[]|e] h1]; cbn [fst snd] in *; [by left|done].
Qed.

Lemma simple_check_outcome n h :
  on_board n h →
  ok_or_index (Board.simple_check (shift_board n board0) h).1 ∧
  on_board n (Board.simple_check (shift_board n board0) h).2.
Proof.
  intros Hh. split.
  - unfold Board.simple_check, Board.filled_cells, bind at 1, gets. cbn [fst snd].
    apply (for_each_outcome (on_board n)); [|done].
    intros x h' [_ Hx]%list_elem_of_filter Hh'. apply cells_shift_elem in Hx.
    replace x with (n + (x - n))%nat by lia. split.
    + apply propagate_outcome_shift; [done|lia].
    + eapply on_board_grows; [done|]. apply shrinks_grows, pres_shrinks_propagate.
  - eapply on_board_grows; [done|]. apply shrinks_grows, pres_shrinks_simple_check.
Qed.

Lemma until_stable_outcome b (I : Heap → Prop) fuel pass :
  (∀ h res, I h → pass h = Some res → ok_or_index res.1 ∧ I res.2) →
  ∀ h res, I h → until_stable fuel b pass h = Some res → ok_or_index res.1 ∧ I res.2.
Proof.
  intros Hpass. induction fuel as [|fuel IH]; intros h res Hh; simpl; [done|].
  destruct (pass h) as [[o h1]|] eqn:Hp; [|done].
  destruct (Hpass h _ Hh Hp) as [Ho H1]. cbn [fst snd] in *.
  destruct o as [[]|e].
  - case_bool_decide; [intros [= <-]; by split; [left|]|]. by apply IH.
  - intros [= <-]. by split.
Qed.

Lemma basic_checks_outcome n h :
  on_board n h →
  ok_or_index (basic_checks (shift_board n board0) h).1 ∧
  on_board n (basic_checks (shift_board n board0) h).2.
Proof.
  intros Hh. set (b := shift_board n board0).
  assert (∀ fuel h res, on_board n h → basic_cycle fuel b h = Some res →
                        ok_or_index res.1 ∧ on_board n res.2) as Hcycle.
  { intros fuel h0 res Hh0. unfold basic_cycle.
    destruct (until_stable fuel b _ h0) as [[o h1]|] eqn:H1; [|done].
    eapply (until_stable_outcome b (on_board n)) in H1 as [Ho1 Hh1]; [| |done].
    2:{ intros h2 res2 Hh2 [= <-]. by apply simple_check_outcome. }
    cbn [fst snd] in *. destruct o as [[]|e]; [|intros [= <-]; by split].
    apply (until_stable_outcome b (on_board n)); [|done].
    intros h2 res2 Hh2 [= <-]. split.
    - left. apply group_check_ok.
    - eapply on_board_grows; [done|]. apply shrinks_grows, pres_shrinks_group_check. }
  eapply (until_stable_outcome b (on_board n)); [|exact Hh|apply basic_checks_unfold].
  intros h0 res Hh0. by apply Hcycle.
Qed.

(** *** A trial on a grid that admits a solution *)

Lemma coords_key k :
  (k < 81)%nat →
  ∃ key : Z * Z, (1 ≤ key.1 ≤ 9 ∧ 1 ≤ key.2 ≤ 9) ∧ offset key = k ∧
                 coords (cells0 !!! k) = (Some key.1, Some key.2, Some (box_of key)).
Proof.
  intros Hk. exists (Z.of_nat (k `mod` 9) + 1, Z.of_nat (k `div` 9) + 1).
  assert (offset (Z.of_nat (k `mod` 9) + 1, Z.of_nat (k `div` 9) + 1) = k) as Hoff.
  { unfold offset. cbn [fst snd]. pose proof (Nat.div_mod_eq k 9). lia. }
  assert (1 ≤ Z.of_nat (k `mod` 9) + 1 ≤ 9 ∧ 1 ≤ Z.of_nat (k `div` 9) + 1 ≤ 9) as Hr.
  { pose proof (Nat.mod_upper_bound k 9). pose proof (Nat.div_mod_eq k 9). lia. }
  split; [exact Hr|]. split; [exact Hoff|].
  destruct (board0_key (Z.of_nat (k `mod` 9) + 1, Z.of_nat (k `div` 9) + 1) Hr)
    as (_ & _ & _ & Hco).
  by rewrite Hoff in Hco.
Qed.

Lemma trial_body_run n s h k v w :
  solution s → admits n s h → (k < 81)%nat → cands n h k = [v; w] →
  ∃ h2, admits (length h) s h2 ∧
        (∀ a, (a < length h)%nat → h2 !!! a = h !!! a) ∧
        (length h ≤ length h2)%nat ∧
        trial_body (shift_board n board0) (n + k) h =
        basic_checks (shift_board (length h) board0)
                     (alter (Obj.set_cell [v]) (length h + k)%nat h2).
Proof.
  intros Hs Had Hk Hvw. pose proof Had as [Hh _].
  pose proof (on_board_allocated n h Hh) as Hal.
  destruct (admits_scratch n s h Hs Had) as (h2 & Hscr & Had2 & Hle & Hkept).
  exists h2. split_and!; try done.
  unfold trial_body, bind. rewrite Hscr.
  unfold Cell.item, rd, gets, bind. cbn [fst snd].
  rewrite Hkept by lia. unfold cands in Hvw. rewrite Hvw. cbn [lookup list_lookup or_raise ret].
  destruct (coords_key k Hk) as (key & Hkey & Hoff & Hco).
  rewrite <-(Hh k Hk) in Hco. injection Hco as Hr Hc _.
  rewrite (Hkept (n + k)%nat) by lia. rewrite Hr, Hc.
  cbn [or_raise ret]. unfold Board.setitem, bind. rewrite getitem_init.
  cbn [fst snd]. rewrite bool_decide_eq_true_2 by (destruct key; exact Hkey).
  unfold wr. replace (offset (key.1, key.2)) with k by (by destruct key). done.
Qed.

Lemma admits_assign n s h k v :
  admits n s h → (k < 81)%nat → s k = v →
  admits n s (alter (Obj.set_cell [v]) (n + k)%nat h).
Proof.
  intros [Hh Hin] Hk Hsk. pose proof (on_board_allocated n h Hh) as Hal. split.
  - intros j Hj. rewrite <-(Hh j Hj). destruct (decide (j = k)) as [->|Hne].
    + by rewrite list_lookup_total_alter_eq by lia.
    + by rewrite list_lookup_total_alter_ne by lia.
  - intros j Hj. unfold cands. destruct (decide (j = k)) as [->|Hne].
    + rewrite list_lookup_total_alter_eq by lia. simpl. rewrite Hsk. by left.
    + rewrite list_lookup_total_alter_ne by lia. by apply Hin.
Qed.

Lemma on_board_assign n h a l :
  on_board n h → on_board n (alter (Obj.set_cell l) a h).
Proof.
  intros Hh j Hj. rewrite <-(Hh j Hj).
  destruct (decide (a = (n + j)%nat)) as [->|Hne].
  - destruct (decide (n + j < length h)%nat).
    + by rewrite list_lookup_total_alter_eq.
    + by rewrite !list_lookup_total_alt, !lookup_ge_None_2 by (rewrite ?length_alter; lia).
  - by rewrite list_lookup_total_alter_ne.
Qed.

Lemma trial_handler_run cell h w :
  Obj.cell (h !!! cell) !! 1%nat = Some w →
  trial_handler cell h = (Ok tt, alter (Obj.set_cell [w]) cell h).
Proof.
  intros Hw. unfold trial_handler, Cell.item, bind, rd, gets, or_raise, wr.
  cbn [fst snd]. by rewrite Hw.
Qed.

(** A trial on a cell with two candidates of a grid that admits a solution
    returns normally, changes no other object that existed, and leaves a
    grid that admits the solution. *)
Lemma admits_trial n s h k :
  solution s → admits n s h → (k < 81)%nat → length (cands n h k) = 2%nat →
  (trial (shift_board n board0) (n + k) h).1 = Ok tt ∧
  admits n s (trial (shift_board n board0) (n + k) h).2 ∧
  (length h ≤ length (trial (shift_board n board0) (n + k) h).2)%nat ∧
  ∀ a, (a < length h)%nat → a ≠ (n + k)%nat →
       (trial (shift_board n board0) (n + k) h).2 !!! a = h !!! a.
Proof.
  intros Hs Had Hk Hlen. pose proof Had as [Hh Hin].
  pose proof (on_board_allocated n h Hh) as Hal.
  destruct (cands n h k) as [|v [|w [|??]]] eqn:Hvw; try done.
  destruct (trial_body_run n s h k v w Hs Had Hk Hvw) as (h2 & Had2 & Hkept & Hle & Hbody).
  pose proof (trial_body_kept (shift_board n board0) (n + k) h) as Hbk.
  pose proof (trial_body_length (shift_board n board0) (n + k) h) as Hbl.
  unfold trial, try_except. rewrite Hbody in *.
  set (h3 := alter (Obj.set_cell [v]) (length h + k)%nat h2) in *.
  destruct (decide (s k = v)) as [Hsv|Hsv].
  - destruct (admits_basic_checks (length h) s h3 Hs) as [Hok Had4].
    { by apply admits_assign. }
    destruct (basic_checks _ h3) as [[[]|e] h4]; [|done]. cbn [fst snd] in *.
    split_and!; [done| |done|by intros a Ha _; apply Hbk].
    by eapply admits_kept.
  - destruct (basic_checks_outcome (length h) h3) as [Ho _].
    { apply on_board_assign. by destruct Had2. }
    destruct (basic_checks _ h3) as [o h4]. cbn [fst snd] in *.
    destruct Ho as [->| ->].
    + split_and!; [done| |done|by intros a Ha _; apply Hbk].
      by eapply admits_kept.
    + rewrite decide_True by done.
      rewrite (trial_handler_run (n + k) h4 w)
        by (rewrite Hbk by lia; unfold cands in Hvw; by rewrite Hvw).
      cbn [fst snd].
      assert (s k = w) as Hsw.
      { specialize (Hin k Hk). rewrite Hvw in Hin.
        rewrite !elem_of_cons, elem_of_nil in Hin. by destruct Hin as [?|[?|[]]]. }
      split_and!; [done| |by rewrite length_alter|].
      * apply admits_assign; [|done|done]. by eapply admits_kept.
      * intros a Ha Hne. rewrite list_lookup_total_alter_ne by done. by apply Hbk.
Qed.

Lemma admits_for_each_trial n s xs h :
  solution s → NoDup xs →
  (∀ x, x ∈ xs → ∃ k, x = (n + k)%nat ∧ (k < 81)%nat ∧ length (cands n h k) = 2%nat) →
  admits n s h →
  (for_each xs (trial (shift_board n board0)) h).1 = Ok tt ∧
  admits n s (for_each xs (trial (shift_board n board0)) h).2.
Proof.
  intros Hs Hnd. revert h. induction Hnd as [|x xs Hx Hnd IH]; intros h Hxs Had.
  { split; [reflexivity|exact Had]. }
  cbn [for_each]. unfold bind. destruct (Hxs x) as (k & -> & Hk & Hlen); [by left|].
  pose proof Had as [Hh _]. pose proof (on_board_allocated n h Hh) as Hal.
  destruct (admits_trial n s h k Hs Had Hk Hlen) as (Hok & Had1 & Hle & Hkept).
  destruct (trial _ _ h) as [[[]|e] h1]; [|done]. cbn [fst snd] in *.
  apply IH; [|done]. intros y Hy.
  destruct (Hxs y) as (j & -> & Hj & Hlenj); [by right|].
  exists j. split_and!; [done|done|]. unfold cands in *.
  rewrite Hkept; [done|lia|]. intros Heq. apply Hx. by rewrite <-Heq.
Qed.

Lemma admits_simple_brute_check n s h :
  solution s → admits n s h →
  (simple_brute_check (shift_board n board0) h).1 = Ok tt ∧
  admits n s (simple_brute_check (shift_board n board0) h).2.
Proof.
  intros Hs Had. unfold simple_brute_check, bind at 1, gets. cbn [fst snd].
  apply admits_for_each_trial; [done| | |done].
  - apply NoDup_filter, cells_shift_NoDup.
  - intros x [Hlen Hx%cells_shift_elem]%list_elem_of_filter.
    exists (x - n)%nat. split_and!; [lia|lia|].
    unfold cands. by replace (n + (x - n))%nat with x by lia.
Qed.

Lemma admits_solve_cycle n s h :
  solution s → admits n s h →
  (∃ v, (solve_cycle (shift_board n board0) h).1 = Ok v) ∧
  admits n s (solve_cycle (shift_board n board0) h).2.
Proof.
  intros Hs Had. rewrite solve_cycle_unfold.
  destruct (admits_basic_checks n s h Hs Had) as [Hok Had1].
  destruct (basic_checks _ h) as [[[]|e] h1]; [|done]. cbn [fst snd] in *.
  case_bool_decide; [by split; [eexists|]|].
  destruct (admits_simple_brute_check n s h1 Hs Had1) as [Hok2 Had2].
  destruct (simple_brute_check _ h1) as [[[]|e] h2]; [|done]. cbn [fst snd] in *.
  by split; [eexists|].
Qed.

Lemma admits_solve n s fuel h res :
  solution s → admits n s h →
  solve fuel (shift_board n board0) h = Some res →
  (∃ v, res.1 = Ok v) ∧ admits n s res.2.
Proof.
  intros Hs. revert h. induction fuel as [|fuel IH]; intros h Had; cbn [solve]; [done|].
  destruct (admits_solve_cycle n s h Hs Had) as [[v Hv] Had1].
  destruct (solve_cycle _ h) as [o h1]. cbn [fst snd] in *. subst o.
  destruct v; try (intros [= <-]; by split; [eexists|]).
  by apply IH.
Qed.

(** *** The script on a puzzle that has a solution *)

Lemma total_bound b h c :
  Forall (λ a, (length (Obj.cell (h !!! a)) ≤ c)%nat) (Board.cells b) →
  (total b h ≤ c * length (Board.cells b))%nat.
Proof.
  unfold total. induction 1 as [|a l Ha _ IH]; [simpl; lia|].
  rewrite fmap_cons. cbn [sum_list_with length]. rewrite Nat.mul_succ_r.
  change (id (length (Obj.cell (h !!! a)))) with (length (Obj.cell (h !!! a))). lia.
Qed.

Lemma setup_cell_length fill x :
  Obj.cell x = Py.range 1 10 → (length (Obj.cell (setup_cell fill x)) ≤ 9)%nat.
Proof.
  intros Hx. destruct fill as [ch|]; simpl.
  - destruct (decide (digit_value ch = 0)); [by rewrite Hx|simpl; lia].
  - by rewrite Hx.
Qed.

Lemma digit_value_zero ch : is_digit ch → digit_value ch = 0 → ch = "0"%char.
Proof.
  intros Hd Hz. rewrite <-(digit_char_value ch), Hz by done. done.
Qed.

(** X10: if the first 81 characters of the text are digits and the puzzle
    they describe has a solution, the script raises no exception and ends
    with the verdict [Solved] or [Stuck], within 730 turns of the loop of
    [solve]; no cell has lost the digit of the solution; and if the verdict
    is [Solved], the grid is that solution, which is therefore the only
    one. *)
Theorem X10_solver_keeps_solutions text s :
  solution s → Forall is_digit (take 81 (list_ascii_of_string text)) →
  agrees s text →
  ∃ v h, (∀ fuel, (729 < fuel)%nat → main fuel text = Some (Ok v, h, Some board0)) ∧
         v ≠ Again ∧ admits 0 s h ∧
         (v = Solved → ∀ k, (k < 81)%nat → Obj.cell (h !!! k) = [s k]).
Proof.
  intros Hs Hd Hag.
  destruct (setup_spec 0 text cells0) as (h1 & Hrun & Hlen1 & _ & Hall); [done|done|].
  rewrite shift_board_0 in Hrun, Hall.
  pose proof board0_cells_fresh as Hfresh. rewrite Forall_forall in Hfresh.
  assert (admits 0 s h1) as Had1.
  { split.
    - pose proof (pres_untouched_setup 0 text cells0) as Hun. unfold pres in Hun.
      rewrite shift_board_0, Hrun in Hun. by destruct (Hun untouched_cells0).
    - intros k Hk. pose proof board0_cells_all as Hcells.
      rewrite Forall_forall in Hcells.
      specialize (Hcells k ltac:(apply elem_of_seq; lia)).
      apply list_elem_of_lookup_1 in Hcells as [i Hi].
      unfold cands. cbn [Nat.add]. rewrite (Hall i k Hi).
      destruct (Hfresh k) as [_ Hrange]; [by eapply list_elem_of_lookup_2|].
      assert (s k ∈ Py.range 1 10) as Hin
        by (apply range_elem; destruct (Hs k Hk) as [? _]; lia).
      destruct (list_ascii_of_string text !! i) as [ch|] eqn:Hch; simpl;
        [|by rewrite Hrange].
      destruct (decide (digit_value ch = 0)) as [Hz|Hz]; [by rewrite Hrange|].
      simpl. rewrite (Hag i ch k Hch Hi); [by left|]. by intros ->. }
  assert (total board0 h1 ≤ 729)%nat as Htotal.
  { pose proof (total_bound board0 h1 9) as Hb.
    rewrite <-shift_board_0, cells_shift_length, shift_board_0 in Hb. apply Hb.
    apply Forall_forall. intros k Hk.
    apply list_elem_of_lookup_1 in Hk as Hi. destruct Hi as [i Hi].
    rewrite (Hall i k Hi). apply setup_cell_length. by destruct (Hfresh k Hk). }
  assert (allocated board0 h1) as Hal.
  { apply Forall_forall. intros k Hk. destruct (Hfresh k Hk) as [Hk81 _].
    rewrite Hlen1, cells0_length. done. }
  destruct (solve_enough board0 (S (total board0 h1)) h1 Hal) as (res & Hres & Hfin & _);
    [lia|].
  pose proof (Hres (S (total board0 h1)) ltac:(lia)) as Hsolve.
  rewrite <-shift_board_0 in Hsolve.
  pose proof (admits_solve 0 s _ h1 res Hs Had1 Hsolve) as [[v Hv] Had].
  destruct res as [o h]. cbn [fst snd] in *. subst o.
  exists v, h. split_and!.
  - intros fuel Hfuel. unfold main. rewrite init_nil, Hrun, Hres by lia. done.
  - by intros ->.
  - done.
  - intros -> k Hk. rewrite shift_board_0 in Hsolve.
    apply solve_solved in Hsolve as (_ & _ & Hfilled).
    pose proof (admits_singleton 0 s h k Had Hk) as Hsing. unfold cands in Hsing.
    apply Hsing.
    assert (k ∈ Board.cells board0) as Hin.
    { pose proof board0_cells_all as Hcells. rewrite Forall_forall in Hcells.
      apply Hcells, elem_of_seq. lia. }
    rewrite <-Hfilled in Hin. apply list_elem_of_filter in Hin as [Hf _].
    unfold Cell.filled_of in Hf. apply Is_true_true, bool_decide_eq_true in Hf.
    cbn [Nat.add]. lia.
Qed.

#[local] Instance is_digit_dec ch : Decision (is_digit ch).
Proof. unfold is_digit. apply _. Defined.

Lemma grid_full_digits : Forall is_digit (take 81 (list_ascii_of_string grid_full)).
Proof. apply (bool_decide_unpack _). by vm_compute. Qed.

Lemma solution_full_table :
  Forall (λ kl : loc * list loc,
            1 ≤ solution_full kl.1 ≤ 9 ∧
            Forall (λ k', solution_full kl.1 ≠ solution_full k') kl.2)
         (zip (seq 0 81) hits_table).
Proof. apply (bool_decide_unpack _). by vm_compute. Qed.

Lemma solution_full_ok : solution solution_full.
Proof.
  intros k Hk. pose proof solution_full_table as Htab. rewrite Forall_forall in Htab.
  destruct (Htab (k, hits0 k)) as [Hrange Hdiff].
  { apply (list_elem_of_lookup_2 _ k).
    rewrite lookup_zip_with, lookup_seq_lt, hits_table_lookup by done. done. }
  split; [exact Hrange|]. intros k' Hk' Hp. cbn [fst snd] in Hdiff.
  rewrite Forall_forall in Hdiff. apply Hdiff. by apply peers_in_hits0.
Qed.

Lemma agrees_full_table :
  Forall (λ p : ascii * loc, solution_full p.2 = digit_value p.1)
         (zip (list_ascii_of_string grid_full) (Board.cells board0)).
Proof. apply (bool_decide_unpack _). by vm_compute. Qed.

Lemma agrees_full : agrees solution_full grid_full.
Proof.
  intros i ch k Hch Hk _. pose proof agrees_full_table as Htab.
  rewrite Forall_forall in Htab. apply (Htab (ch, k)).
  apply (list_elem_of_lookup_2 _ i). by rewrite lookup_zip_with, Hch, Hk.
Qed.

Lemma X10_solver_keeps_solutions_witness :
  ∃ v h, main 730 grid_full = Some (Ok v, h, Some board0) ∧ admits 0 solution_full h.
Proof.
  destruct (X10_solver_keeps_solutions grid_full solution_full
              solution_full_ok grid_full_digits agrees_full)
    as (v & h & Hmain & _ & Had & _).
  exists v, h. split; [apply Hmain; lia|exact Had].
Defined.

(** X11: on a board made by [Board()], in whatever state its cells have
    been brought since by operations that only shrink candidate lists,
    [simple_check] and [basic_checks] return normally or raise [IndexError]
    and nothing else (no [ValueError] from [list.remove], no [KeyError]), and
    [group_check] always returns normally. *)
Theorem X11_only_index_error h0 b h1 h :
  Board.init h0 = (Ok b, h1) → grows h1 h →
  ok_or_index (Board.simple_check b h).1 ∧
  (Board.group_check b h).1 = Ok tt ∧
  ok_or_index (basic_checks b h).1.
Proof.
  rewrite init_spec. intros [= <- <-] Hg.
  assert (on_board (length h0) h) as Hh.
  { eapply on_board_grows; [apply on_board_fresh|exact Hg]. }
  split_and!.
  - by destruct (simple_check_outcome (length h0) h Hh).
  - apply group_check_ok.
  - by destruct (basic_checks_outcome (length h0) h Hh).
Qed.

Lemma X11_only_index_error_witness :
  ok_or_index (basic_checks board0 cells0).1.
Proof.
  assert (grows cells0 cells0) as Hg by reflexivity.
  exact (proj2 (proj2 (X11_only_index_error [] board0 cells0 cells0 init_nil Hg))).
Defined.
